(** * Woodlands demo booking: booking codec, checkout, verification,
      calendar export and admin endpoints

    A shallow embedding of [server.js] (checkout, verify-payment,
    confirmation e-mail, [generateICS]) and of its extended variant with the
    admin endpoints ([adminAuth], [extractBookings], bookings, stats,
    analytics, refund, auth).

    Conventions of the embedding.
    - A JavaScript string is the list of its UTF-16 code units ([list N]);
      [.length] is [length], [slice] is [take]/[drop].
    - A property that is [undefined] (or absent) is [None].
    - Integers held in JavaScript numbers are exact integers ([Z], [nat]);
      [NaN] is [None].  Doubles agree with them up to 2^53, which covers string
      lengths and the chunk counts the encoder writes; where a number is read
      from a text (the sentinel of the decoders, the hour of a slot) the
      theorems say what happens past 2^53 or are stated up to it.  A sum of
      amounts divided by 100 is kept as the list of its terms, in cents and in
      the order they are added.
    - A metadata object (string keys, string values) is a [gmap]. *)

From Stdlib Require Import ZArith NArith Lia Bool Ascii String.
From stdpp Require Import base option list gmap.

Local Open Scope N_scope.

(* ===================================================================== *)
(** * Part I: definitions                                                  *)
(* ===================================================================== *)

(* --------------------------------------------------------------------- *)
(** ** JavaScript strings and numbers                                      *)
(* --------------------------------------------------------------------- *)

Module JS.

(** The code units of an ASCII literal of the source. *)
Definition lit (s : string) : list N :=
  List.map N_of_ascii (list_ascii_of_string s).

(** Truthiness of a string-or-undefined value: [undefined] and [''] are
    falsy. *)
Definition truthy (o : option (list N)) : bool :=
  match o with
  | Some (_ :: _) => true
  | _ => false
  end.

(** [a || b] on string-or-undefined values. *)
Definition or_else (a b : option (list N)) : option (list N) :=
  if truthy a then a else b.

(** [a || ''] *)
Definition or_empty (a : option (list N)) : list N :=
  match or_else a (Some []) with
  | Some s => s
  | None => []
  end.

(** [s.slice(i, j)] for [0 <= i <= j]; both ends are clamped to the length. *)
Definition slice (i j : nat) (s : list N) : list N :=
  take (j - i)%nat (drop i s).

(** [s.slice(-k)] for [k > 0]: the last [k] code units. *)
Definition slice_last (k : nat) (s : list N) : list N :=
  drop (length s - k)%nat s.

(** [s.padStart(2, '0')] *)
Definition padStart2 (s : list N) : list N :=
  replicate (2 - length s)%nat 48 ++ s.

(** [s.split(':')[0]]: the text before the first colon, the whole string
    when there is none. *)
Fixpoint before_colon (s : list N) : list N :=
  match s with
  | [] => []
  | c :: r => if c =? 58 then [] else c :: before_colon r
  end.

(** [s.includes(p)] *)
Fixpoint starts_with (p s : list N) : bool :=
  match p, s with
  | [], _ => true
  | _ :: _, [] => false
  | a :: p', b :: s' => (a =? b) && starts_with p' s'
  end.

Fixpoint includes (p s : list N) : bool :=
  starts_with p s ||
  match s with
  | [] => false
  | _ :: r => includes p r
  end.

(** A decimal digit. *)
Definition is_decimal (c : N) : Prop := 48 <= c <= 57.

(** *** Number to string *)

(** Decimal digits of a natural number, most significant first.  The fuel
    bounds the number of digits. *)
Fixpoint digits_fuel (fuel : nat) (n : N) : list N :=
  match fuel with
  | O => [48 + n mod 10]
  | S f =>
      if n <? 10 then [48 + n]
      else digits_fuel f (n / 10) ++ [48 + n mod 10]
  end.

Definition digits (n : N) : list N :=
  digits_fuel (N.to_nat (N.log2 n)) n.

(** [String(z)] for an integer [z]. *)
Definition String_Z (z : Z) : list N :=
  match z with
  | Zneg p => 45 :: digits (Npos p)
  | _ => digits (Z.to_N z)
  end.

(** [String(x)] for a number that is an integer or [NaN]. *)
Definition String_num (x : option Z) : list N :=
  match x with
  | Some z => String_Z z
  | None => lit "NaN"
  end.

(** *** [parseInt] *)

(** White space and line terminators, as [String.prototype.trim] and
    [parseInt] strip them. *)
Definition is_space (c : N) : bool :=
  (c =? 9) || (c =? 10) || (c =? 11) || (c =? 12) || (c =? 13) || (c =? 32)
  || (c =? 160) || (c =? 5760) || ((8192 <=? c) && (c <=? 8202))
  || (c =? 8232) || (c =? 8233) || (c =? 8239) || (c =? 8287)
  || (c =? 12288) || (c =? 65279).

Fixpoint trim_start (s : list N) : list N :=
  match s with
  | c :: r => if is_space c then trim_start r else s
  | [] => []
  end.

(** Value of a digit in the given radix (10 or 16). *)
Definition digit_val (radix : N) (c : N) : option N :=
  if (48 <=? c) && (c <=? 57) then Some (c - 48)
  else if radix =? 16 then
    if (97 <=? c) && (c <=? 102) then Some (c - 87)
    else if (65 <=? c) && (c <=? 70) then Some (c - 55)
    else None
  else None.

(** The longest prefix of digits, folded into its value; [None] when the
    prefix is empty. *)
Fixpoint read_digits (radix : N) (acc : N) (s : list N) : N :=
  match s with
  | c :: r =>
      match digit_val radix c with
      | Some d => read_digits radix (acc * radix + d) r
      | None => acc
      end
  | [] => acc
  end.

Definition read_int (radix : N) (s : list N) : option N :=
  match s with
  | c :: _ =>
      match digit_val radix c with
      | Some _ => Some (read_digits radix 0 s)
      | None => None
      end
  | [] => None
  end.

Definition strip_hex (s : list N) : N * list N :=
  match s with
  | 48 :: x :: r => if (x =? 120) || (x =? 88) then (16, r) else (10, s)
  | _ => (10, s)
  end.

(** [parseInt(s)] with no radix argument; [None] is [NaN]. *)
Definition parseInt (s : list N) : option Z :=
  let t := trim_start s in
  let '(neg, t) :=
    match t with
    | c :: r => if c =? 45 then (true, r) else if c =? 43 then (false, r) else (false, t)
    | [] => (false, t)
    end in
  let '(radix, t) := strip_hex t in
  match read_int radix t with
  | Some n => Some (if neg then Z.opp (Z.of_N n) else Z.of_N n)
  | None => None
  end.

(** [parseInt] of a value that may be [undefined]: [String(undefined)] has
    no digits. *)
Definition parseInt_opt (o : option (list N)) : option Z :=
  match o with
  | Some s => parseInt s
  | None => None
  end.

End JS.

(* --------------------------------------------------------------------- *)
(** ** JSON values, [JSON.stringify] and [JSON.parse]                      *)
(* --------------------------------------------------------------------- *)

Module Json.

(** A number keeps the text of its literal: no handler computes with a
    number read from a payload.  An object is the list of its members in
    insertion order, without duplicate keys. *)
#[warnings="-register-all"]
Inductive json : Type :=
  | JNull
  | JBool (b : bool)
  | JNum (literal : list N)
  | JStr (s : list N)
  | JArr (items : list json)
  | JObj (members : list (list N * json)).

(** *** Objects *)

(** [o[k] = v]: an existing key keeps its place, a new key goes last. *)
Fixpoint obj_put (k : list N) (v : json) (o : list (list N * json))
  : list (list N * json) :=
  match o with
  | [] => [(k, v)]
  | (k', v') :: r =>
      if decide (k' = k) then (k, v) :: r else (k', v') :: obj_put k v r
  end.

Definition obj_of_members (ms : list (list N * json)) : list (list N * json) :=
  fold_left (fun o kv => obj_put kv.1 kv.2 o) ms [].

Fixpoint obj_get (k : list N) (o : list (list N * json)) : option json :=
  match o with
  | [] => None
  | (k', v) :: r => if decide (k' = k) then Some v else obj_get k r
  end.

(** An object literal of the source whose property values are strings or
    [undefined]: [JSON.stringify] leaves the [undefined] ones out. *)
Fixpoint defined_props (ps : list (list N * option (list N)))
  : list (list N * json) :=
  match ps with
  | [] => []
  | (k, Some s) :: r => (k, JStr s) :: defined_props r
  | (_, None) :: r => defined_props r
  end.

(** *** [JSON.stringify] *)

Definition hex_digit (n : N) : N :=
  if n <? 10 then 48 + n else 87 + n.

(** [\uXXXX] with lower-case digits. *)
Definition unicode_escape (c : N) : list N :=
  [92; 117; hex_digit (c / 4096 mod 16); hex_digit (c / 256 mod 16);
   hex_digit (c / 16 mod 16); hex_digit (c mod 16)].

Definition is_high_surrogate (c : N) : bool := (55296 <=? c) && (c <=? 56319).
Definition is_low_surrogate (c : N) : bool := (56320 <=? c) && (c <=? 57343).

(** The body of a quoted string: the two-character escapes, [\uXXXX] for the
    other control characters and for lone surrogates, everything else as it
    is (a surrogate pair stays a pair). *)
Fixpoint quote_chars (s : list N) : list N :=
  match s with
  | [] => []
  | c :: r =>
      if c =? 8 then 92 :: 98 :: quote_chars r
      else if c =? 9 then 92 :: 116 :: quote_chars r
      else if c =? 10 then 92 :: 110 :: quote_chars r
      else if c =? 12 then 92 :: 102 :: quote_chars r
      else if c =? 13 then 92 :: 114 :: quote_chars r
      else if c =? 34 then 92 :: 34 :: quote_chars r
      else if c =? 92 then 92 :: 92 :: quote_chars r
      else if c <? 32 then unicode_escape c ++ quote_chars r
      else if is_high_surrogate c then
        match r with
        | d :: r' =>
            if is_low_surrogate d then c :: d :: quote_chars r'
            else unicode_escape c ++ quote_chars r
        | [] => unicode_escape c
        end
      else if is_low_surrogate c then unicode_escape c ++ quote_chars r
      else c :: quote_chars r
  end.

Definition quote (s : list N) : list N := 34 :: quote_chars s ++ [34].

(** The texts of the elements, with a comma between two of them. *)
Definition join_with {A} (f : A -> list N) : list A -> list N :=
  fix go (l : list A) : list N :=
    match l with
    | [] => []
    | [x] => f x
    | x :: r => f x ++ 44 :: go r
    end.

(** [JSON.stringify(v)] with no indentation. *)
Fixpoint JSON_stringify (v : json) : list N :=
  match v with
  | JNull => JS.lit "null"
  | JBool true => JS.lit "true"
  | JBool false => JS.lit "false"
  | JNum t => t
  | JStr s => quote s
  | JArr items => 91 :: join_with JSON_stringify items ++ [93]
  | JObj members =>
      123 :: join_with (fun kv => quote (fst kv) ++ 58 :: JSON_stringify (snd kv))
                       members ++ [125]
  end.

(** The text of one member of an object. *)
Definition member_text (kv : list N * json) : list N :=
  quote (fst kv) ++ 58 :: JSON_stringify (snd kv).

(** *** [JSON.parse] *)

Definition is_ws (c : N) : bool :=
  (c =? 32) || (c =? 9) || (c =? 10) || (c =? 13).

Fixpoint skip_ws (s : list N) : list N :=
  match s with
  | c :: r => if is_ws c then skip_ws r else s
  | [] => []
  end.

Definition hex_val (c : N) : option N :=
  if (48 <=? c) && (c <=? 57) then Some (c - 48)
  else if (97 <=? c) && (c <=? 102) then Some (c - 87)
  else if (65 <=? c) && (c <=? 70) then Some (c - 55)
  else None.

Definition hex4 (a b c d : N) : option N :=
  match hex_val a, hex_val b, hex_val c, hex_val d with
  | Some x, Some y, Some z, Some w => Some (((x * 16 + y) * 16 + z) * 16 + w)
  | _, _, _, _ => None
  end.

(** The characters of a string after its opening quote, up to the closing
    quote: the decoded string and the rest of the text. *)
Fixpoint parse_chars (s : list N) : option (list N * list N) :=
  let cons_to (c : N) (p : option (list N * list N)) :=
    match p with
    | Some (str, rest) => Some (c :: str, rest)
    | None => None
    end in
  match s with
  | [] => None
  | c :: r =>
      if c =? 34 then Some ([], r)
      else if c =? 92 then
        match r with
        | e :: r' =>
            if e =? 34 then cons_to 34 (parse_chars r')
            else if e =? 92 then cons_to 92 (parse_chars r')
            else if e =? 47 then cons_to 47 (parse_chars r')
            else if e =? 98 then cons_to 8 (parse_chars r')
            else if e =? 102 then cons_to 12 (parse_chars r')
            else if e =? 110 then cons_to 10 (parse_chars r')
            else if e =? 114 then cons_to 13 (parse_chars r')
            else if e =? 116 then cons_to 9 (parse_chars r')
            else if e =? 117 then
              match r' with
              | h1 :: h2 :: h3 :: h4 :: r'' =>
                  match hex4 h1 h2 h3 h4 with
                  | Some u => cons_to u (parse_chars r'')
                  | None => None
                  end
              | _ => None
              end
            else None
        | [] => None
        end
      else if c <? 32 then None
      else cons_to c (parse_chars r)
  end.

Definition is_digit (c : N) : bool := (48 <=? c) && (c <=? 57).

Fixpoint span_digits (s : list N) : list N * list N :=
  match s with
  | c :: r =>
      if is_digit c then let '(d, rest) := span_digits r in (c :: d, rest)
      else ([], s)
  | [] => ([], [])
  end.

(** One digit or more. *)
Definition digits1 (s : list N) : option (list N * list N) :=
  match span_digits s with
  | ([], _) => None
  | (d, r) => Some (d, r)
  end.

(** The parts of a number literal: an optional minus sign; an integer part,
    which is one zero or digits that start with a non-zero digit; an optional
    fraction, a dot and digits; an optional exponent, e or E, an optional
    sign, digits. *)
Definition number_sign (s : list N) : list N * list N :=
  match s with
  | c :: r => if c =? 45 then ([45], r) else ([], s)
  | [] => ([], s)
  end.

Definition number_int (s : list N) : option (list N * list N) :=
  match s with
  | c :: r => if c =? 48 then Some ([48], r) else digits1 s
  | [] => None
  end.

Definition number_frac (s : list N) : option (list N * list N) :=
  match s with
  | c :: r =>
      if c =? 46 then
        match digits1 r with
        | Some (d, r') => Some (46 :: d, r')
        | None => None
        end
      else Some ([], s)
  | [] => Some ([], s)
  end.

Definition number_exp (s : list N) : option (list N * list N) :=
  match s with
  | e :: r =>
      if (e =? 101) || (e =? 69) then
        let '(sg, r1) :=
          match r with
          | c :: r' => if (c =? 43) || (c =? 45) then ([c], r') else ([], r)
          | [] => ([], r)
          end in
        match digits1 r1 with
        | Some (d, r2) => Some (e :: sg ++ d, r2)
        | None => None
        end
      else Some ([], s)
  | [] => Some ([], s)
  end.

Definition parse_number (s : list N) : option (list N * list N) :=
  let '(sign, s1) := number_sign s in
  match number_int s1 with
  | None => None
  | Some (ip, s2) =>
      match number_frac s2 with
      | None => None
      | Some (fp, s3) =>
          match number_exp s3 with
          | None => None
          | Some (ep, s4) => Some (sign ++ ip ++ fp ++ ep, s4)
          end
      end
  end.

(** The text after the character [k], when [k] is the next character that
    is not white space. *)
Definition next_is (k : N) (s : list N) : option (list N) :=
  match skip_ws s with
  | c :: r => if c =? k then Some r else None
  | [] => None
  end.

(** One value, given the parsers of the elements of an array and of the
    members of an object. *)
Definition value_body
    (elements : list N -> option (list json * list N))
    (members : list N -> option (list (list N * json) * list N))
    (s : list N) : option (json * list N) :=
  match skip_ws s with
  | [] => None
  | c :: r =>
      if c =? 34 then
        match parse_chars r with
        | Some (str, rest) => Some (JStr str, rest)
        | None => None
        end
      else if c =? 91 then
        match next_is 93 r with
        | Some r' => Some (JArr [], r')
        | None =>
            match elements r with
            | Some (vs, rest) => Some (JArr vs, rest)
            | None => None
            end
        end
      else if c =? 123 then
        match next_is 125 r with
        | Some r' => Some (JObj [], r')
        | None =>
            match members r with
            | Some (ms, rest) => Some (JObj (obj_of_members ms), rest)
            | None => None
            end
        end
      else if JS.starts_with (JS.lit "null") (c :: r) then
        Some (JNull, drop 4 (c :: r))
      else if JS.starts_with (JS.lit "true") (c :: r) then
        Some (JBool true, drop 4 (c :: r))
      else if JS.starts_with (JS.lit "false") (c :: r) then
        Some (JBool false, drop 5 (c :: r))
      else
        match parse_number (c :: r) with
        | Some (t, rest) => Some (JNum t, rest)
        | None => None
        end
  end.

(** The elements of an array after its opening bracket, up to the closing
    one: a value, then a comma and more elements, or the bracket. *)
Definition elements_body
    (value : list N -> option (json * list N))
    (elements : list N -> option (list json * list N))
    (s : list N) : option (list json * list N) :=
  match value s with
  | None => None
  | Some (v, r) =>
      match next_is 44 r with
      | Some r' =>
          match elements r' with
          | Some (vs, rest) => Some (v :: vs, rest)
          | None => None
          end
      | None =>
          match next_is 93 r with
          | Some r' => Some ([v], r')
          | None => None
          end
      end
  end.

(** The members of an object after its opening brace, up to the closing
    one: a key, a colon, a value, then a comma and more members, or the
    brace. *)
Definition members_body
    (value : list N -> option (json * list N))
    (members : list N -> option (list (list N * json) * list N))
    (s : list N) : option (list (list N * json) * list N) :=
  match next_is 34 s with
  | None => None
  | Some r =>
      match parse_chars r with
      | None => None
      | Some (k, r1) =>
          match next_is 58 r1 with
          | None => None
          | Some r2 =>
              match value r2 with
              | None => None
              | Some (v, r3) =>
                  match next_is 44 r3 with
                  | Some r4 =>
                      match members r4 with
                      | Some (ms, rest) => Some ((k, v) :: ms, rest)
                      | None => None
                      end
                  | None =>
                      match next_is 125 r3 with
                      | Some r4 => Some ([(k, v)], r4)
                      | None => None
                      end
                  end
              end
          end
      end
  end.

(** The recursive-descent parser.  Every call uses up one unit of fuel;
    [JSON_parse] supplies as much as a text can use. *)
Fixpoint parse_value (fuel : nat) (s : list N) : option (json * list N) :=
  match fuel with
  | O => None
  | S f => value_body (parse_elements f) (parse_members f) s
  end
with parse_elements (fuel : nat) (s : list N) : option (list json * list N) :=
  match fuel with
  | O => None
  | S f => elements_body (parse_value f) (parse_elements f) s
  end
with parse_members (fuel : nat) (s : list N)
  : option (list (list N * json) * list N) :=
  match fuel with
  | O => None
  | S f => members_body (parse_value f) (parse_members f) s
  end.

(** [JSON.parse(text)]; [None] is the [SyntaxError]. *)
Definition JSON_parse (text : list N) : option json :=
  match parse_value (2 * length text + 2) text with
  | Some (v, rest) =>
      match skip_ws rest with
      | [] => Some v
      | _ :: _ => None
      end
  | None => None
  end.

(** A value whose text [parse_value] reads back, with [k] units of fuel or
    more and whatever text follows. *)
Definition reads_back (k : nat) (v : json) : Prop :=
  forall fuel rest, (k <= fuel)%nat ->
    parse_value fuel (JSON_stringify v ++ rest) = Some (v, rest).

Definition is_object (v : json) : Prop :=
  match v with
  | JObj _ => True
  | _ => False
  end.

(** The remainder a parser returns is no longer than its input. *)
Definition shrinks {A} (p : list N -> option (A * list N)) : Prop :=
  forall s x r, p s = Some (x, r) -> (length r <= length s)%nat.

(** [q] succeeds wherever [p] does, with the same result, on the texts
    shorter than [n]. *)
Definition extends_below {A} (n : nat) (p q : list N -> option A) : Prop :=
  forall s x, (length s < n)%nat -> p s = Some x -> q s = Some x.

End Json.

Import JS Json.

(* --------------------------------------------------------------------- *)
(** ** Data model                                                          *)
(* --------------------------------------------------------------------- *)

(** An element of the cart in the request body.  Every field is a string or
    is absent. *)
Record CartItem : Type := mkCartItem {
  item_date : option (list N);
  item_dateStr : option (list N);
  item_time : option (list N);
  item_location : option (list N);
  item_displayDate : option (list N)
}.

(** A slot reduced to the four fields the checkout keeps. *)
Record Slot : Type := mkSlot {
  date : option (list N);
  time : option (list N);
  location : option (list N);
  displayDate : option (list N)
}.

Record Charge : Type := mkCharge {
  refunded : bool;
  amount_refunded : Z
}.

(** [session.payment_intent]: absent, an identifier, or the expanded object
    with its [charges.data]. *)
Inductive PaymentIntent : Type :=
  | PI_absent
  | PI_id (id : list N)
  | PI_object (id : list N) (charges : option (list Charge)).

Record Session : Type := mkSession {
  session_id : list N;
  session_url : option (list N);
  payment_status : list N;
  customer_email : option (list N);
  amount_total : Z;
  created : Z;
  metadata : gmap (list N) (list N);
  payment_intent : PaymentIntent
}.

(* --------------------------------------------------------------------- *)
(** ** Booking codec                                                       *)
(* --------------------------------------------------------------------- *)

(** *** Encoder: the [metadata] of [create-checkout-session] *)

(** [cart.map(b => ({ date: b.date || b.dateStr, time: b.time, ... }))] *)
Definition slim_item (b : CartItem) : Slot :=
  {| date := or_else (item_date b) (item_dateStr b);
     time := item_time b;
     location := item_location b;
     displayDate := item_displayDate b |}.

Definition slim (cart : list CartItem) : list Slot := map slim_item cart.

(** The slot as the JSON object [JSON.stringify] writes and [JSON.parse]
    reads back. *)
Definition slot_json (s : Slot) : json :=
  JObj (defined_props
          [(lit "date", date s); (lit "time", time s);
           (lit "location", location s); (lit "displayDate", displayDate s)]).

Definition slots_json (l : list Slot) : json := JArr (map slot_json l).

(** [m[k] = v] where [v] may be [undefined]: reading the key gives
    [undefined] either way. *)
Definition set_prop (k : list N) (v : option (list N))
    (m : gmap (list N) (list N)) : gmap (list N) (list N) :=
  match v with
  | Some s => <[k := s]> m
  | None => delete k m
  end.

(** The key [`bookings_${i}`]. *)
Definition chunk_key (i : nat) : list N :=
  lit "bookings_" ++ String_Z (Z.of_nat i).

(** [Math.ceil(n / 500)] *)
Definition chunk_count (n : nat) : nat := ((n + 499) / 500)%nat.

(** [for (let i = 0; i < s.length; i += 500)
       meta[`bookings_${Math.floor(i / 500)}`] = s.slice(i, i + 500);]
    The fuel is the number of iterations left; [length s] is never used up. *)
Fixpoint chunk_loop (fuel : nat) (i : nat) (s : list N)
    (meta : gmap (list N) (list N)) : gmap (list N) (list N) :=
  match fuel with
  | O => meta
  | S f =>
      if (i <? length s)%nat then
        chunk_loop f (i + 500)%nat s
          (<[chunk_key (i / 500)%nat := slice i (i + 500)%nat s]> meta)
      else meta
  end.

(** The two branches on the blob's length. *)
Definition store_bookings (bookingsStr : list N)
    (meta : gmap (list N) (list N)) : gmap (list N) (list N) :=
  if (length bookingsStr <=? 500)%nat then
    <[lit "bookings" := bookingsStr]> meta
  else
    <[lit "bookings_chunks" := String_Z (Z.of_nat (chunk_count (length bookingsStr)))]>
      (chunk_loop (length bookingsStr) 0 bookingsStr meta).

Definition bookings_blob (cart : list CartItem) : list N :=
  JSON_stringify (slots_json (slim cart)).

(** The metadata the checkout attaches to the session. *)
Definition checkout_metadata
    (customerName company product phone : option (list N))
    (cart : list CartItem) : gmap (list N) (list N) :=
  let meta :=
    set_prop (lit "phone") phone
      (set_prop (lit "product") product
         (set_prop (lit "company") company
            (set_prop (lit "customerName") customerName ∅))) in
  store_bookings (bookings_blob cart) meta.

(** A key the encoder writes with the customer's details. *)
Definition detail_key (k : list N) : Prop :=
  k = lit "customerName" \/ k = lit "company" \/ k = lit "product" \/ k = lit "phone".

(** *** Decoders *)

(** [for (let i = 0; i < chunks; i++) s += metadata[`bookings_${i}`] || '';]
    from index [i], with [n] iterations left: the text the loop has built
    when it ends. *)
Fixpoint read_chunks (meta : gmap (list N) (list N)) (i n : nat) : list N :=
  match n with
  | O => []
  | S n' => or_empty (meta !! chunk_key i) ++ read_chunks meta (S i) n'
  end.

(** The number of iterations of [for (i = 0; i < chunks; i++)]: none when
    [chunks] is [NaN] or not positive.  This is the count for a sentinel the
    counter reaches, one of at most [2^53]; [loop_count] below says what the
    loop does past that, and the handlers run the decoders through it. *)
Definition iterations (chunks : option Z) : nat :=
  match chunks with
  | Some z => Z.to_nat z
  | None => O
  end.

(** The text [extractBookings] hands to [JSON.parse]; [None] when
    [bookingsStr] stays [undefined]. *)
Definition extract_text (meta : gmap (list N) (list N)) : option (list N) :=
  if truthy (meta !! lit "bookings") then meta !! lit "bookings"
  else if truthy (meta !! lit "bookings_chunks") then
    Some (read_chunks meta 0
            (iterations (parseInt_opt (meta !! lit "bookings_chunks"))))
  else None.

(** The value of [extractBookings(session)] once its loop has ended:
    [bookingsStr ? JSON.parse(bookingsStr) : []] inside
    [try { } catch (e) { return []; }]; [extractBookings_run] is the call
    itself. *)
Definition extractBookings (s : Session) : json :=
  match extract_text (metadata s) with
  | Some (c :: t) =>
      match JSON_parse (c :: t) with
      | Some v => v
      | None => JArr []
      end
  | _ => JArr []
  end.

(** The text the verify-payment handler hands to [JSON.parse]. *)
Definition verify_text (meta : gmap (list N) (list N)) : list N :=
  if truthy (meta !! lit "bookings") then or_empty (meta !! lit "bookings")
  else
    read_chunks meta 0
      (iterations
         (parseInt_opt (or_else (meta !! lit "bookings_chunks") (Some (lit "0"))))).

(** [JSON.parse(bookingsStr)] in the verify-payment handler: nothing catches
    the [SyntaxError] before the handler's own [catch]. *)
Definition verify_decode (meta : gmap (list N) (list N)) : option json :=
  JSON_parse (verify_text meta).

(* --------------------------------------------------------------------- *)
(** ** Handlers: effects, collaborators, requests and responses            *)
(* --------------------------------------------------------------------- *)

(** What a handler can throw or receive as a rejection. *)
Inductive exn : Type :=
  | TypeError
  | SyntaxError
  | ApiError (type : option (list N)) (message : list N).

Record LineItem : Type := mkLineItem {
  currency : list N;
  product_name : list N;
  product_description : list N;
  unit_amount : Z;
  quantity : Z
}.

Record CreateParams : Type := mkCreateParams {
  line_items : list LineItem;
  success_url : list N;
  cancel_url : list N;
  create_customer_email : option (list N);
  create_metadata : gmap (list N) (list N)
}.

Record ListParams : Type := mkListParams {
  limit : Z;
  expand_payment_intent : bool;
  starting_after : option (list N);
  created_gte : option Z
}.

Record Batch : Type := mkBatch {
  data : list Session;
  has_more : bool
}.

Record Refund : Type := mkRefund {
  refund_id : list N;
  refund_amount : Z
}.

(** The confirmation e-mail: the values its HTML template is filled with (one
    row of three cells per booking) and the calendar attachment, before its
    base64 encoding. *)
Record Email : Type := mkEmail {
  to : option (list N);
  subject : list N;
  html_fields : list (list N);
  html_rows : list (list N * list N * list N);
  attachment : option (list N)
}.

(** The calls that leave the process, in the order they are made. *)
Inductive event : Type :=
  | SessionsCreate (p : CreateParams)
  | SessionsRetrieve (id : list N) (expand : bool)
  | SessionsList (p : ListParams)
  | RefundsCreate (payment_intent_id : list N)
  | EmailsSend (e : Email)
  | ConsoleLog
  | ConsoleError.

(** The environment of a request: configuration, the answers of the payment
    processor and of the mail provider, the clock, and the parts of the
    JavaScript runtime the embedding leaves abstract (formatting of
    floating-point amounts and of numbers, the [Date] object in local
    time). *)
Record Env : Type := mkEnv {
  ADMIN_PASSWORD : option (list N);
  FRONTEND_URL : option (list N);
  sessions_create : CreateParams -> exn + Session;
  sessions_retrieve : list N -> bool -> exn + Session;
  sessions_list : ListParams -> exn + Batch;
  refunds_create : list N -> exn + Refund;
  emails_send : Email -> exn + unit;
  (** [Date.now()]; the clock is read as one value. *)
  Date_now : Z;
  (** [x.toFixed(2)] for the floating-point sum [x] of the given amounts in
      cents, each divided by 100, added in this order. *)
  toFixed2 : list Z -> list N;
  (** [String(x)] and the truthiness of the number a literal denotes. *)
  number_text : list N -> list N;
  number_truthy : list N -> bool;
  (** [new Date(v)] for a value of a payload and [new Date(ms)] for a number:
      [(getFullYear(), getMonth(), getDate(), getDay())] in local time,
      [None] for an invalid date. *)
  date_of_value : option json -> option (Z * Z * Z * Z);
  date_of_ms : Z -> option (Z * Z * Z * Z);
  (** [new Date(year, month, 1).getTime()] *)
  month_start_ms : Z -> Z -> Z;
  (** [new Date(ms).toISOString()] *)
  toISOString : Z -> list N
}.

(** How the run of a handler ends. *)
Inductive outcome (A : Type) : Type :=
  | Returns (a : A)
  | Throws (e : exn)
  | Hangs.
Arguments Returns {A} a.
Arguments Throws {A} e.
Arguments Hangs {A}.

(** A computation: the calls it made and how it ended. *)
Definition Eff (A : Type) : Type := list event * outcome A.

Definition ret {A} (a : A) : Eff A := ([], Returns a).
Definition throw {A} (e : exn) : Eff A := ([], Throws e).
Definition hang {A} : Eff A := ([], Hangs).

Definition bind {A B} (m : Eff A) (k : A -> Eff B) : Eff B :=
  match m with
  | (t, Returns a) => let '(t', r) := k a in (t ++ t', r)
  | (t, Throws e) => (t, Throws e)
  | (t, Hangs) => (t, Hangs)
  end.

(** [try { m } catch (e) { h e }] *)
Definition try_catch {A} (m : Eff A) (h : exn -> Eff A) : Eff A :=
  match m with
  | (t, Throws e) => let '(t', r) := h e in (t ++ t', r)
  | other => other
  end.

(** A call to a collaborator: the event, then its answer. *)
Definition call {A} (ev : event) (answer : exn + A) : Eff A :=
  match answer with
  | inl e => ([ev], Throws e)
  | inr a => ([ev], Returns a)
  end.

Definition log (ev : event) : Eff unit := ([ev], Returns tt).

(** A value that must be there: reading a property of [undefined] throws. *)
Definition defined {A} (o : option A) : Eff A :=
  match o with
  | Some a => ret a
  | None => throw TypeError
  end.

Declare Scope eff_scope.
Delimit Scope eff_scope with eff.
Notation "x <- m ;; k" := (bind m (fun x => k))
  (at level 100, m at next level, right associativity) : eff_scope.
Notation "m ;;; k" := (bind m (fun _ => k))
  (at level 100, k at level 200, right associativity) : eff_scope.
Local Open Scope eff_scope.

Definition trace {A} (m : Eff A) : list event := m.1.
Definition result {A} (m : Eff A) : outcome A := m.2.

(** A number that may be [NaN], and [x + y] on such numbers. *)
Definition js_add (x y : option Z) : option Z :=
  match x, y with
  | Some a, Some b => Some (a + b)%Z
  | _, _ => None
  end.

(** One entry of [GET /api/admin/bookings]. *)
Record BookingRecord : Type := mkBookingRecord {
  br_id : list N;
  br_paymentIntentId : option (list N);
  br_customerName : option (list N);
  br_email : option (list N);
  br_company : option (list N);
  br_product : option (list N);
  br_phone : option (list N);
  br_bookings : json;
  br_totalAmount : list N;
  br_createdAt : list N;
  br_status : list N;
  br_refundAmount : list N
}.

(** The answer of [GET /api/admin/stats]. *)
Record StatsRecord : Type := mkStatsRecord {
  thisMonthDemos : option Z;
  totalRevenue : list N;
  marketShare : list N;
  grassrootsShare : list N;
  demoFee : list N;
  marketPerDemo : list N;
  grassrootsPerDemo : list N
}.

(** One month of [monthlyData]; [revenue] is the list of the amounts added,
    in cents. *)
Record MonthRow : Type := mkMonthRow {
  revenue : list Z;
  demos : option Z;
  market : option Z;
  grassroots : option Z
}.

Record LocationRow : Type := mkLocationRow {
  loc_demos : Z;
  loc_revenue : Z
}.

(** One entry of [customers]; [totalSpent] is the list of the amounts added,
    in cents. *)
Record CustomerRow : Type := mkCustomerRow {
  cust_name : option (list N);
  cust_email : option (list N);
  cust_company : option (list N);
  cust_bookings : option Z;
  cust_totalSpent : list Z;
  cust_firstBooking : Z;
  cust_lastBooking : Z;
  cust_products : list (list N)
}.

(** One entry of [customerList]. *)
Record CustomerOut : Type := mkCustomerOut {
  out_row : CustomerRow;
  out_firstBooking : list N;
  out_lastBooking : list N;
  isRepeat : bool
}.

(** The answer of [GET /api/admin/analytics]. *)
Record Analytics : Type := mkAnalytics {
  monthly : gmap (list N) MonthRow;
  locations : gmap (list N) LocationRow;
  timeSlots : gmap (list N) Z;
  popularDays : gmap (list N) Z;
  customers : list CustomerOut;
  totalCustomers : nat;
  repeatCustomers : nat
}.

(** The body of a response. *)
Inductive body : Type :=
  | Error (message : list N)
  | ErrorOf (e : exn)
  | ErrorTyped (e : exn)
  | Checkout (sessionId : list N) (url : option (list N))
  | Verified (confirmationNumber : list N) (bookings : json)
      (customerEmail : option (list N))
  | Success
  | Refunded (refundId : list N) (amount : list N)
  | Bookings (l : list BookingRecord)
  | Stats (r : StatsRecord)
  | AnalyticsOf (a : Analytics).

Record response : Type := mkResponse {
  status : nat;
  payload : body
}.

(** [res.json(b)] and [res.status(n).json(b)] *)
Definition json_ok (b : body) : Eff response := ret (mkResponse 200 b).
Definition json_status (n : nat) (b : body) : Eff response := ret (mkResponse n b).

(** [`${v}`] for a string-or-undefined value. *)
Definition text (v : option (list N)) : list N :=
  match v with
  | Some s => s
  | None => lit "undefined"
  end.

(** [String(v)] for a value of a payload, as template literals and property
    keys convert it, when the conversion does not throw ([printable]
    below). *)
Fixpoint value_text (env : Env) (v : json) : list N :=
  match v with
  | JNull => lit "null"
  | JBool true => lit "true"
  | JBool false => lit "false"
  | JNum t => number_text env t
  | JStr s => s
  | JArr items =>
      let fix go (l : list json) : list N :=
        match l with
        | [] => []
        | [x] => match x with JNull => [] | _ => value_text env x end
        | x :: r =>
            match x with JNull => [] | _ => value_text env x end ++ 44 :: go r
        end in
      go items
  | JObj _ => lit "[object Object]"
  end.

Definition template_text (env : Env) (v : option json) : list N :=
  match v with
  | Some x => value_text env x
  | None => lit "undefined"
  end.

(** Truthiness of a value of a payload. *)
Definition value_truthy (env : Env) (v : option json) : bool :=
  match v with
  | None | Some JNull | Some (JBool false) | Some (JStr []) => false
  | Some (JNum t) => number_truthy env t
  | Some _ => true
  end.

(** [v.k] for the property names the handlers read ([date], [time],
    [location], [displayDate]), none of which a prototype defines: reading
    it off [null] throws, off a string, number, boolean or array gives
    [undefined]. *)
Definition prop (v : json) (k : list N) : Eff (option json) :=
  match v with
  | JNull => throw TypeError
  | JObj o => ret (obj_get k o)
  | _ => ret None
  end.

(** [bookings.map], [bookings.forEach]: only an array has them. *)
Definition array_items (v : json) : Eff (list json) :=
  match v with
  | JArr items => ret items
  | _ => throw TypeError
  end.

(** [xs.forEach] and [xs.map] with a callback that can throw. *)
Fixpoint for_each {A S} (f : S -> A -> Eff S) (xs : list A) (s : S) : Eff S :=
  match xs with
  | [] => ret s
  | x :: r => s' <- f s x ;; for_each f r s'
  end.

Fixpoint map_eff {A B} (f : A -> Eff B) (xs : list A) : Eff (list B) :=
  match xs with
  | [] => ret []
  | x :: r => y <- f x ;; ys <- map_eff f r ;; ret (y :: ys)
  end.

(** *** Conversions that can throw *)

(** Whether a value of a payload converts to a primitive.  An object read by
    [JSON.parse] converts through [Object.prototype.toString] unless it has
    a member [toString] of its own, which is no function: the conversion
    then throws a [TypeError], whatever its [valueOf].  An array converts its
    elements in turn. *)
Fixpoint printable (v : json) : bool :=
  match v with
  | JArr items => forallb printable items
  | JObj o =>
      match obj_get (lit "toString") o with
      | Some _ => false
      | None => true
      end
  | _ => true
  end.

Definition convertible (v : option json) : bool :=
  match v with
  | Some x => printable x
  | None => true
  end.

(** [`${v}`], [String(v)] and [v] used as a property key. *)
Definition to_text (env : Env) (v : option json) : Eff (list N) :=
  if convertible v then ret (template_text env v) else throw TypeError.

(** [new Date(v)] *)
Definition to_date (env : Env) (v : option json) : Eff (option (Z * Z * Z * Z)) :=
  if convertible v then ret (date_of_value env v) else throw TypeError.

(** *** The decoders as the handlers run them *)

(** The counter [i] of the chunk loop is a double.  Up to [2^53] it takes
    every integer value, and the loop ends after [chunks] iterations, as
    [iterations] has it.  At [2^53] the counter sticks: [2^53 + 1] is no
    double.  A sentinel of [2^53 + 1] is itself read as [2^53], so the loop
    ends after [2^53] iterations; for every larger sentinel the test
    [i < chunks] holds for ever and the loop never ends: [None]. *)
Definition loop_count (chunks : option Z) : option Z :=
  match chunks with
  | Some z =>
      if (z <=? 2 ^ 53)%Z then Some z
      else if (z =? 2 ^ 53 + 1)%Z then Some (2 ^ 53)%Z
      else None
  | None => Some 0%Z
  end.

Definition run_chunks (meta : gmap (list N) (list N)) (chunks : option Z)
  : Eff (list N) :=
  match loop_count chunks with
  | Some n => ret (read_chunks meta 0 (Z.to_nat n))
  | None => hang
  end.

(** [JSON.parse(text)] *)
Definition parse_or_throw (text : list N) : Eff json :=
  match JSON_parse text with
  | Some v => ret v
  | None => throw SyntaxError
  end.

(** The call [extractBookings(session)]: it returns a value or never
    returns; whatever is thrown inside is caught. *)
Definition extractBookings_run (s : Session) : Eff json :=
  try_catch
    (bookingsStr <-
       (if truthy (metadata s !! lit "bookings") then
          ret (metadata s !! lit "bookings")
        else if truthy (metadata s !! lit "bookings_chunks") then
          chunks <- run_chunks (metadata s)
                      (parseInt_opt (metadata s !! lit "bookings_chunks")) ;;
          ret (Some chunks)
        else ret None) ;;
     if truthy bookingsStr then parse_or_throw (or_empty bookingsStr)
     else ret (JArr []))
    (fun _ => ret (JArr [])).

(** The decode inside the verify-payment handler: nothing catches the
    [SyntaxError] before the handler's own [catch]. *)
Definition verify_decode_run (meta : gmap (list N) (list N)) : Eff json :=
  bookingsStr <-
    (if truthy (meta !! lit "bookings") then ret (or_empty (meta !! lit "bookings"))
     else
       run_chunks meta
         (parseInt_opt (or_else (meta !! lit "bookings_chunks") (Some (lit "0"))))) ;;
  parse_or_throw bookingsStr.

(** Whether the loop of the decoders ends as [iterations] has it: it is not
    entered, or the sentinel is at most [2^53]. *)
Definition loop_ends (meta : gmap (list N) (list N)) : bool :=
  truthy (meta !! lit "bookings")
  || match parseInt_opt (meta !! lit "bookings_chunks") with
     | Some z => (z <=? 2 ^ 53)%Z
     | None => true
     end.

(* --------------------------------------------------------------------- *)
(** ** Checkout                                                            *)
(* --------------------------------------------------------------------- *)

Record CheckoutBody : Type := mkCheckoutBody {
  cart : option (list CartItem);
  customerEmail : option (list N);
  customerName : option (list N);
  company : option (list N);
  product : option (list N);
  phone : option (list N)
}.

(** One element of [lineItems]. *)
Definition lineItem (item : CartItem) : LineItem :=
  {| currency := lit "usd";
     product_name := lit "Demo at Woodlands Market - " ++ text (item_location item);
     product_description :=
       text (item_displayDate item) ++ [32; 8226; 32] ++ text (item_time item);
     unit_amount := 3000;
     quantity := 1 |}.

Definition lineItems (c : list CartItem) : list LineItem := map lineItem c.

(** [const totalAmount = cart.length * 30 * 100] *)
Definition totalAmount (c : list CartItem) : Z := (Z.of_nat (length c) * 30 * 100)%Z.

(** What the payment processor charges for a list of line items: the sum of
    unit amount times quantity. *)
Definition amount_charged (items : list LineItem) : Z :=
  foldr (fun it acc => (unit_amount it * quantity it + acc)%Z) 0%Z items.

Definition create_params (env : Env) (b : CheckoutBody) (c : list CartItem)
  : CreateParams :=
  {| line_items := lineItems c;
     success_url :=
       text (FRONTEND_URL env) ++ lit "/success?session_id={CHECKOUT_SESSION_ID}";
     cancel_url := text (FRONTEND_URL env) ++ lit "/";
     create_customer_email := customerEmail b;
     create_metadata :=
       checkout_metadata (customerName b) (company b) (product b) (phone b) c |}.

(** [POST /api/create-checkout-session] *)
Definition create_checkout_session (env : Env) (b : CheckoutBody) : Eff response :=
  try_catch
    (c <- defined (cart b) ;;
     session <- call (SessionsCreate (create_params env b c))
                     (sessions_create env (create_params env b c)) ;;
     json_ok (Checkout (session_id session) (session_url session)))
    (fun error => log ConsoleError ;;; json_status 500 (ErrorTyped error)).

(* --------------------------------------------------------------------- *)
(** ** Calendar export                                                     *)
(* --------------------------------------------------------------------- *)

(** [x + k] and [x !== k], [x === k] on a number that may be [NaN]. *)
Definition num_plus (x : option Z) (k : Z) : option Z :=
  match x with
  | Some z => Some (z + k)%Z
  | None => None
  end.

Definition num_is (x : option Z) (k : Z) : bool :=
  match x with
  | Some z => (z =? k)%Z
  | None => false
  end.

(** The hour of day [generateICS] starts an event at:
    [parseInt(time.split(':')[0])], moved by the PM and 12 AM rules.  The
    hours are integers here and doubles in the source: the two agree while
    the hour and the sums stay within [2^53], which is where the theorems
    on the hours are stated. *)
Definition hours24 (t : list N) : option Z :=
  let hours := parseInt (before_colon t) in
  let isPM := includes (lit "PM") t in
  let hours := if isPM && negb (num_is hours 12) then num_plus hours 12 else hours in
  if negb isPM && num_is hours 12 then Some 0%Z else hours.

Definition startHour (t : list N) : list N := padStart2 (String_num (hours24 t)).
Definition endHour (t : list N) : list N :=
  padStart2 (String_num (num_plus (hours24 t) 3)).

(** [`${year}${month}${day}`] of the date [new Date(item.date)] made *)
Definition ymd (parts : option (Z * Z * Z * Z)) : list N :=
  let year := (fun p => p.1.1.1) <$> parts in
  let month := (fun p => p.1.1.2) <$> parts in
  let day := (fun p => p.1.2) <$> parts in
  String_num year ++ padStart2 (String_num (num_plus month 1))
    ++ padStart2 (String_num day).

Definition nl : list N := [10].

Definition ics_header : list N :=
  lit "BEGIN:VCALENDAR" ++ nl ++ lit "VERSION:2.0" ++ nl
  ++ lit "PRODID:-//Woodlands Market//Demo Scheduling//EN" ++ nl
  ++ lit "CALSCALE:GREGORIAN" ++ nl ++ lit "METHOD:PUBLISH" ++ nl.

(** The text one booking adds to the calendar. *)
Definition ics_event (env : Env) (company product : option (list N))
    (index : nat) (day : list N) (t : list N) (loc : list N) : list N :=
  lit "BEGIN:VEVENT" ++ nl
  ++ lit "DTSTART:" ++ day ++ lit "T" ++ startHour t ++ lit "0000" ++ nl
  ++ lit "DTEND:" ++ day ++ lit "T" ++ endHour t ++ lit "0000" ++ nl
  ++ lit "SUMMARY:Product Demo - " ++ text company ++ nl
  ++ lit "LOCATION:Woodlands Market, " ++ loc ++ lit ", CA" ++ nl
  ++ lit "DESCRIPTION:Product: " ++ text product
  ++ [92; 110] ++ lit "3-hour product demonstration slot." ++ nl
  ++ lit "UID:wm-demo-" ++ String_Z (Date_now env) ++ lit "-"
  ++ String_Z (Z.of_nat index) ++ lit "@woodlandsmarket.com" ++ nl
  ++ lit "STATUS:CONFIRMED" ++ nl
  ++ lit "END:VEVENT" ++ nl.

(** The body of the [forEach] callback: [new Date(item.date)] converts the
    date, [item.time.split] needs a string, the template converts the
    location. *)
Definition ics_item (env : Env) (company product : option (list N))
    (index : nat) (item : json) : Eff (list N) :=
  d <- prop item (lit "date") ;;
  parts <- to_date env d ;;
  t <- prop item (lit "time") ;;
  match t with
  | Some (JStr s) =>
      loc <- prop item (lit "location") ;;
      place <- to_text env loc ;;
      ret (ics_event env company product index (ymd parts) s place)
  | _ => throw TypeError
  end.

Fixpoint ics_events (env : Env) (company product : option (list N))
    (index : nat) (items : list json) : Eff (list N) :=
  match items with
  | [] => ret []
  | item :: r =>
      e <- ics_item env company product index item ;;
      es <- ics_events env company product (S index) r ;;
      ret (e ++ es)
  end.

(** [generateICS(bookings, company, product)] *)
Definition generateICS (env : Env) (bookings : json)
    (company product : option (list N)) : Eff (list N) :=
  items <- array_items bookings ;;
  es <- ics_events env company product 0 items ;;
  ret (ics_header ++ es ++ lit "END:VCALENDAR").

(* --------------------------------------------------------------------- *)
(** ** Confirmation e-mail and payment verification                        *)
(* --------------------------------------------------------------------- *)

(** One row of [bookingsList]. *)
Definition email_row (env : Env) (b : json) : Eff (list N * list N * list N) :=
  d <- prop b (lit "displayDate") ;;
  day <- to_text env d ;;
  t <- prop b (lit "time") ;;
  slot <- to_text env t ;;
  l <- prop b (lit "location") ;;
  place <- to_text env l ;;
  ret (day, slot, lit "Woodlands Market - " ++ place).

(** [sendConfirmationEmail({ to, customerName, company, product, bookings,
    confirmationNumber, totalPaid })]: a failure of the send is caught and
    logged. *)
Definition sendConfirmationEmail (env : Env) (to_ : option (list N))
    (company_ product_ : option (list N)) (bookings : json)
    (confirmationNumber totalPaid : list N) : Eff unit :=
  items <- array_items bookings ;;
  rows <- map_eff (email_row env) items ;;
  icsContent <- generateICS env bookings company_ product_ ;;
  let mail :=
    {| to := to_;
       subject := lit "Demo Confirmed - " ++ confirmationNumber;
       html_fields := [confirmationNumber; text company_; text product_; totalPaid];
       html_rows := rows;
       attachment := Some icsContent |} in
  try_catch
    (call (EmailsSend mail) (emails_send env mail) ;;; log ConsoleLog)
    (fun _ => log ConsoleError).

(** [`WM-${Date.now().toString().slice(-8)}`] *)
Definition confirmation_number (env : Env) : list N :=
  lit "WM-" ++ slice_last 8 (String_Z (Date_now env)).

(** [GET /api/verify-payment/:sessionId] *)
Definition verify_payment (env : Env) (sessionId : list N) : Eff response :=
  try_catch
    (session <- call (SessionsRetrieve sessionId false)
                     (sessions_retrieve env sessionId false) ;;
     if bool_decide (payment_status session = lit "paid") then
       bookings <- verify_decode_run (metadata session) ;;
       sendConfirmationEmail env (customer_email session)
         (metadata session !! lit "company") (metadata session !! lit "product")
         bookings (confirmation_number env)
         (toFixed2 env [amount_total session]) ;;;
       json_ok (Verified (confirmation_number env) bookings (customer_email session))
     else json_status 400 (Error (lit "Payment not completed")))
    (fun error => log ConsoleError ;;; json_status 500 (ErrorOf error)).

(* --------------------------------------------------------------------- *)
(** ** Admin endpoints                                                     *)
(* --------------------------------------------------------------------- *)

Record AdminRequest : Type := mkAdminRequest {
  header_password : option (list N);
  query_password : option (list N);
  body_password : option json
}.

(** [adminAuth(req, res, next)] *)
Definition adminAuth (env : Env) (req : AdminRequest) (next : Eff response)
  : Eff response :=
  let password := or_else (header_password req) (query_password req) in
  if negb (truthy (ADMIN_PASSWORD env)) then
    json_status 500 (Error (lit "ADMIN_PASSWORD not configured"))
  else if negb (bool_decide (password = ADMIN_PASSWORD env)) then
    json_status 401 (Error (lit "Invalid admin password"))
  else next.

(** [s.payment_intent?.charges?.data?.[0]] *)
Definition first_charge (s : Session) : option Charge :=
  match payment_intent s with
  | PI_object _ (Some (c :: _)) => Some c
  | _ => None
  end.

(** [s.payment_intent?.charges?.data?.[0]?.refunded || false] *)
Definition is_refunded (s : Session) : bool :=
  match first_charge s with
  | Some c => refunded c
  | None => false
  end.

(** [s.payment_status === 'paid' && s.metadata.customerName] *)
Definition is_paid (s : Session) : bool :=
  bool_decide (payment_status s = lit "paid")
  && truthy (metadata s !! lit "customerName").

(** [s.payment_intent?.id || s.payment_intent] *)
Definition payment_intent_ref (s : Session) : option (list N) :=
  match payment_intent s with
  | PI_absent => None
  | PI_id i => Some i
  | PI_object i _ => Some i
  end.

(** [bookings.length] for a decoded payload: the length of an array or of a
    string, [undefined] (so [NaN] in a sum) for a number or a boolean, thrown
    for [null].  An object counts as having no [length]: one with a member
    of that name is outside the embedding ([plain_length] says which
    payloads are inside), and the theorems on sums of lengths leave it
    out. *)
Definition payload_length (v : json) : Eff (option Z) :=
  match v with
  | JArr items => ret (Some (Z.of_nat (length items)))
  | JStr s => ret (Some (Z.of_nat (length s)))
  | JNull => throw TypeError
  | _ => ret None
  end.

(** [x.toFixed(2)] for an integer or [NaN]. *)
Definition int_toFixed2 (x : option Z) : list N :=
  match x with
  | Some z => String_Z z ++ lit ".00"
  | None => lit "NaN"
  end.

Definition booking_record (env : Env) (s : Session) : Eff BookingRecord :=
  bookings <- extractBookings_run s ;;
  ret
  {| br_id := session_id s;
     br_paymentIntentId := payment_intent_ref s;
     br_customerName := metadata s !! lit "customerName";
     br_email := customer_email s;
     br_company := metadata s !! lit "company";
     br_product := metadata s !! lit "product";
     br_phone := metadata s !! lit "phone";
     br_bookings := bookings;
     br_totalAmount := toFixed2 env [amount_total s];
     br_createdAt := toISOString env (created s * 1000);
     br_status := if is_refunded s then lit "refunded" else lit "confirmed";
     br_refundAmount :=
       toFixed2 env [match first_charge s with
                     | Some c => amount_refunded c
                     | None => 0%Z
                     end] |}.

(** [GET /api/admin/bookings], after [adminAuth] *)
Definition admin_bookings (env : Env) : Eff response :=
  let params := mkListParams 100 true None None in
  try_catch
    (sessions <- call (SessionsList params) (sessions_list env params) ;;
     records <- map_eff (booking_record env) (filter is_paid (data sessions)) ;;
     json_ok (Bookings records))
    (fun error => log ConsoleError ;;; json_status 500 (ErrorOf error)).

(** [new Date()]: the local year and month of the clock. *)
Definition now_year (env : Env) : option Z :=
  (fun p => p.1.1.1) <$> date_of_ms env (Date_now env).
Definition now_month (env : Env) : option Z :=
  (fun p => p.1.1.2) <$> date_of_ms env (Date_now env).

(** The loop of the stats handler over the paid sessions. *)
Definition stats_step (acc : option Z * list Z) (s : Session)
  : Eff (option Z * list Z) :=
  bookings <- extractBookings_run s ;;
  n <- payload_length bookings ;;
  ret (js_add acc.1 n, acc.2 ++ [amount_total s]).

(** [GET /api/admin/stats], after [adminAuth] *)
Definition admin_stats (env : Env) : Eff response :=
  try_catch
    (let startTimestamp :=
       match now_year env, now_month env with
       | Some y, Some m => Some (month_start_ms env y m / 1000)%Z
       | _, _ => None
       end in
     let params := mkListParams 100 false None startTimestamp in
     sessions <- call (SessionsList params) (sessions_list env params) ;;
     totals <- for_each stats_step (filter is_paid (data sessions)) (Some 0%Z, []) ;;
     let totalDemos := totals.1 in
     json_ok (Stats
       {| thisMonthDemos := totalDemos;
          totalRevenue := toFixed2 env totals.2;
          marketShare := int_toFixed2 ((fun d => d * 20)%Z <$> totalDemos);
          grassrootsShare := int_toFixed2 ((fun d => d * 10)%Z <$> totalDemos);
          demoFee := lit "30.00";
          marketPerDemo := lit "20.00";
          grassrootsPerDemo := lit "10.00" |}))
    (fun error => log ConsoleError ;;; json_status 500 (ErrorOf error)).

(** *** Analytics *)

(** The pagination loop of the analytics handler:
    [while (hasMore && allSessions.length < 300)].  A page that is empty and
    says there is more leaves the loop where it was: the same call is made
    again, for ever.  The run is then [Hangs], and its trace stops at the
    first of these calls, the ones that follow being repetitions of it.
    Every other page makes the list longer, so 301 units of fuel are never
    used up. *)
Fixpoint fetch_loop (env : Env) (fuel : nat) (allSessions : list Session)
    (startingAfter : option (list N)) : Eff (list Session) :=
  match fuel with
  | O => hang
  | S f =>
      if (length allSessions <? 300)%nat then
        let params :=
          mkListParams 100 true
            (if truthy startingAfter then startingAfter else None) None in
        batch <- call (SessionsList params) (sessions_list env params) ;;
        match last (data batch) with
        | Some s =>
            if has_more batch
            then fetch_loop env f (allSessions ++ data batch) (Some (session_id s))
            else ret (allSessions ++ data batch)
        | None =>
            if has_more batch then hang else ret (allSessions ++ data batch)
        end
      else ret allSessions
  end.

Definition fetch_all (env : Env) : Eff (list Session) := fetch_loop env 301 [] None.

Definition paid (allSessions : list Session) : list Session :=
  filter is_paid allSessions.

Definition notRefunded (allSessions : list Session) : list Session :=
  filter (fun s => negb (is_refunded s)) (paid allSessions).

(** [year + '-' + String(month + 1).padStart(2, '0')] *)
Definition month_key (year month : option Z) : list N :=
  String_num year ++ lit "-" ++ padStart2 (String_num (num_plus month 1)).

(** The month [i] months before the current one:
    [new Date(now.getFullYear(), now.getMonth() - i, 1)], for a year past
    99 (the constructor reads a smaller one as 19xx). *)
Definition months_back (env : Env) (i : Z) : list N :=
  match now_year env, now_month env with
  | Some y, Some m =>
      month_key (Some (y + (m - i) / 12)%Z) (Some ((m - i) mod 12)%Z)
  | _, _ => month_key None None
  end.

Definition monthly_seed (env : Env) : gmap (list N) MonthRow :=
  foldl (fun acc i => <[months_back env i := mkMonthRow [] (Some 0%Z) (Some 0%Z) (Some 0%Z)]> acc)
        ∅ [5; 4; 3; 2; 1; 0]%Z.

Definition created_key (env : Env) (s : Session) : list N :=
  let parts := date_of_ms env (created s * 1000) in
  month_key ((fun p => p.1.1.1) <$> parts) ((fun p => p.1.1.2) <$> parts).

Definition monthly_step (env : Env) (acc : gmap (list N) MonthRow) (s : Session)
  : Eff (gmap (list N) MonthRow) :=
  match acc !! created_key env s with
  | Some row =>
      bookings <- extractBookings_run s ;;
      numDemos <- payload_length bookings ;;
      ret (<[created_key env s :=
               {| revenue := revenue row ++ [amount_total s];
                  demos := js_add (demos row) numDemos;
                  market := js_add (market row) ((fun d => d * 20)%Z <$> numDemos);
                  grassroots :=
                    js_add (grassroots row) ((fun d => d * 10)%Z <$> numDemos) |}]> acc)
  | None => ret acc
  end.

(** The names [Object.prototype] defines.  The tables of the analytics are
    plain objects: a label with one of these names is found on the prototype
    before it is counted.  Such labels are outside the embedding, which keeps
    a table as a finite map; the theorems on the tables leave them out
    ([own_key]). *)
Definition prototype_names : list (list N) :=
  [lit "constructor"; lit "__proto__"; lit "__defineGetter__";
   lit "__defineSetter__"; lit "__lookupGetter__"; lit "__lookupSetter__";
   lit "hasOwnProperty"; lit "isPrototypeOf"; lit "propertyIsEnumerable";
   lit "toLocaleString"; lit "toString"; lit "valueOf"].

Definition own_key (k : list N) : bool := negb (bool_decide (k ∈ prototype_names)).

(** [b.location || 'Unknown'] as a key of [locationData], once converted. *)
Definition location_key (env : Env) (loc : option json) : list N :=
  if value_truthy env loc then template_text env loc else lit "Unknown".

Definition location_step (env : Env) (acc : gmap (list N) LocationRow) (b : json)
  : Eff (gmap (list N) LocationRow) :=
  loc <- prop b (lit "location") ;;
  k <- (if value_truthy env loc then to_text env loc else ret (lit "Unknown")) ;;
  let row := default (mkLocationRow 0 0) (acc !! k) in
  ret (<[k := mkLocationRow (loc_demos row + 1)%Z (loc_revenue row + 30)%Z]> acc).

Definition time_step (env : Env) (acc : gmap (list N) Z) (b : json)
  : Eff (gmap (list N) Z) :=
  t <- prop b (lit "time") ;;
  k <- to_text env t ;;
  match acc !! k with
  | Some n => ret (<[k := (n + 1)%Z]> acc)
  | None => ret (<[k := 1%Z]> acc)
  end.

Definition dayNames : list (list N) :=
  [lit "Sun"; lit "Mon"; lit "Tue"; lit "Wed"; lit "Thu"; lit "Fri"; lit "Sat"].

Definition day_step (env : Env) (acc : gmap (list N) Z) (b : json)
  : Eff (gmap (list N) Z) :=
  d <- prop b (lit "date") ;;
  if value_truthy env d then
    date <- to_date env d ;;
    match date with
    | Some parts =>
        match dayNames !! Z.to_nat parts.2 with
        | Some dayName =>
            match acc !! dayName with
            | Some n => ret (<[dayName := (n + 1)%Z]> acc)
            | None => ret acc
            end
        | None => ret acc
        end
    | None => ret acc
    end
  else ret acc.

(** [sessions.forEach(s => extractBookings(s).forEach(b => ...))] *)
Definition per_booking {S} (step : S -> json -> Eff S) (acc : S) (s : Session)
  : Eff S :=
  bookings <- extractBookings_run s ;;
  items <- array_items bookings ;;
  for_each step items acc.

Definition timeData_seed : gmap (list N) Z :=
  <[lit "3:00 PM" := 0%Z]> (<[lit "11:00 AM" := 0%Z]> ∅).

Definition dayData_seed : gmap (list N) Z :=
  foldl (fun acc d => <[d := 0%Z]> acc) ∅
        [lit "Mon"; lit "Tue"; lit "Wed"; lit "Thu"; lit "Fri"; lit "Sat"; lit "Sun"].

Definition monthlyData (env : Env) (allSessions : list Session)
  : Eff (gmap (list N) MonthRow) :=
  for_each (monthly_step env) (notRefunded allSessions) (monthly_seed env).

Definition locationData (env : Env) (allSessions : list Session)
  : Eff (gmap (list N) LocationRow) :=
  for_each (per_booking (location_step env)) (notRefunded allSessions) ∅.

Definition timeData (env : Env) (allSessions : list Session)
  : Eff (gmap (list N) Z) :=
  for_each (per_booking (time_step env)) (notRefunded allSessions) timeData_seed.

Definition dayData (env : Env) (allSessions : list Session)
  : Eff (gmap (list N) Z) :=
  for_each (per_booking (day_step env)) (notRefunded allSessions) dayData_seed.

(** The key of [customers] for a session: [customer_email], [null] read as
    the property name it converts to.  A key that names a property of
    [Object.prototype] is outside the embedding, as for the other tables. *)
Definition email_key (s : Session) : list N :=
  match customer_email s with
  | Some e => e
  | None => lit "null"
  end.

(** [customers], an object used as a map, in the order its keys were
    added. *)
Fixpoint cust_get (k : list N) (cs : list (list N * CustomerRow))
  : option CustomerRow :=
  match cs with
  | [] => None
  | (k', r) :: rest => if decide (k' = k) then Some r else cust_get k rest
  end.

Fixpoint cust_set (k : list N) (r : CustomerRow) (cs : list (list N * CustomerRow))
  : list (list N * CustomerRow) :=
  match cs with
  | [] => [(k, r)]
  | (k', r') :: rest =>
      if decide (k' = k) then (k, r) :: rest else (k', r') :: cust_set k r rest
  end.

(** [products.add(p)] on a [Set] *)
Definition set_add (p : list N) (ps : list (list N)) : list (list N) :=
  if bool_decide (p ∈ ps) then ps else ps ++ [p].

(** The body of [paid.forEach(s => { ... })] of the customer insights. *)
Definition customer_step (cs : list (list N * CustomerRow)) (s : Session)
  : Eff (list (list N * CustomerRow)) :=
  let email := email_key s in
  let row :=
    match cust_get email cs with
    | Some r => r
    | None =>
        {| cust_name := metadata s !! lit "customerName";
           cust_email := customer_email s;
           cust_company := metadata s !! lit "company";
           cust_bookings := Some 0%Z;
           cust_totalSpent := [];
           cust_firstBooking := created s;
           cust_lastBooking := created s;
           cust_products := [] |}
    end in
  bookings <- extractBookings_run s ;;
  n <- payload_length bookings ;;
  ret (cust_set email
         {| cust_name := metadata s !! lit "customerName";
            cust_email := cust_email row;
            cust_company := metadata s !! lit "company";
            cust_bookings := js_add (cust_bookings row) n;
            cust_totalSpent :=
              if is_refunded s then cust_totalSpent row
              else cust_totalSpent row ++ [amount_total s];
            cust_firstBooking :=
              if (created s <? cust_firstBooking row)%Z then created s
              else cust_firstBooking row;
            cust_lastBooking :=
              if (created s >? cust_lastBooking row)%Z then created s
              else cust_lastBooking row;
            cust_products :=
              if truthy (metadata s !! lit "product")
              then set_add (or_empty (metadata s !! lit "product")) (cust_products row)
              else cust_products row |}
         cs).

Definition customerData (allSessions : list Session)
  : Eff (list (list N * CustomerRow)) :=
  for_each customer_step (paid allSessions) [].




(** [c.bookings > 1] *)
Definition more_than_one (x : option Z) : bool :=
  match x with
  | Some z => (1 <? z)%Z
  | None => false
  end.

Definition customer_out (env : Env) (c : CustomerRow) : CustomerOut :=
  {| out_row := c;
     out_firstBooking := toISOString env (cust_firstBooking c * 1000);
     out_lastBooking := toISOString env (cust_lastBooking c * 1000);
     isRepeat := more_than_one (cust_bookings c) |}.

(** [sort((a, b) => b.bookings - a.bookings)], stable: an entry goes before
    the first one that has strictly fewer bookings.  A difference that is
    [NaN] counts as zero. *)
Definition goes_before (a b : CustomerOut) : bool :=
  match cust_bookings (out_row a), cust_bookings (out_row b) with
  | Some x, Some y => (y <? x)%Z
  | _, _ => false
  end.

Fixpoint insert_sorted (x : CustomerOut) (l : list CustomerOut) : list CustomerOut :=
  match l with
  | [] => [x]
  | y :: r => if goes_before x y then x :: y :: r else y :: insert_sorted x r
  end.

Definition sort_by_bookings (l : list CustomerOut) : list CustomerOut :=
  foldl (fun acc x => insert_sorted x acc) [] l.

(** The aggregates of the analytics handler, from the fetched sessions. *)
Definition analytics_of (env : Env) (allSessions : list Session) : Eff Analytics :=
  m <- monthlyData env allSessions ;;
  l <- locationData env allSessions ;;
  t <- timeData env allSessions ;;
  d <- dayData env allSessions ;;
  cs <- customerData allSessions ;;
  let customerList := sort_by_bookings (map (fun kc => customer_out env kc.2) cs) in
  ret {| monthly := m;
         locations := l;
         timeSlots := t;
         popularDays := d;
         customers := customerList;
         totalCustomers := length customerList;
         repeatCustomers := length (filter (fun c => isRepeat c = true) customerList) |}.

(** [GET /api/admin/analytics], after [adminAuth] *)
Definition admin_analytics (env : Env) : Eff response :=
  try_catch
    (allSessions <- fetch_all env ;;
     a <- analytics_of env allSessions ;;
     json_ok (AnalyticsOf a))
    (fun error => log ConsoleError ;;; json_status 500 (ErrorOf error)).

(** *** Refund *)

Definition cancellation_email (env : Env) (session : Session) (refund : Refund)
  : Email :=
  {| to := customer_email session;
     subject := lit "Demo Booking Cancelled - Refund Issued";
     html_fields :=
       [text (metadata session !! lit "company");
        toFixed2 env [amount_total session];
        refund_id refund];
     html_rows := [];
     attachment := None |}.

(** Truthiness of [session.payment_intent]: an object, or an identifier that
    is not the empty string. *)
Definition has_payment_intent (s : Session) : bool :=
  match payment_intent s with
  | PI_absent => false
  | PI_id i => truthy (Some i)
  | PI_object _ _ => true
  end.

(** [POST /api/admin/bookings/:sessionId/refund], after [adminAuth] *)
Definition admin_refund (env : Env) (sessionId : list N) : Eff response :=
  try_catch
    (session <- call (SessionsRetrieve sessionId true)
                     (sessions_retrieve env sessionId true) ;;
     if negb (has_payment_intent session) then
       json_status 400 (Error (lit "No payment intent found for this session"))
     else
       let paymentIntentId := default [] (payment_intent_ref session) in
       if is_refunded session then
         json_status 400 (Error (lit "This booking has already been refunded"))
       else
         refund <- call (RefundsCreate paymentIntentId)
                        (refunds_create env paymentIntentId) ;;
         try_catch
           (extractBookings_run session ;;;
            call (EmailsSend (cancellation_email env session refund))
                 (emails_send env (cancellation_email env session refund)))
           (fun _ => log ConsoleError) ;;;
         json_ok (Refunded (refund_id refund) (toFixed2 env [refund_amount refund])))
    (fun error => log ConsoleError ;;; json_status 500 (ErrorOf error)).

(** *** Password check *)

(** [password === process.env.ADMIN_PASSWORD]: the body's [password] is any
    value or [undefined], the configured secret a string or [undefined]. *)
Definition same_password (password : option json) (secret : option (list N)) : bool :=
  match password, secret with
  | None, None => true
  | Some (JStr p), Some s => bool_decide (p = s)
  | _, _ => false
  end.

(** [POST /api/admin/auth] *)
Definition admin_auth (env : Env) (req : AdminRequest) : Eff response :=
  if same_password (body_password req) (ADMIN_PASSWORD env) then json_ok Success
  else json_status 401 (Error (lit "Invalid password")).

(** *** The admin routes *)

Inductive AdminRoute : Type :=
  | GET_bookings
  | GET_stats
  | GET_analytics
  | POST_refund (sessionId : list N)
  | POST_auth.

Definition admin_endpoint (env : Env) (route : AdminRoute) (req : AdminRequest)
  : Eff response :=
  match route with
  | GET_bookings => adminAuth env req (admin_bookings env)
  | GET_stats => adminAuth env req (admin_stats env)
  | GET_analytics => adminAuth env req (admin_analytics env)
  | POST_refund sessionId => adminAuth env req (admin_refund env sessionId)
  | POST_auth => admin_auth env req
  end.

(** The gate of a route alone: the handler behind [adminAuth] replaced by
    one that only answers with success. *)
Definition admin_gate (env : Env) (route : AdminRoute) (req : AdminRequest)
  : Eff response :=
  match route with
  | POST_auth => admin_auth env req
  | _ => adminAuth env req (json_ok Success)
  end.

(** A request is authenticated when its route's gate lets it through. *)
Definition authenticated (env : Env) (route : AdminRoute) (req : AdminRequest)
  : Prop :=
  result (admin_gate env route req) = Returns (mkResponse 200 Success).

(* --------------------------------------------------------------------- *)
(** ** Sample data                                                         *)
(* --------------------------------------------------------------------- *)

(** A slot on the [n]-th of March at the Kentfield store. *)
Definition sample_item (n : N) : CartItem :=
  {| item_date := Some (lit "2026-03-0" ++ [48 + n]);
     item_dateStr := None;
     item_time := Some (lit "11:00 AM");
     item_location := Some (lit "Kentfield");
     item_displayDate := Some (lit "Tuesday, March 3") |}.

Definition sample_cart (n : nat) : list CartItem :=
  map (fun i => sample_item (N.of_nat i)) (seq 0 n).

Definition sample_details : gmap (list N) (list N) :=
  <[lit "customerName" := lit "Ada"]> (<[lit "company" := lit "Oat Co"]> ∅).

Definition sample_session (status : list N) (meta : gmap (list N) (list N))
    (pi : PaymentIntent) : Session :=
  {| session_id := lit "cs_test_1";
     session_url := None;
     payment_status := status;
     customer_email := Some (lit "ada@example.com");
     amount_total := 3000;
     created := 1770000000;
     metadata := meta;
     payment_intent := pi |}.

(** An environment whose payment processor knows one session and whose
    admin secret is as given. *)
Definition sample_env (secret : option (list N)) (s : Session) : Env :=
  {| ADMIN_PASSWORD := secret;
     FRONTEND_URL := Some (lit "https://demo.example");
     sessions_create := fun _ => inr s;
     sessions_retrieve := fun _ _ => inr s;
     sessions_list := fun _ => inr (mkBatch [s] false);
     refunds_create := fun _ => inr (mkRefund (lit "re_1") 3000);
     emails_send := fun _ => inr tt;
     Date_now := 1770000000000;
     toFixed2 := fun _ => lit "30.00";
     number_text := fun t => t;
     number_truthy := fun _ => true;
     date_of_value := fun _ => Some (2026, 2, 3, 2)%Z;
     date_of_ms := fun _ => Some (2026, 1, 2, 1)%Z;
     month_start_ms := fun _ _ => 1769904000000%Z;
     toISOString := fun _ => lit "2026-02-02T02:40:00.000Z" |}.

(** The session of a checkout of [n] sample slots, paid and unpaid. *)
Definition sample_checkout (n : nat) : Session :=
  sample_session (lit "paid")
    (checkout_metadata None None None None (sample_cart n)) PI_absent.

Definition sample_unpaid : Session :=
  sample_session (lit "unpaid")
    (checkout_metadata None None None None (sample_cart 1)) PI_absent.

(** A paid session with the customer's details and no booking payload. *)
Definition sample_bare : Session :=
  sample_session (lit "paid") sample_details PI_absent.

(** A paid session whose charge was refunded, and one whose charge was
    not. *)
Definition sample_charged (was_refunded : bool) : Session :=
  sample_session (lit "paid") sample_details
    (PI_object (lit "pi_1")
       (Some [mkCharge was_refunded (if was_refunded then 3000 else 0)%Z])).

(** Metadata that carries an empty list under [bookings] and, under the
    chunk keys, a list of one slot. *)
Definition both_forms : gmap (list N) (list N) :=
  <[lit "bookings" := lit "[]"]>
    (<[lit "bookings_chunks" := lit "1"]>
       (<[lit "bookings_0" := bookings_blob (sample_cart 1)]> ∅)).

(** A paid session with one slot, and a later one of the same customer,
    with two slots, that was refunded. *)
Definition sample_kept : Session :=
  sample_session (lit "paid")
    (store_bookings (bookings_blob (sample_cart 1)) sample_details)
    (PI_object (lit "pi_1") (Some [mkCharge false 0])).

Definition sample_refunded : Session :=
  sample_session (lit "paid")
    (store_bookings (bookings_blob (sample_cart 2)) sample_details)
    (PI_object (lit "pi_2") (Some [mkCharge true 6000])).


(** An environment whose collaborators reject every call with [e]. *)
Definition sample_env_down (secret : option (list N)) (e : exn) : Env :=
  {| ADMIN_PASSWORD := secret;
     FRONTEND_URL := Some (lit "https://demo.example");
     sessions_create := fun _ => inl e;
     sessions_retrieve := fun _ _ => inl e;
     sessions_list := fun _ => inl e;
     refunds_create := fun _ => inl e;
     emails_send := fun _ => inl e;
     Date_now := 1770000000000;
     toFixed2 := fun _ => lit "30.00";
     number_text := fun t => t;
     number_truthy := fun _ => true;
     date_of_value := fun _ => Some (2026, 2, 3, 2)%Z;
     date_of_ms := fun _ => Some (2026, 1, 2, 1)%Z;
     month_start_ms := fun _ _ => 1769904000000%Z;
     toISOString := fun _ => lit "2026-02-02T02:40:00.000Z" |}.

(** The environment of [sample_env] with a mail provider that rejects every
    send. *)
Definition sample_env_no_mail (secret : option (list N)) (s : Session) (e : exn)
  : Env :=
  {| ADMIN_PASSWORD := secret;
     FRONTEND_URL := FRONTEND_URL (sample_env secret s);
     sessions_create := sessions_create (sample_env secret s);
     sessions_retrieve := sessions_retrieve (sample_env secret s);
     sessions_list := sessions_list (sample_env secret s);
     refunds_create := refunds_create (sample_env secret s);
     emails_send := fun _ => inl e;
     Date_now := Date_now (sample_env secret s);
     toFixed2 := toFixed2 (sample_env secret s);
     number_text := number_text (sample_env secret s);
     number_truthy := number_truthy (sample_env secret s);
     date_of_value := date_of_value (sample_env secret s);
     date_of_ms := date_of_ms (sample_env secret s);
     month_start_ms := month_start_ms (sample_env secret s);
     toISOString := toISOString (sample_env secret s) |}.

(** The outage the samples use. *)
Definition sample_outage : exn :=
  ApiError (Some (lit "api_connection_error")) (lit "connection lost").

(** A checkout request for [n] sample slots. *)
Definition sample_body (n : nat) : CheckoutBody :=
  {| cart := Some (sample_cart n);
     customerEmail := Some (lit "ada@example.com");
     customerName := Some (lit "Ada");
     company := Some (lit "Oat Co");
     product := Some (lit "Oat milk");
     phone := None |}.

(** [b.k] for an item of a payload that is not [null]. *)
Definition member (b : json) (k : list N) : option json :=
  match b with
  | JObj o => obj_get k o
  | _ => None
  end.

(** An item [generateICS] can render: an object whose [time] is a string
    and whose [date] and [location] convert. *)
Definition has_time (item : json) : bool :=
  match item with
  | JObj o =>
      match obj_get (lit "time") o with
      | Some (JStr _) => true
      | _ => false
      end
  | _ => false
  end.

Definition calendar_item (item : json) : bool :=
  has_time item
  && convertible (member item (lit "date"))
  && convertible (member item (lit "location")).

(** A decoded payload the calendar can be built from: an array of such
    items. *)
Definition usable_bookings (v : json) : bool :=
  match v with
  | JArr items => forallb calendar_item items
  | _ => false
  end.

(** An item the rows of the e-mail can show: not [null], with a
    [displayDate], a [time] and a [location] that convert. *)
Definition row_item (item : json) : bool :=
  match item with
  | JNull => false
  | _ =>
      convertible (member item (lit "displayDate"))
      && convertible (member item (lit "time"))
      && convertible (member item (lit "location"))
  end.

(** An item, and a payload, the whole confirmation can be built from: the
    rows of the e-mail convert [displayDate] as well. *)
Definition mail_item (item : json) : bool :=
  calendar_item item && convertible (member item (lit "displayDate")).

Definition mail_bookings (v : json) : bool :=
  match v with
  | JArr items => forallb mail_item items
  | _ => false
  end.

(** The paid session of a checkout whose only slot came without a [time]. *)
Definition sample_no_time : Session :=
  sample_session (lit "paid")
    (checkout_metadata None None None None
       [mkCartItem (Some (lit "2026-03-03")) None None (Some (lit "Kentfield"))
          (Some (lit "Tuesday, March 3"))])
    PI_absent.

(** The parameters of the one list call of the stats handler: the sessions
    created since the first moment of the current month. *)
Definition stats_params (env : Env) : ListParams :=
  mkListParams 100 false None
    match now_year env, now_month env with
    | Some y, Some m => Some (month_start_ms env y m / 1000)%Z
    | _, _ => None
    end.

(** The number of slots of a session whose payload is an array. *)
Definition slot_count (s : Session) : Z :=
  match extractBookings s with
  | JArr items => Z.of_nat (length items)
  | _ => 0%Z
  end.

Definition total_slots (l : list Session) : Z :=
  foldr (fun s acc => (slot_count s + acc)%Z) 0%Z l.

(** A session whose decode ends, with a list. *)
Definition has_array (s : Session) : Prop :=
  loop_ends (metadata s) = true /\ exists items, extractBookings s = JArr items.

(** The sessions the revenue-bearing aggregates keep, by their fields. *)
Definition revenue_bearing (s : Session) : bool :=
  bool_decide (payment_status s = lit "paid")
  && truthy (metadata s !! lit "customerName")
  && negb (is_refunded s).

(** Where the embedding of the aggregates follows the source: a session
    whose decode ends ([decodes]), whose payload has no [length] member of
    its own ([plain_length]), whose slots are counted under labels that
    [Object.prototype] does not define ([plain_locations], [plain_times]),
    and whose e-mail key is no such name either ([plain_email]). *)
Definition decodes (s : Session) : bool := loop_ends (metadata s).

Definition plain_length (s : Session) : bool :=
  match extractBookings s with
  | JObj o =>
      match obj_get (lit "length") o with
      | Some _ => false
      | None => true
      end
  | _ => true
  end.

Definition location_label (env : Env) (b : json) : list N :=
  location_key env (member b (lit "location")).


Definition plain_locations (env : Env) (s : Session) : bool :=
  match extractBookings s with
  | JArr items => forallb (fun b => own_key (location_label env b)) items
  | _ => true
  end.


Definition plain_email (s : Session) : bool := own_key (email_key s).

(** What the customer insights need of a session. *)
Definition customer_covered (s : Session) : bool :=
  decodes s && plain_length s && plain_email s.


(** A paid session with no [bookings] and a sentinel past what the loop
    counter reaches. *)
Definition sample_unbounded : Session :=
  sample_session (lit "paid")
    (<[lit "bookings_chunks" := lit "10000000000000000"]> sample_details)
    (PI_object (lit "pi_4") (Some [mkCharge false 0])).

(** A paid session whose payload is cut off in the middle. *)
Definition sample_malformed : Session :=
  sample_session (lit "paid")
    (<[lit "bookings" := lit "[{"]> sample_details) PI_absent.


(** A paid session whose payload is the text of the JSON value [null]. *)
Definition sample_null_payload : Session :=
  sample_session (lit "paid")
    (<[lit "bookings" := lit "null"]> sample_details) PI_absent.

(** A computation that makes no call and either returns a state that
    satisfies [P] or throws a [TypeError]. *)
Definition steps_to {S} (P : S -> Prop) (m : Eff S) : Prop :=
  exists o, m = ([], o)
            /\ match o with
               | Returns s => P s
               | Throws e => e = TypeError
               | Hangs => False
               end.

(** The sum of the counters of a table, and of the demos of the location
    breakdown. *)
Definition total_count (m : gmap (list N) Z) : Z :=
  map_fold (fun _ n acc => (n + acc)%Z) 0%Z m.

Definition total_demos (m : gmap (list N) LocationRow) : Z :=
  map_fold (fun _ r acc => (loc_demos r + acc)%Z) 0%Z m.

(** What the location breakdown keeps true while [n] slots have been
    counted. *)
Definition location_inv (n : Z) (m : gmap (list N) LocationRow) : Prop :=
  (forall k row, m !! k = Some row ->
     loc_revenue row = (30 * loc_demos row)%Z /\ (1 <= loc_demos row)%Z)
  /\ total_demos m = n.

(** What the time-slot counters keep true while [n] slots have been
    counted, and the day-of-week counters while [n] slots have been seen. *)
Definition time_inv (n : Z) (m : gmap (list N) Z) : Prop :=
  (forall k c, m !! k = Some c -> (0 <= c)%Z)
  /\ total_count m = n
  /\ is_Some (m !! lit "11:00 AM") /\ is_Some (m !! lit "3:00 PM").

Definition day_inv (n : Z) (m : gmap (list N) Z) : Prop :=
  (forall k c, m !! k = Some c -> (0 <= c)%Z)
  /\ (total_count m <= n)%Z
  /\ forall k, is_Some (m !! k) <-> k ∈ dayNames.

(** The six months of the monthly report, oldest first. *)
Definition report_months (env : Env) : list (list N) :=
  map (months_back env) [5; 4; 3; 2; 1; 0]%Z.

Definition monthly_inv (env : Env) (m : gmap (list N) MonthRow) : Prop :=
  (forall k, is_Some (m !! k) <-> k ∈ report_months env)
  /\ forall k row, m !! k = Some row ->
       market row = (fun d => d * 20)%Z <$> demos row
       /\ grassroots row = (fun d => d * 10)%Z <$> demos row.

(** What [customers] keeps true once the paid sessions [seen] have been
    folded in: one entry per e-mail key, in the order the keys first came;
    every session of a customer lies between the customer's first and last
    booking; the name and the company are those of the customer's last
    session in the order of the list. *)
Definition customers_inv (seen : list Session) (cs : list (list N * CustomerRow))
  : Prop :=
  NoDup cs.*1
  /\ (forall k, k ∈ cs.*1 <-> k ∈ map email_key seen)
  /\ (forall s r, s ∈ seen -> cust_get (email_key s) cs = Some r ->
        (cust_firstBooking r <= created s <= cust_lastBooking r)%Z)
  /\ (forall l1 s l2, seen = l1 ++ s :: l2 ->
        Forall (fun s' => email_key s' <> email_key s) l2 ->
        exists r, cust_get (email_key s) cs = Some r
                  /\ cust_name r = metadata s !! lit "customerName"
                  /\ cust_company r = metadata s !! lit "company").

(** The booking count of an entry of the customer list, when it is a
    number. *)
Definition has_count (c : CustomerOut) : Prop :=
  is_Some (cust_bookings (out_row c)).

Definition count_of (c : CustomerOut) : Z :=
  default 0%Z (cust_bookings (out_row c)).

(** An entry of the customer list with the given name and booking count. *)
Definition sample_out (name : list N) (n : Z) : CustomerOut :=
  {| out_row :=
       {| cust_name := Some name;
          cust_email := Some name;
          cust_company := None;
          cust_bookings := Some n;
          cust_totalSpent := [];
          cust_firstBooking := 0;
          cust_lastBooking := 0;
          cust_products := [] |};
     out_firstBooking := [];
     out_lastBooking := [];
     isRepeat := (1 <? n)%Z |}.

(** A list in which no entry is followed, anywhere later, by one with more
    bookings. *)
Fixpoint descending (l : list CustomerOut) : Prop :=
  match l with
  | [] => True
  | a :: r => Forall (fun b => (count_of b <= count_of a)%Z) r /\ descending r
  end.

(** A call of the pagination loop: a page of up to 100 sessions with their
    payment intents expanded, after the given session. *)
Definition page_params (after : option (list N)) : ListParams :=
  mkListParams 100 true after None.

Definition is_list_call (ev : event) : Prop :=
  exists after, ev = SessionsList (page_params after).

(** A processor whose pages make progress (a page that says there is more
    carries a session) and one whose pages respect the limit asked for. *)
Definition pages_progress (env : Env) : Prop :=
  forall after b,
    sessions_list env (page_params after) = inr b ->
    has_more b = true -> data b <> [].

Definition pages_within_limit (env : Env) : Prop :=
  forall after b,
    sessions_list env (page_params after) = inr b ->
    (length (data b) <= 100)%nat.

(** A processor on whose pages the decode of every session ends. *)
Definition pages_decode (env : Env) : Prop :=
  forall after b,
    sessions_list env (page_params after) = inr b ->
    forallb decodes (data b) = true.

(** The environment of [sample_env] with a processor that lists two pages:
    [p1] and more to come, then, after a session, [p2] and no more. *)
Definition sample_env_pages (p1 p2 : list Session) : Env :=
  let s1 := sample_bare in
  {| ADMIN_PASSWORD := None;
     FRONTEND_URL := FRONTEND_URL (sample_env None s1);
     sessions_create := sessions_create (sample_env None s1);
     sessions_retrieve := sessions_retrieve (sample_env None s1);
     sessions_list := fun p =>
       match starting_after p with
       | None => inr (mkBatch p1 true)
       | Some _ => inr (mkBatch p2 false)
       end;
     refunds_create := refunds_create (sample_env None s1);
     emails_send := emails_send (sample_env None s1);
     Date_now := Date_now (sample_env None s1);
     toFixed2 := toFixed2 (sample_env None s1);
     number_text := number_text (sample_env None s1);
     number_truthy := number_truthy (sample_env None s1);
     date_of_value := date_of_value (sample_env None s1);
     date_of_ms := date_of_ms (sample_env None s1);
     month_start_ms := month_start_ms (sample_env None s1);
     toISOString := toISOString (sample_env None s1) |}.

(** A paid session of the sample customer under the name [name], created at
    [at_]. *)
Definition sample_named (name : list N) (at_ : Z) : Session :=
  {| session_id := lit "cs_test_1";
     session_url := None;
     payment_status := lit "paid";
     customer_email := Some (lit "ada@example.com");
     amount_total := 3000;
     created := at_;
     metadata := <[lit "customerName" := name]> ∅;
     payment_intent := PI_absent |}.

(* ===================================================================== *)
(** * Part II: properties                                                  *)
(* ===================================================================== *)

(* --------------------------------------------------------------------- *)
(** ** Decimal digits and [parseInt]                                       *)
(* --------------------------------------------------------------------- *)

Section Digits.


Lemma mod10_lt n : n mod 10 < 10.
Proof. apply N.mod_upper_bound. lia. Qed.

Ltac name_mod10 n :=
  let d := fresh "d" in
  pose proof (mod10_lt n); set (d := n mod 10) in *; clearbody d.

Lemma digit_val_decimal radix c :
  is_decimal c -> digit_val radix c = Some (c - 48).
Proof.
  intros [Hlo Hhi]. unfold digit_val.
  apply N.leb_le in Hlo. apply N.leb_le in Hhi. by rewrite Hlo, Hhi.
Qed.

Lemma digits_fuel_decimal fuel n : Forall is_decimal (digits_fuel fuel n).
Proof.
  revert n. induction fuel as [|f IH]; intros n; simpl.
  - constructor; [|constructor]. unfold is_decimal. name_mod10 n. lia.
  - destruct (N.ltb_spec n 10).
    + constructor; [|constructor]. unfold is_decimal. lia.
    + apply Forall_app. split; [apply IH|].
      constructor; [|constructor]. unfold is_decimal. name_mod10 n. lia.
Qed.

Lemma digits_fuel_nonempty fuel n : digits_fuel fuel n <> [].
Proof.
  destruct fuel; simpl; [done|].
  destruct (n <? 10); [done|]. intros H. by apply app_eq_nil in H as [_ ?].
Qed.

Lemma read_digits_fuel fuel n rest :
  n < 2 ^ N.of_nat (S fuel) ->
  read_digits 10 0 (digits_fuel fuel n ++ rest) = read_digits 10 n rest.
Proof.
  revert n rest. induction fuel as [|f IH]; intros n rest Hn.
  - change (2 ^ N.of_nat 1) with 2 in Hn. simpl.
    rewrite digit_val_decimal by (unfold is_decimal; name_mod10 n; lia).
    f_equal. rewrite N.mod_small by lia. lia.
  - cbn [digits_fuel]. destruct (N.ltb_spec n 10) as [Hlt|Hge].
    + simpl. rewrite digit_val_decimal by (unfold is_decimal; lia). f_equal. lia.
    + rewrite <- app_assoc. rewrite IH.
      * simpl. rewrite digit_val_decimal by (unfold is_decimal; name_mod10 n; lia).
        f_equal. zify. Z.to_euclidean_division_equations. lia.
      * replace (N.of_nat (S (S f))) with (N.succ (N.of_nat (S f))) in Hn by lia.
        rewrite N.pow_succ_r' in Hn.
        apply N.Div0.div_lt_upper_bound. lia.
Qed.

Lemma digits_bound n : n < 2 ^ N.of_nat (S (N.to_nat (N.log2 n))).
Proof.
  replace (N.of_nat (S (N.to_nat (N.log2 n)))) with (N.succ (N.log2 n)) by lia.
  destruct (N.eq_dec n 0) as [->|Hn]; [done|].
  apply N.log2_spec. lia.
Qed.

Lemma read_digits_digits n rest :
  read_digits 10 0 (digits n ++ rest) = read_digits 10 n rest.
Proof. apply read_digits_fuel, digits_bound. Qed.

Lemma digits_decimal n : Forall is_decimal (digits n).
Proof. apply digits_fuel_decimal. Qed.

Lemma digits_nonempty n : digits n <> [].
Proof. apply digits_fuel_nonempty. Qed.

Lemma String_Z_of_nat n : String_Z (Z.of_nat n) = digits (N.of_nat n).
Proof.
  unfold String_Z. destruct (Z.of_nat n) eqn:E; try lia.
  - by replace (N.of_nat n) with 0 by lia.
  - f_equal. lia.
Qed.

Lemma decimal_not_space c : is_decimal c -> is_space c = false.
Proof.
  intros [Hlo Hhi]. unfold is_space.
  repeat match goal with
         | |- context [?a =? ?b] => destruct (N.eqb_spec a b); [lia|]
         end.
  simpl. destruct (N.leb_spec 8192 c); [lia|done].
Qed.

(** [parseInt(String(n)) = n] for a natural number. *)
Lemma parseInt_String_nat n : parseInt (String_Z (Z.of_nat n)) = Some (Z.of_nat n).
Proof.
  rewrite String_Z_of_nat.
  pose proof (digits_decimal (N.of_nat n)) as Hd.
  pose proof (digits_nonempty (N.of_nat n)) as Hne.
  pose proof (read_digits_digits (N.of_nat n) []) as Hr.
  rewrite app_nil_r in Hr.
  destruct (digits (N.of_nat n)) as [|c r] eqn:E; [done|].
  apply Forall_cons in Hd as [Hc Hr'].
  unfold parseInt. cbn [trim_start]. rewrite (decimal_not_space c Hc).
  assert ((c =? 45) = false) as -> by (apply N.eqb_neq; unfold is_decimal in Hc; lia).
  assert ((c =? 43) = false) as -> by (apply N.eqb_neq; unfold is_decimal in Hc; lia).
  assert (strip_hex (c :: r) = (10, c :: r)) as ->.
  { unfold strip_hex. destruct c as [|p]; [done|].
    destruct r as [|x r2]; [by repeat (destruct p as [p|p|]; try done)|].
    apply Forall_cons in Hr' as [Hx _].
    assert ((x =? 120) = false) as Hx1 by (apply N.eqb_neq; unfold is_decimal in Hx; lia).
    assert ((x =? 88) = false) as Hx2 by (apply N.eqb_neq; unfold is_decimal in Hx; lia).
    repeat (destruct p as [p|p|]; try done); by rewrite Hx1, Hx2. }
  unfold read_int. rewrite (digit_val_decimal 10 c Hc). rewrite Hr. simpl.
  f_equal. lia.
Qed.

Lemma String_nat_inj n m :
  String_Z (Z.of_nat n) = String_Z (Z.of_nat m) -> n = m.
Proof.
  intros H. pose proof (parseInt_String_nat n) as Hn.
  rewrite H, parseInt_String_nat in Hn. injection Hn. lia.
Qed.

End Digits.

(* --------------------------------------------------------------------- *)
(** ** Metadata keys and the chunking loop                                 *)
(* --------------------------------------------------------------------- *)

Section Chunking.

Implicit Types (meta : gmap (list N) (list N)) (s blob : list N).

Lemma chunk_key_inj i j : chunk_key i = chunk_key j -> i = j.
Proof.
  unfold chunk_key. intros H. apply app_inv_head in H. by apply String_nat_inj.
Qed.

Lemma chunk_key_not_bookings i : chunk_key i <> lit "bookings".
Proof.
  unfold chunk_key. intros H. apply (f_equal length) in H.
  rewrite length_app in H. vm_compute (length (lit _)) in H. lia.
Qed.

Lemma chunk_key_not_sentinel i : chunk_key i <> lit "bookings_chunks".
Proof.
  unfold chunk_key. change (lit "bookings_chunks") with (lit "bookings_" ++ lit "chunks").
  intros H. apply app_inv_head in H. rewrite String_Z_of_nat in H.
  pose proof (digits_decimal (N.of_nat i)) as Hd. rewrite H in Hd.
  apply Forall_cons in Hd as [Hc _]. destruct Hc as [_ Hc].
  vm_compute in Hc. by apply Hc.
Qed.


Lemma chunk_key_not_detail i k : detail_key k -> chunk_key i <> k.
Proof.
  unfold chunk_key.
  intros [-> | [-> | [-> | ->]]] H; apply (f_equal (take 1)) in H;
    vm_compute in H; discriminate.
Qed.

Lemma chunk_loop_other fuel i s meta k :
  (forall j, k <> chunk_key j) -> chunk_loop fuel i s meta !! k = meta !! k.
Proof.
  intros Hk. revert i meta. induction fuel as [|f IH]; intros i meta; cbn [chunk_loop]; [done|].
  destruct (i <? length s)%nat; [|done].
  rewrite IH. rewrite lookup_insert_ne; [done|]. intros E. by apply (Hk (i / 500)%nat).
Qed.

Lemma chunk_loop_below fuel k s meta j :
  (j < k)%nat ->
  chunk_loop fuel (500 * k) s meta !! chunk_key j = meta !! chunk_key j.
Proof.
  revert k meta. induction fuel as [|f IH]; intros k meta Hj; cbn [chunk_loop]; [done|].
  destruct (500 * k <? length s)%nat; [|done].
  replace (500 * k + 500)%nat with (500 * S k)%nat by lia.
  rewrite IH by lia. rewrite lookup_insert_ne; [done|].
  intros E. apply chunk_key_inj in E.
  rewrite (Nat.mul_comm 500 k), Nat.div_mul in E by lia. lia.
Qed.

Lemma chunk_loop_chunk fuel k s meta j :
  (k <= j)%nat -> (j - k < fuel)%nat -> (500 * j < length s)%nat ->
  chunk_loop fuel (500 * k) s meta !! chunk_key j
  = Some (slice (500 * j) (500 * j + 500) s).
Proof.
  revert k meta. induction fuel as [|f IH]; intros k meta Hkj Hf Hlen; [lia|].
  cbn [chunk_loop].
  destruct (Nat.ltb_spec (500 * k) (length s)) as [_|Hge]; [|lia].
  replace (500 * k + 500)%nat with (500 * S k)%nat by lia.
  replace (500 * k / 500)%nat with k
    by (rewrite (Nat.mul_comm 500 k), Nat.div_mul; lia).
  destruct (decide (j = k)) as [->|Hne].
  - rewrite chunk_loop_below by lia. rewrite lookup_insert_eq.
    do 2 f_equal. lia.
  - apply IH; lia.
Qed.

(** Reading back [n] chunks from chunk [i] gives the next [500 * n] code
    units of the blob. *)
Lemma read_chunks_slices meta s i n :
  (forall j, (i <= j < i + n)%nat ->
             meta !! chunk_key j = Some (slice (500 * j) (500 * j + 500) s)) ->
  read_chunks meta i n = take (500 * n) (drop (500 * i) s).
Proof.
  revert i. induction n as [|n IH]; intros i H; [done|].
  cbn [read_chunks]. rewrite (H i) by lia. rewrite IH by (intros j Hj; apply H; lia).
  unfold or_empty, or_else, truthy, slice.
  replace (500 * i + 500 - 500 * i)%nat with 500%nat by lia.
  replace (500 * S i)%nat with (500 * i + 500)%nat by lia.
  replace (500 * S n)%nat with (500 + 500 * n)%nat by lia.
  rewrite <- drop_drop, <- take_take_drop.
  by destruct (take 500 (drop (500 * i) s)).
Qed.

Lemma chunk_count_spec n :
  (500 * (chunk_count n - 1) < n <= 500 * chunk_count n)%nat \/ (n = 0 /\ chunk_count n = 0)%nat.
Proof.
  unfold chunk_count.
  destruct (decide (n = 0)%nat) as [->|Hn];
    [right; split; [reflexivity | vm_compute; reflexivity] | left].
  pose proof (Nat.div_mod_eq (n + 499) 500) as E.
  pose proof (Nat.mod_upper_bound (n + 499) 500 ltac:(lia)) as B.
  lia.
Qed.

Lemma chunk_count_covers n : (n <= 500 * chunk_count n)%nat.
Proof. destruct (chunk_count_spec n) as [?|[-> ?]]; lia. Qed.

Lemma chunk_count_tight n j : (j < chunk_count n)%nat -> (500 * j < n)%nat.
Proof. destruct (chunk_count_spec n) as [?|[-> ->]]; lia. Qed.

End Chunking.

Section Encoder.

Implicit Types (meta : gmap (list N) (list N)) (blob : list N).

Lemma store_bookings_single blob meta :
  (length blob <= 500)%nat ->
  store_bookings blob meta = <[lit "bookings" := blob]> meta.
Proof.
  intros H. unfold store_bookings.
  by destruct (Nat.leb_spec (length blob) 500); [|lia].
Qed.

Lemma store_bookings_chunked blob meta :
  (500 < length blob)%nat ->
  store_bookings blob meta
  = <[lit "bookings_chunks" := String_Z (Z.of_nat (chunk_count (length blob)))]>
      (chunk_loop (length blob) 0 blob meta).
Proof.
  intros H. unfold store_bookings.
  by destruct (Nat.leb_spec (length blob) 500); [lia|].
Qed.

Lemma store_bookings_chunk blob meta i :
  (500 < length blob)%nat -> (i < chunk_count (length blob))%nat ->
  store_bookings blob meta !! chunk_key i
  = Some (slice (500 * i) (500 * i + 500) blob).
Proof.
  intros H Hi. rewrite store_bookings_chunked by done.
  rewrite lookup_insert_ne by (intros E; symmetry in E; by apply chunk_key_not_sentinel in E).
  pose proof (chunk_count_tight _ _ Hi).
  apply (chunk_loop_chunk (length blob) 0 blob meta i); lia.
Qed.

Lemma store_bookings_past blob meta i :
  (500 < length blob)%nat -> (chunk_count (length blob) <= i)%nat ->
  store_bookings blob meta !! chunk_key i = meta !! chunk_key i.
Proof.
  intros H Hi. rewrite store_bookings_chunked by done.
  rewrite lookup_insert_ne by (intros E; symmetry in E; by apply chunk_key_not_sentinel in E).
  pose proof (chunk_count_covers (length blob)) as Hc.
  generalize (length blob) at 1. intros fuel.
  assert (forall k m, (500 * k <= 500 * i)%nat -> (k <= i)%nat ->
            chunk_loop fuel (500 * k) blob m !! chunk_key i = m !! chunk_key i) as Hgen.
  { induction fuel as [|f IH]; intros k m Hk Hki; cbn [chunk_loop]; [done|].
    destruct (Nat.ltb_spec (500 * k) (length blob)); [|done].
    replace (500 * k + 500)%nat with (500 * S k)%nat by lia.
    assert (k < i)%nat by lia.
    rewrite IH by lia. rewrite lookup_insert_ne; [done|].
    intros E. apply chunk_key_inj in E.
    rewrite (Nat.mul_comm 500 k), Nat.div_mul in E by lia. lia. }
  apply (Hgen 0%nat meta); lia.
Qed.

Lemma store_bookings_sentinel blob meta :
  (500 < length blob)%nat ->
  store_bookings blob meta !! lit "bookings_chunks"
  = Some (String_Z (Z.of_nat (chunk_count (length blob)))).
Proof. intros H. rewrite store_bookings_chunked by done. apply lookup_insert_eq. Qed.

Lemma store_bookings_other blob meta k :
  (500 < length blob)%nat ->
  k <> lit "bookings_chunks" -> (forall j, k <> chunk_key j) ->
  store_bookings blob meta !! k = meta !! k.
Proof.
  intros H Hk Hj. rewrite store_bookings_chunked by done.
  rewrite lookup_insert_ne by done. by apply chunk_loop_other.
Qed.

Lemma slice_length i j blob : (length (slice i j blob) <= j - i)%nat.
Proof. unfold slice. rewrite length_take. lia. Qed.

(** Concatenating the stored chunks in index order gives the blob back. *)
Lemma read_chunks_store blob meta :
  (500 < length blob)%nat ->
  read_chunks (store_bookings blob meta) 0 (chunk_count (length blob)) = blob.
Proof.
  intros H.
  rewrite (read_chunks_slices _ blob) by (intros j Hj; apply store_bookings_chunk; [done|lia]).
  rewrite drop_0. apply take_ge, chunk_count_covers.
Qed.

(** C2.  A blob of at most 500 code units is stored whole under [bookings];
    a longer one is cut into consecutive chunks of at most 500 code units
    under [bookings_0], [bookings_1], ... and [bookings_chunks] is the decimal
    string of the number of chunks, the ceiling of the length over 500.  A
    blob of length 500 takes the first form, one of length 501 the second
    with [bookings_chunks] equal to the string 2. *)
Theorem store_bookings_chunking blob meta :
  ((length blob <= 500)%nat ->
     store_bookings blob meta = <[lit "bookings" := blob]> meta)
  /\ ((500 < length blob)%nat ->
        (forall i, (i < chunk_count (length blob))%nat ->
           store_bookings blob meta !! chunk_key i
             = Some (slice (500 * i) (500 * i + 500) blob)
           /\ (length (slice (500 * i) (500 * i + 500) blob) <= 500)%nat)
        /\ (forall i, (chunk_count (length blob) <= i)%nat ->
              store_bookings blob meta !! chunk_key i = meta !! chunk_key i)
        /\ store_bookings blob meta !! lit "bookings_chunks"
             = Some (String_Z (Z.of_nat (chunk_count (length blob))))
        /\ parseInt (String_Z (Z.of_nat (chunk_count (length blob))))
             = Some (Z.of_nat (chunk_count (length blob)))
        /\ store_bookings blob meta !! lit "bookings" = meta !! lit "bookings"
        /\ read_chunks (store_bookings blob meta) 0 (chunk_count (length blob)) = blob
        /\ (500 * (chunk_count (length blob) - 1) < length blob
            <= 500 * chunk_count (length blob))%nat)
  /\ (length blob = 500%nat ->
        store_bookings blob meta !! lit "bookings" = Some blob)
  /\ (length blob = 501%nat ->
        store_bookings blob meta !! lit "bookings_chunks" = Some (lit "2")
        /\ store_bookings blob meta !! chunk_key 0 = Some (take 500 blob)
        /\ store_bookings blob meta !! chunk_key 1 = Some (drop 500 blob)).
Proof.
  split; [apply store_bookings_single|]. split; [|split].
  - intros H. repeat split.
    + by apply store_bookings_chunk.
    + pose proof (slice_length (500 * i) (500 * i + 500) blob). lia.
    + intros i Hi. by apply store_bookings_past.
    + by apply store_bookings_sentinel.
    + apply parseInt_String_nat.
    + apply store_bookings_other; [done|done|].
      intros j E. symmetry in E. by apply chunk_key_not_bookings in E.
    + by apply read_chunks_store.
    + destruct (chunk_count_spec (length blob)) as [?|[? ?]]; lia.
    + apply chunk_count_covers.
  - intros H. rewrite store_bookings_single by lia. apply lookup_insert_eq.
  - intros H. split; [|split].
    + rewrite store_bookings_sentinel by lia. by rewrite H.
    + rewrite store_bookings_chunk by first [lia | rewrite H; vm_compute; lia].
      unfold slice. by rewrite drop_0.
    + rewrite store_bookings_chunk by first [lia | rewrite H; vm_compute; lia].
      unfold slice. f_equal. apply take_ge. rewrite length_drop. lia.
Qed.

(** The chunk keys, written out. *)
Example chunk_key_examples :
  chunk_key 0 = lit "bookings_0" /\ chunk_key 1 = lit "bookings_1"
  /\ chunk_key 10 = lit "bookings_10".
Proof. by vm_compute. Qed.

(** Blobs of 500 and of 501 code units. *)
Lemma store_bookings_chunking_witness :
  store_bookings (replicate 500 97) ∅ !! lit "bookings" = Some (replicate 500 97)
  /\ store_bookings (replicate 501 97) ∅ !! lit "bookings_chunks" = Some (lit "2")
  /\ store_bookings (replicate 501 97) ∅ !! lit "bookings_0" = Some (replicate 500 97)
  /\ store_bookings (replicate 501 97) ∅ !! lit "bookings_1" = Some [97]
  /\ store_bookings (replicate 501 97) ∅ !! lit "bookings" = None.
Proof.
  destruct (store_bookings_chunking (replicate 500 97) ∅) as (_ & _ & H500 & _).
  destruct (store_bookings_chunking (replicate 501 97) ∅) as (_ & Hlong & _ & H501).
  split; [apply H500; vm_compute; reflexivity|].
  destruct H501 as (Hs & H0 & H1); [vm_compute; reflexivity|].
  destruct Hlong as (_ & _ & _ & _ & Hb & _); [vm_compute; lia|].
  split; [exact Hs|]. split; [exact H0|]. split; [exact H1|exact Hb].
Defined.

End Encoder.

(* --------------------------------------------------------------------- *)
(** ** [JSON.parse] reads back what [JSON.stringify] writes                *)
(* --------------------------------------------------------------------- *)

Section RoundTrip.

Lemma hex_val_hex_digit n : n < 16 -> hex_val (hex_digit n) = Some n.
Proof.
  intros H. destruct n as [|p]; [done|].
  do 4 (destruct p as [p|p|]; try done); vm_compute in H; destruct p; discriminate.
Qed.

Lemma hex4_unicode_escape c rest :
  c < 65536 ->
  exists h1 h2 h3 h4,
    unicode_escape c ++ rest = 92 :: 117 :: h1 :: h2 :: h3 :: h4 :: rest
    /\ hex4 h1 h2 h3 h4 = Some c.
Proof.
  intros Hc. eexists _, _, _, _. split; [reflexivity|].
  unfold hex4.
  assert (forall x, x mod 16 < 16) as Hm by (intros; apply N.mod_upper_bound; lia).
  rewrite !hex_val_hex_digit by apply Hm.
  f_equal. zify. Z.to_euclidean_division_equations. lia.
Qed.

Lemma parse_chars_plain c r :
  (c =? 34) = false -> (c =? 92) = false -> (c <? 32) = false ->
  parse_chars (c :: r)
  = match parse_chars r with
    | Some (str, rest) => Some (c :: str, rest)
    | None => None
    end.
Proof. intros H1 H2 H3. cbn [parse_chars]. by rewrite H1, H2, H3. Qed.

Lemma parse_chars_unicode c r :
  c < 65536 ->
  parse_chars (unicode_escape c ++ r)
  = match parse_chars r with
    | Some (str, rest) => Some (c :: str, rest)
    | None => None
    end.
Proof.
  intros Hc. destruct (hex4_unicode_escape c r Hc) as (h1 & h2 & h3 & h4 & -> & Hh).
  cbn [parse_chars]. change (92 =? 34) with false. change (92 =? 92) with true.
  change (117 =? 34) with false. change (117 =? 92) with false.
  change (117 =? 47) with false. change (117 =? 98) with false.
  change (117 =? 102) with false. change (117 =? 110) with false.
  change (117 =? 114) with false. change (117 =? 116) with false.
  change (117 =? 117) with true. cbv iota. by rewrite Hh.
Qed.

Lemma surrogate_plain c :
  (55296 <=? c) = true -> (c =? 34) = false /\ (c =? 92) = false /\ (c <? 32) = false.
Proof.
  intros H. apply N.leb_le in H.
  repeat split; [apply N.eqb_neq | apply N.eqb_neq | apply N.ltb_ge]; lia.
Qed.

(** The body of a quoted string, up to its closing quote, reads back as the
    string. *)
Lemma parse_chars_quote_chars s rest :
  parse_chars (quote_chars s ++ 34 :: rest) = Some (s, rest).
Proof.
  remember (length s) as n eqn:Hn. revert s Hn rest.
  induction n as [n IH] using lt_wf_ind. intros s Hn rest.
  destruct s as [|c r]; [done|].
  assert (forall t rest', (length t < n)%nat ->
            parse_chars (quote_chars t ++ 34 :: rest') = Some (t, rest')) as IH'.
  { intros t rest' Ht. by apply (IH (length t)). }
  assert (length r < n)%nat as Hr by (simpl in Hn; lia).
  cbn [quote_chars].
  destruct (c =? 8) eqn:E8;
    [apply N.eqb_eq in E8 as ->; simpl; by rewrite IH'|].
  destruct (c =? 9) eqn:E9;
    [apply N.eqb_eq in E9 as ->; simpl; by rewrite IH'|].
  destruct (c =? 10) eqn:E10;
    [apply N.eqb_eq in E10 as ->; simpl; by rewrite IH'|].
  destruct (c =? 12) eqn:E12;
    [apply N.eqb_eq in E12 as ->; simpl; by rewrite IH'|].
  destruct (c =? 13) eqn:E13;
    [apply N.eqb_eq in E13 as ->; simpl; by rewrite IH'|].
  destruct (c =? 34) eqn:E34;
    [apply N.eqb_eq in E34 as ->; simpl; by rewrite IH'|].
  destruct (c =? 92) eqn:E92;
    [apply N.eqb_eq in E92 as ->; simpl; by rewrite IH'|].
  destruct (c <? 32) eqn:E32.
  { rewrite <- app_assoc, parse_chars_unicode by (apply N.ltb_lt in E32; lia).
    by rewrite IH'. }
  destruct (is_high_surrogate c) eqn:Ehi.
  { unfold is_high_surrogate in Ehi. apply andb_true_iff in Ehi as [Hlo Hhi].
    assert (c < 65536) as Hc by (apply N.leb_le in Hhi; lia).
    destruct r as [|d r'].
    - rewrite parse_chars_unicode by done. by simpl.
    - destruct (is_low_surrogate d) eqn:Elo.
      + unfold is_low_surrogate in Elo. apply andb_true_iff in Elo as [Hdlo _].
        assert ((55296 <=? d) = true) as Hd
          by (apply N.leb_le; apply N.leb_le in Hdlo; lia).
        destruct (surrogate_plain d Hd) as (D1 & D2 & D3).
        rewrite <- !app_comm_cons.
        rewrite parse_chars_plain by done. rewrite parse_chars_plain by done.
        rewrite IH' by (simpl in Hn; lia). done.
      + rewrite <- app_assoc, parse_chars_unicode by done. by rewrite IH'. }
  destruct (is_low_surrogate c) eqn:Elo.
  { unfold is_low_surrogate in Elo. apply andb_true_iff in Elo as [_ Hhi].
    rewrite <- app_assoc, parse_chars_unicode by (apply N.leb_le in Hhi; lia).
    by rewrite IH'. }
  rewrite <- app_comm_cons, parse_chars_plain by done. by rewrite IH'.
Qed.


Lemma reads_back_mono k k' v : (k <= k')%nat -> reads_back k v -> reads_back k' v.
Proof. intros Hk H fuel rest Hf. apply H. lia. Qed.

Lemma reads_back_string s : reads_back 1 (JStr s).
Proof.
  intros [|f] rest Hf; [lia|].
  cbn [JSON_stringify]. unfold quote. rewrite <- app_comm_cons, <- app_assoc.
  cbn [parse_value app]. unfold value_body. cbn [skip_ws]. change (is_ws 34) with false. cbv iota.
  change (34 =? 34) with true. cbv iota.
  change ([34] ++ rest) with (34 :: rest).
  by rewrite parse_chars_quote_chars.
Qed.


Lemma member_text_unfold k v rest :
  member_text (k, v) ++ rest
  = 34 :: quote_chars k ++ 34 :: 58 :: JSON_stringify v ++ rest.
Proof.
  unfold member_text, quote. cbn [fst snd].
  rewrite <- !app_comm_cons, <- !app_assoc. by rewrite <- !app_comm_cons.
Qed.

Lemma next_is_here k r : is_ws k = false -> next_is k (k :: r) = Some r.
Proof. intros H. unfold next_is. cbn [skip_ws]. by rewrite H, N.eqb_refl. Qed.

Lemma next_is_other k c r : is_ws c = false -> c <> k -> next_is k (c :: r) = None.
Proof.
  intros H Hk. unfold next_is. cbn [skip_ws]. rewrite H.
  by destruct (N.eqb_spec c k).
Qed.

(** The members of a non-empty object, up to its closing brace. *)
Lemma parse_members_join k ms rest fuel :
  ms <> [] ->
  Forall (fun kv => reads_back k (snd kv)) ms ->
  (k + length ms <= fuel)%nat ->
  parse_members fuel (join_with member_text ms ++ 125 :: rest) = Some (ms, rest).
Proof.
  revert fuel. induction ms as [|[key v] ms IH]; intros fuel Hne Hall Hf; [done|].
  apply Forall_cons in Hall as [Hv Hall]. cbn [snd] in Hv.
  destruct fuel as [|f]; [simpl in Hf; lia|].
  assert (k <= f)%nat as Hkf by (simpl in Hf; lia).
  destruct ms as [|kv2 ms'].
  - cbn [join_with]. rewrite member_text_unfold.
    cbn [parse_members]. unfold members_body. rewrite next_is_here by done.
    rewrite parse_chars_quote_chars. rewrite next_is_here by done.
    rewrite (Hv f _ Hkf).
    rewrite (next_is_other 44 125) by done. by rewrite next_is_here by done.
  - change (join_with member_text ((key, v) :: kv2 :: ms'))
      with (member_text (key, v) ++ 44 :: join_with member_text (kv2 :: ms')).
    rewrite <- app_assoc, member_text_unfold.
    cbn [parse_members]. unfold members_body. rewrite next_is_here by done.
    rewrite parse_chars_quote_chars. rewrite next_is_here by done.
    rewrite <- app_comm_cons. rewrite (Hv f _ Hkf).
    rewrite next_is_here by done.
    rewrite IH; [done|done|done|]. simpl in Hf |- *. lia.
Qed.

Lemma join_members_head ms :
  ms <> [] -> exists t, join_with member_text ms = 34 :: t.
Proof.
  destruct ms as [|[k v] [|kv2 ms']]; [done| |]; intros _.
  - cbn [join_with]. unfold member_text, quote. cbn [fst]. eauto.
  - change (join_with member_text ((k, v) :: kv2 :: ms'))
      with (member_text (k, v) ++ 44 :: join_with member_text (kv2 :: ms')).
    unfold member_text, quote. cbn [fst]. eauto.
Qed.

Lemma reads_back_object k ms :
  Forall (fun kv => reads_back k (snd kv)) ms ->
  obj_of_members ms = ms ->
  reads_back (S (k + length ms)) (JObj ms).
Proof.
  intros Hall Hobj [|f] rest Hf; [lia|].
  cbn [JSON_stringify]. fold member_text.
  rewrite <- app_comm_cons, <- app_assoc. change ([125] ++ rest) with (125 :: rest).
  cbn [parse_value]. unfold value_body. cbn [skip_ws]. change (is_ws 123) with false. cbv iota.
  change (123 =? 34) with false. change (123 =? 91) with false.
  change (123 =? 123) with true. cbv iota.
  destruct ms as [|kv ms'] eqn:E.
  - cbn [join_with app]. by rewrite next_is_here by done.
  - destruct (join_members_head (kv :: ms') ltac:(done)) as [t Ht].
    rewrite <- E in *. rewrite Ht. rewrite <- app_comm_cons.
    rewrite (next_is_other 125 34) by done.
    rewrite app_comm_cons, <- Ht.
    rewrite (parse_members_join k); [by rewrite Hobj | by rewrite E | done | lia].
Qed.

(** The elements of a non-empty array of objects, up to its closing
    bracket. *)
Lemma parse_elements_join k vs rest fuel :
  vs <> [] ->
  Forall (reads_back k) vs ->
  (k + length vs <= fuel)%nat ->
  parse_elements fuel (join_with JSON_stringify vs ++ 93 :: rest) = Some (vs, rest).
Proof.
  revert fuel. induction vs as [|v vs IH]; intros fuel Hne Hall Hf; [done|].
  apply Forall_cons in Hall as [Hv Hall].
  destruct fuel as [|f]; [simpl in Hf; lia|].
  assert (k <= f)%nat as Hkf by (simpl in Hf; lia).
  destruct vs as [|v2 vs'].
  - cbn [join_with parse_elements]. unfold elements_body. rewrite (Hv f _ Hkf).
    rewrite (next_is_other 44 93) by done. by rewrite next_is_here by done.
  - change (join_with JSON_stringify (v :: v2 :: vs'))
      with (JSON_stringify v ++ 44 :: join_with JSON_stringify (v2 :: vs')).
    rewrite <- app_assoc, <- app_comm_cons.
    cbn [parse_elements]. unfold elements_body. rewrite (Hv f _ Hkf).
    rewrite next_is_here by done.
    rewrite IH; [done|done|done|]. simpl in Hf |- *. lia.
Qed.

Lemma reads_back_array k vs :
  Forall (reads_back k) vs -> Forall is_object vs ->
  reads_back (S (k + length vs)) (JArr vs).
Proof.
  intros Hall Hobj [|f] rest Hf; [lia|].
  cbn [JSON_stringify].
  rewrite <- app_comm_cons, <- app_assoc. change ([93] ++ rest) with (93 :: rest).
  cbn [parse_value]. unfold value_body. cbn [skip_ws]. change (is_ws 91) with false. cbv iota.
  change (91 =? 34) with false. change (91 =? 91) with true. cbv iota.
  destruct vs as [|v vs'] eqn:E.
  - cbn [join_with app]. by rewrite next_is_here by done.
  - assert (exists t, join_with JSON_stringify (v :: vs') = 123 :: t) as [t Ht].
    { apply Forall_cons in Hobj as [Hv _]. destruct v; try done.
      destruct vs'; cbn [join_with JSON_stringify]; rewrite <- ?app_comm_cons; eauto. }
    rewrite <- E in *. rewrite Ht. rewrite <- app_comm_cons.
    rewrite (next_is_other 93 123) by done.
    rewrite app_comm_cons, <- Ht.
    rewrite (parse_elements_join k); [done | by rewrite E | done | lia].
Qed.

End RoundTrip.

(* --------------------------------------------------------------------- *)
(** ** The fuel of [JSON_parse] is enough                                  *)
(* --------------------------------------------------------------------- *)

Section Fuel.

Lemma skip_ws_length s : (length (skip_ws s) <= length s)%nat.
Proof.
  induction s as [|c r IH]; cbn [skip_ws]; [done|].
  destruct (is_ws c); cbn [length]; lia.
Qed.

Lemma next_is_length k s r : next_is k s = Some r -> (length r < length s)%nat.
Proof.
  unfold next_is. pose proof (skip_ws_length s) as H.
  destruct (skip_ws s) as [|c t]; [done|]. destruct (c =? k); [|done].
  intros [= <-]. cbn [length] in H. lia.
Qed.

Lemma parse_chars_length s : forall str r,
  parse_chars s = Some (str, r) -> (length r < length s)%nat.
Proof.
  remember (length s) as n eqn:Hn. revert s Hn.
  induction n as [n IH] using lt_wf_ind. intros s Hn str r.
  assert (forall t str' r', (length t < n)%nat ->
            parse_chars t = Some (str', r') -> (length r' < length t)%nat) as IH'.
  { intros t str' r' Ht. by apply (IH (length t)). }
  destruct s as [|c t]; [done|]. cbn [parse_chars]. cbn [length] in Hn.
  assert (forall u x, (length u <= length t)%nat ->
            match parse_chars u with
            | Some (str0, rest) => Some (x :: str0, rest)
            | None => None
            end = Some (str, r) -> (length r < n)%nat) as Hcons.
  { intros u x Hu H. destruct (parse_chars u) as [[str0 rest]|] eqn:E; [|done].
    injection H as _ <-.
    assert (length u < n)%nat as Hlt by lia.
    apply (IH' _ _ _ Hlt) in E. lia. }
  destruct (c =? 34); [intros [= _ <-]; cbn [length]; lia|].
  destruct (c =? 92).
  - destruct t as [|e t']; [done|].
    repeat (destruct (e =? _); [apply Hcons; cbn [length]; lia|]).
    destruct (e =? 117); [|done].
    destruct t' as [|h1 [|h2 [|h3 [|h4 t'']]]]; try done.
    destruct (hex4 h1 h2 h3 h4); [|done]. apply Hcons. cbn [length]. lia.
  - destruct (c <? 32); [done|]. by apply Hcons.
Qed.

Lemma span_digits_length s d r :
  span_digits s = (d, r) -> (length r + length d = length s)%nat.
Proof.
  revert d r. induction s as [|c t IH]; intros d r; cbn [span_digits].
  - by intros [= <- <-].
  - destruct (is_digit c).
    + destruct (span_digits t) as [d' r'] eqn:E. intros [= <- <-].
      specialize (IH _ _ eq_refl). cbn [length]. lia.
    + by intros [= <- <-].
Qed.

Lemma digits1_length s d r : digits1 s = Some (d, r) -> (length r < length s)%nat.
Proof.
  unfold digits1. destruct (span_digits s) as [d' r'] eqn:E.
  apply span_digits_length in E. destruct d' as [|x d'']; [done|].
  intros [= <- <-]. cbn [length] in E. lia.
Qed.

Lemma parse_number_length s t r :
  parse_number s = Some (t, r) -> (length r <= length s)%nat.
Proof.
  unfold parse_number.
  destruct (number_sign s) as [sign s1] eqn:E1.
  assert (length s1 <= length s)%nat as H1.
  { unfold number_sign in E1. destruct s as [|c u]; [by injection E1 as <- <-|].
    destruct (c =? 45); injection E1 as <- <-; cbn [length]; lia. }
  destruct (number_int s1) as [[ip s2]|] eqn:E2; [|done].
  assert (length s2 <= length s1)%nat as H2.
  { unfold number_int in E2. destruct s1 as [|c u]; [done|].
    destruct (c =? 48); [injection E2 as <- <-; cbn [length]; lia|].
    apply digits1_length in E2. lia. }
  destruct (number_frac s2) as [[fp s3]|] eqn:E3; [|done].
  assert (length s3 <= length s2)%nat as H3.
  { unfold number_frac in E3. destruct s2 as [|c u]; [by injection E3 as <- <-|].
    destruct (c =? 46); [|by injection E3 as <- <-].
    destruct (digits1 u) as [[d r']|] eqn:Ed; [|done]. injection E3 as <- <-.
    apply digits1_length in Ed. cbn [length]. lia. }
  destruct (number_exp s3) as [[ep s4]|] eqn:E4; [|done].
  assert (length s4 <= length s3)%nat as H4.
  { unfold number_exp in E4. destruct s3 as [|e u]; [by injection E4 as <- <-|].
    destruct ((e =? 101) || (e =? 69)); [|by injection E4 as <- <-].
    destruct (match u with
              | [] => ([], u)
              | c :: r' => if (c =? 43) || (c =? 45) then ([c], r') else ([], u)
              end) as [sg r1] eqn:Es.
    assert (length r1 <= length u)%nat.
    { destruct u as [|c r']; [by injection Es as <- <-|].
      destruct ((c =? 43) || (c =? 45)); injection Es as <- <-; cbn [length]; lia. }
    destruct (digits1 r1) as [[d r2]|] eqn:Ed; [|done]. injection E4 as <- <-.
    apply digits1_length in Ed. cbn [length]. lia. }
  intros [= _ <-]. lia.
Qed.


Lemma value_body_shrinks pe pm :
  shrinks pe -> shrinks pm -> shrinks (value_body pe pm).
Proof.
  intros He Hm s x r. unfold value_body.
  pose proof (skip_ws_length s) as Hws.
  destruct (skip_ws s) as [|c t] eqn:E; [done|]. cbn [length] in Hws.
  destruct (c =? 34).
  { destruct (parse_chars t) as [[str rest]|] eqn:Ec; [|done].
    intros [= _ <-]. apply parse_chars_length in Ec. lia. }
  destruct (c =? 91).
  { destruct (next_is 93 t) as [r'|] eqn:En.
    - intros [= _ <-]. apply next_is_length in En. lia.
    - destruct (pe t) as [[vs rest]|] eqn:Ee; [|done].
      intros [= _ <-]. apply He in Ee. lia. }
  destruct (c =? 123).
  { destruct (next_is 125 t) as [r'|] eqn:En.
    - intros [= _ <-]. apply next_is_length in En. lia.
    - destruct (pm t) as [[ms rest]|] eqn:Ee; [|done].
      intros [= _ <-]. apply Hm in Ee. lia. }
  destruct (starts_with (lit "null") (c :: t));
    [intros [= _ <-]; rewrite length_drop; cbn [length]; lia|].
  destruct (starts_with (lit "true") (c :: t));
    [intros [= _ <-]; rewrite length_drop; cbn [length]; lia|].
  destruct (starts_with (lit "false") (c :: t));
    [intros [= _ <-]; rewrite length_drop; cbn [length]; lia|].
  destruct (parse_number (c :: t)) as [[lx rest]|] eqn:Ep; [|done].
  intros [= _ <-]. apply parse_number_length in Ep. cbn [length] in Ep. lia.
Qed.

Lemma elements_body_shrinks pv pe :
  shrinks pv -> shrinks pe -> shrinks (elements_body pv pe).
Proof.
  intros Hv He s x r. unfold elements_body.
  destruct (pv s) as [[v r1]|] eqn:E1; [|done]. apply Hv in E1.
  destruct (next_is 44 r1) as [r'|] eqn:En.
  - apply next_is_length in En.
    destruct (pe r') as [[vs rest]|] eqn:E2; [|done]. apply He in E2.
    intros [= _ <-]. lia.
  - destruct (next_is 93 r1) as [r'|] eqn:En'; [|done].
    apply next_is_length in En'. intros [= _ <-]. lia.
Qed.

Lemma members_body_shrinks pv pm :
  shrinks pv -> shrinks pm -> shrinks (members_body pv pm).
Proof.
  intros Hv Hm s x r. unfold members_body.
  destruct (next_is 34 s) as [r0|] eqn:E0; [|done]. apply next_is_length in E0.
  destruct (parse_chars r0) as [[k r1]|] eqn:E1; [|done]. apply parse_chars_length in E1.
  destruct (next_is 58 r1) as [r2|] eqn:E2; [|done]. apply next_is_length in E2.
  destruct (pv r2) as [[v r3]|] eqn:E3; [|done]. apply Hv in E3.
  destruct (next_is 44 r3) as [r4|] eqn:E4.
  - apply next_is_length in E4.
    destruct (pm r4) as [[ms rest]|] eqn:E5; [|done]. apply Hm in E5.
    intros [= _ <-]. lia.
  - destruct (next_is 125 r3) as [r4|] eqn:E5; [|done].
    apply next_is_length in E5. intros [= _ <-]. lia.
Qed.

Lemma parse_shrinks fuel :
  shrinks (parse_value fuel) /\ shrinks (parse_elements fuel)
  /\ shrinks (parse_members fuel).
Proof.
  induction fuel as [|f (Hv & He & Hm)]; [by repeat split|].
  split; [|split]; cbn [parse_value parse_elements parse_members].
  - by apply value_body_shrinks.
  - by apply elements_body_shrinks.
  - by apply members_body_shrinks.
Qed.


Lemma value_body_extends pe pe' pm pm' s x :
  extends_below (length s) pe pe' -> extends_below (length s) pm pm' ->
  value_body pe pm s = Some x -> value_body pe' pm' s = Some x.
Proof.
  intros He Hm. unfold value_body.
  pose proof (skip_ws_length s) as Hws.
  destruct (skip_ws s) as [|c t] eqn:E; [done|]. cbn [length] in Hws.
  destruct (c =? 34); [done|].
  destruct (c =? 91).
  { destruct (next_is 93 t); [done|].
    destruct (pe t) as [[vs rest]|] eqn:Ee; [|done].
    by rewrite (He t _ ltac:(lia) Ee). }
  destruct (c =? 123); [|done].
  destruct (next_is 125 t); [done|].
  destruct (pm t) as [[ms rest]|] eqn:Ee; [|done].
  by rewrite (Hm t _ ltac:(lia) Ee).
Qed.

Lemma elements_body_extends pv pv' pe pe' s x :
  shrinks pv ->
  extends_below (S (length s)) pv pv' -> extends_below (length s) pe pe' ->
  elements_body pv pe s = Some x -> elements_body pv' pe' s = Some x.
Proof.
  intros Hsh Hv He. unfold elements_body.
  destruct (pv s) as [[v r1]|] eqn:E1; [|done].
  rewrite (Hv s _ ltac:(lia) E1). apply Hsh in E1.
  destruct (next_is 44 r1) as [r'|] eqn:En; [|done].
  apply next_is_length in En.
  destruct (pe r') as [[vs rest]|] eqn:E2; [|done].
  by rewrite (He r' _ ltac:(lia) E2).
Qed.

Lemma members_body_extends pv pv' pm pm' s x :
  shrinks pv ->
  extends_below (length s) pv pv' -> extends_below (length s) pm pm' ->
  members_body pv pm s = Some x -> members_body pv' pm' s = Some x.
Proof.
  intros Hsh Hv Hm. unfold members_body.
  destruct (next_is 34 s) as [r0|] eqn:E0; [|done]. apply next_is_length in E0.
  destruct (parse_chars r0) as [[k r1]|] eqn:E1; [|done]. apply parse_chars_length in E1.
  destruct (next_is 58 r1) as [r2|] eqn:E2; [|done]. apply next_is_length in E2.
  destruct (pv r2) as [[v r3]|] eqn:E3; [|done].
  rewrite (Hv r2 _ ltac:(lia) E3). apply Hsh in E3.
  destruct (next_is 44 r3) as [r4|] eqn:E4; [|done].
  apply next_is_length in E4.
  destruct (pm r4) as [[ms rest]|] eqn:E5; [|done].
  by rewrite (Hm r4 _ ltac:(lia) E5).
Qed.

(** More fuel does not change a result. *)
Lemma parse_mono fuel : forall fuel' n, (fuel <= fuel')%nat ->
  extends_below n (parse_value fuel) (parse_value fuel')
  /\ extends_below n (parse_elements fuel) (parse_elements fuel')
  /\ extends_below n (parse_members fuel) (parse_members fuel').
Proof.
  induction fuel as [|f IH]; intros fuel' n Hf; [by repeat split|].
  destruct fuel' as [|f']; [lia|].
  assert (f <= f')%nat as Hff by lia.
  pose proof (parse_shrinks f) as (Sv & _ & _).
  split; [|split]; intros s x _ H;
    cbn [parse_value parse_elements parse_members] in *.
  - destruct (IH f' (length s) Hff) as (_ & He & Hm).
    by apply (value_body_extends _ _ _ _ _ _ He Hm).
  - destruct (IH f' (S (length s)) Hff) as (Hv & _ & _).
    destruct (IH f' (length s) Hff) as (_ & He & _).
    by apply (elements_body_extends _ _ _ _ _ _ Sv Hv He).
  - destruct (IH f' (length s) Hff) as (Hv & _ & Hm).
    by apply (members_body_extends _ _ _ _ _ _ Sv Hv Hm).
Qed.

(** What some amount of fuel parses, the fuel computed from the length of
    the text parses. *)
Lemma parse_enough fuel :
  (forall s x, parse_value fuel s = Some x ->
               parse_value (2 * length s + 1) s = Some x)
  /\ (forall s x, parse_elements fuel s = Some x ->
                  parse_elements (2 * length s + 2) s = Some x)
  /\ (forall s x, parse_members fuel s = Some x ->
                  parse_members (2 * length s + 2) s = Some x).
Proof.
  induction fuel as [|f (IHv & IHe & IHm)]; [by repeat split|].
  pose proof (parse_shrinks f) as (Sv & _ & _).
  split; [|split]; intros s x H.
  - replace (2 * length s + 1)%nat with (S (2 * length s)) by lia.
    cbn [parse_value] in *.
    apply (value_body_extends (parse_elements f) _ (parse_members f)); [| |done].
    + intros t y Ht Hy. apply IHe in Hy.
      destruct (parse_mono (2 * length t + 2) (2 * length s) (S (length t)) ltac:(lia))
        as (_ & He' & _).
      apply He'; [lia|done].
    + intros t y Ht Hy. apply IHm in Hy.
      destruct (parse_mono (2 * length t + 2) (2 * length s) (S (length t)) ltac:(lia))
        as (_ & _ & Hm').
      apply Hm'; [lia|done].
  - replace (2 * length s + 2)%nat with (S (2 * length s + 1)) by lia.
    cbn [parse_elements] in *.
    apply (elements_body_extends (parse_value f) _ (parse_elements f)); [done| | |done].
    + intros t y Ht Hy. apply IHv in Hy.
      destruct (parse_mono (2 * length t + 1) (2 * length s + 1) (S (length t)) ltac:(lia))
        as (Hv' & _ & _).
      apply Hv'; [lia|done].
    + intros t y Ht Hy. apply IHe in Hy.
      destruct (parse_mono (2 * length t + 2) (2 * length s + 1) (S (length t)) ltac:(lia))
        as (_ & He' & _).
      apply He'; [lia|done].
  - replace (2 * length s + 2)%nat with (S (2 * length s + 1)) by lia.
    cbn [parse_members] in *.
    apply (members_body_extends (parse_value f) _ (parse_members f)); [done| | |done].
    + intros t y Ht Hy. apply IHv in Hy.
      destruct (parse_mono (2 * length t + 1) (2 * length s + 1) (S (length t)) ltac:(lia))
        as (Hv' & _ & _).
      apply Hv'; [lia|done].
    + intros t y Ht Hy. apply IHm in Hy.
      destruct (parse_mono (2 * length t + 2) (2 * length s + 1) (S (length t)) ltac:(lia))
        as (_ & _ & Hm').
      apply Hm'; [lia|done].
Qed.

(** [JSON_parse] gives [None] only for a text that no amount of fuel
    parses. *)
Lemma JSON_parse_complete text fuel v rest :
  parse_value fuel text = Some (v, rest) -> skip_ws rest = [] ->
  JSON_parse text = Some v.
Proof.
  intros H Hr. unfold JSON_parse.
  destruct (parse_enough fuel) as (Hv & _ & _). apply Hv in H.
  destruct (parse_mono (2 * length text + 1) (2 * length text + 2) (S (length text))
              ltac:(lia)) as (Hm & _ & _).
  rewrite (Hm text _ ltac:(lia) H). by rewrite Hr.
Qed.

(** A text that [JSON_parse] rejects is one that no amount of fuel parses
    up to its end. *)
Lemma JSON_parse_None text :
  JSON_parse text = None <->
  forall fuel v rest, parse_value fuel text = Some (v, rest) -> skip_ws rest <> [].
Proof.
  split.
  - intros H fuel v rest Hp Hr. by rewrite (JSON_parse_complete _ _ _ _ Hp Hr) in H.
  - intros H. unfold JSON_parse.
    destruct (parse_value (2 * length text + 2) text) as [[v rest]|] eqn:E; [|done].
    specialize (H _ _ _ E). by destruct (skip_ws rest).
Qed.

End Fuel.

(* --------------------------------------------------------------------- *)
(** ** The booking codec                                                   *)
(* --------------------------------------------------------------------- *)

Section Codec.

Implicit Types (meta : gmap (list N) (list N)) (s : Session) (c : list CartItem).

Lemma defined_props_strings ps :
  Forall (fun kv => reads_back 1 (snd kv)) (defined_props ps).
Proof.
  induction ps as [|[k [v|]] ps IH]; cbn [defined_props]; [constructor| |done].
  constructor; [apply reads_back_string|done].
Qed.

Lemma defined_props_length ps : (length (defined_props ps) <= length ps)%nat.
Proof.
  induction ps as [|[k [v|]] ps IH]; cbn [defined_props length]; lia.
Qed.

Lemma reads_back_slot (sl : Slot) : reads_back 6 (slot_json sl).
Proof.
  unfold slot_json.
  set (ps := [(lit "date", date sl); (lit "time", time sl);
              (lit "location", location sl); (lit "displayDate", displayDate sl)]).
  pose proof (defined_props_length ps) as Hlen.
  change (length ps) with 4%nat in Hlen.
  apply (reads_back_mono (S (1 + length (defined_props ps)))); [lia|].
  apply reads_back_object; [apply defined_props_strings|].
  subst ps. destruct sl as [[d|] [t|] [l|] [dd|]]; by vm_compute.
Qed.

Lemma reads_back_slots (l : list Slot) :
  reads_back (7 + length l) (slots_json l).
Proof.
  unfold slots_json.
  replace (7 + length l)%nat with (S (6 + length (map slot_json l)))
    by (rewrite length_map; lia).
  apply reads_back_array.
  - apply Forall_map, Forall_true. intros sl. apply reads_back_slot.
  - apply Forall_map, Forall_true. by intros sl.
Qed.

Lemma join_with_length {A} (f : A -> list N) (l : list A) :
  Forall (fun x => f x <> []) l -> (length l <= length (join_with f l))%nat.
Proof.
  induction 1 as [|x l Hx Hl IH]; [done|].
  destruct l as [|y l'].
  - cbn [join_with length]. destruct (f x); [done|simpl; lia].
  - change (join_with f (x :: y :: l')) with (f x ++ 44 :: join_with f (y :: l')).
    rewrite length_app. cbn [length] in *. lia.
Qed.

Lemma slots_blob_length (l : list Slot) :
  (length l + 2 <= length (JSON_stringify (slots_json l)))%nat.
Proof.
  unfold slots_json. cbn [JSON_stringify length]. rewrite length_app.
  pose proof (join_with_length JSON_stringify (map slot_json l)) as H.
  rewrite length_map in H. cbn [length].
  assert (Forall (fun x => JSON_stringify x <> []) (map slot_json l)) as Hne.
  { apply Forall_map, Forall_true. by intros sl. }
  specialize (H Hne). lia.
Qed.

(** [JSON.parse(JSON.stringify(slim))] is [slim]. *)
Lemma JSON_parse_slots (l : list Slot) :
  JSON_parse (JSON_stringify (slots_json l)) = Some (slots_json l).
Proof.
  destruct (decide (l = [])) as [->|Hne]; [by vm_compute|].
  assert (1 <= length l)%nat as Hpos by (destruct l; [done|simpl; lia]).
  unfold JSON_parse.
  pose proof (reads_back_slots l) as H.
  pose proof (slots_blob_length l) as Hlen.
  specialize (H (2 * length (JSON_stringify (slots_json l)) + 2)%nat []).
  rewrite app_nil_r in H. rewrite H by lia. done.
Qed.

Lemma bookings_blob_head c : exists t, bookings_blob c = 91 :: t.
Proof. unfold bookings_blob, slots_json. cbn [JSON_stringify]. eauto. Qed.

Lemma set_prop_ne k v meta k' : k <> k' -> set_prop k v meta !! k' = meta !! k'.
Proof.
  intros H. unfold set_prop. destruct v.
  - by rewrite lookup_insert_ne.
  - by rewrite lookup_delete_ne.
Qed.

(** The customer's details do not touch the keys of the codec. *)
Lemma details_lookup cn co p ph k :
  ~ detail_key k ->
  set_prop (lit "phone") ph
    (set_prop (lit "product") p
       (set_prop (lit "company") co
          (set_prop (lit "customerName") cn ∅))) !! k = None.
Proof.
  intros H. unfold detail_key in H.
  rewrite !set_prop_ne by (intros E; apply H; rewrite <- E; tauto).
  apply lookup_empty.
Qed.

Lemma bookings_not_detail : ~ detail_key (lit "bookings").
Proof. by intros [H | [H | [H | H]]]. Qed.

Lemma sentinel_not_detail : ~ detail_key (lit "bookings_chunks").
Proof. by intros [H | [H | [H | H]]]. Qed.

Lemma digits_truthy n : truthy (Some (digits n)) = true.
Proof. pose proof (digits_nonempty n). by destruct (digits n). Qed.

(** The text both decoders hand to [JSON.parse] is the blob the encoder
    stored. *)
Lemma decoders_text_of_store blob meta :
  blob <> [] -> meta !! lit "bookings" = None ->
  extract_text (store_bookings blob meta) = Some blob
  /\ verify_text (store_bookings blob meta) = blob.
Proof.
  intros Hne Hnone. unfold extract_text, verify_text.
  destruct (Nat.leb_spec (length blob) 500) as [Hle|Hgt].
  - rewrite store_bookings_single by done. rewrite lookup_insert_eq.
    destruct blob; [done|]. by cbn.
  - assert (store_bookings blob meta !! lit "bookings" = None) as ->.
    { rewrite store_bookings_other; [done|done|done|].
      intros j E. symmetry in E. by apply chunk_key_not_bookings in E. }
    rewrite store_bookings_sentinel by done.
    assert (truthy (Some (String_Z (Z.of_nat (chunk_count (length blob))))) = true)
      as Ht by (rewrite String_Z_of_nat; apply digits_truthy).
    unfold or_else. rewrite !Ht. change (truthy None) with false. cbv iota.
    cbn [parseInt_opt]. rewrite parseInt_String_nat.
    cbn [iterations]. rewrite Nat2Z.id.
    by rewrite read_chunks_store.
Qed.

End Codec.

Section CodecRoundTrip.

(** The properties a decoded slot is read through give the slot's fields
    back. *)
Lemma slot_json_fields (sl : Slot) :
  prop (slot_json sl) (lit "date") = ret (JStr <$> date sl)
  /\ prop (slot_json sl) (lit "time") = ret (JStr <$> time sl)
  /\ prop (slot_json sl) (lit "location") = ret (JStr <$> location sl)
  /\ prop (slot_json sl) (lit "displayDate") = ret (JStr <$> displayDate sl).
Proof. destruct sl as [[d|] [t|] [l|] [dd|]]; by vm_compute. Qed.

(** C1.  For a cart of at most 50 slots, both decoders give back, from the
    metadata the checkout encoder produced, the list of the slots reduced to
    their four fields: when the blob has at most 500 code units and is stored
    under [bookings], and when it is longer and is split over the chunk keys
    with the [bookings_chunks] sentinel.  The empty cart gives the empty
    list.  Element by element, the four properties of a decoded slot are the
    fields the encoder kept of the cart's slot. *)
Theorem codec_round_trip
    (customerName company product phone : option (list N))
    (c : list CartItem) (s : Session) :
  (length c <= 50)%nat ->
  metadata s = checkout_metadata customerName company product phone c ->
  extractBookings s = slots_json (slim c)
  /\ verify_decode (metadata s) = Some (slots_json (slim c))
  /\ ((length (bookings_blob c) <= 500)%nat ->
        metadata s !! lit "bookings" = Some (bookings_blob c)
        /\ metadata s !! lit "bookings_chunks" = None)
  /\ ((500 < length (bookings_blob c))%nat ->
        metadata s !! lit "bookings" = None
        /\ metadata s !! lit "bookings_chunks"
           = Some (String_Z (Z.of_nat (chunk_count (length (bookings_blob c)))))
        /\ forall i, (i < chunk_count (length (bookings_blob c)))%nat ->
             metadata s !! chunk_key i
             = Some (slice (500 * i) (500 * i + 500) (bookings_blob c)))
  /\ (c = [] -> extractBookings s = JArr [])
  /\ exists items,
       extractBookings s = JArr items
       /\ Forall2 (fun v b =>
                     prop v (lit "date")
                       = ret (JStr <$> or_else (item_date b) (item_dateStr b))
                     /\ prop v (lit "time") = ret (JStr <$> item_time b)
                     /\ prop v (lit "location") = ret (JStr <$> item_location b)
                     /\ prop v (lit "displayDate") = ret (JStr <$> item_displayDate b))
                  items c.
Proof.
  intros _ Hmeta.
  set (meta0 := set_prop (lit "phone") phone
                  (set_prop (lit "product") product
                     (set_prop (lit "company") company
                        (set_prop (lit "customerName") customerName ∅)))).
  assert (metadata s = store_bookings (bookings_blob c) meta0) as Hstore by done.
  assert (meta0 !! lit "bookings" = None) as Hb
    by apply details_lookup, bookings_not_detail.
  assert (meta0 !! lit "bookings_chunks" = None) as Hs
    by apply details_lookup, sentinel_not_detail.
  destruct (bookings_blob_head c) as [t Hhead].
  assert (bookings_blob c <> []) as Hne by (by rewrite Hhead).
  destruct (decoders_text_of_store (bookings_blob c) meta0 Hne Hb) as [Hx Hv].
  assert (extractBookings s = slots_json (slim c)) as Hround.
  { unfold extractBookings. rewrite Hstore, Hx, Hhead, <- Hhead.
    unfold bookings_blob. by rewrite JSON_parse_slots. }
  split; [done|]. split.
  { unfold verify_decode. rewrite Hstore, Hv. apply JSON_parse_slots. }
  split; [|split].
  - intros Hle. rewrite Hstore, store_bookings_single by done.
    rewrite lookup_insert_eq, lookup_insert_ne by done. done.
  - intros Hgt. rewrite Hstore. split; [|split].
    + rewrite store_bookings_other; [done|done|done|].
      intros j E. symmetry in E. by apply chunk_key_not_bookings in E.
    + by apply store_bookings_sentinel.
    + intros i Hi. by apply store_bookings_chunk.
  - split; [intros ->; by rewrite Hround|].
    exists (map slot_json (slim c)). split; [done|].
    unfold slim. clear. induction c as [|b c IH]; [constructor|].
    cbn [map]. constructor; [|done]. apply (slot_json_fields (slim_item b)).
Qed.

(** A cart of nine slots: the blob has 865 code units and is split in two
    chunks. *)
Lemma codec_round_trip_witness :
  extractBookings (sample_checkout 9) = slots_json (slim (sample_cart 9))
  /\ verify_decode (metadata (sample_checkout 9))
     = Some (slots_json (slim (sample_cart 9)))
  /\ metadata (sample_checkout 9) !! lit "bookings_chunks" = Some (lit "2").
Proof.
  destruct (codec_round_trip None None None None (sample_cart 9) (sample_checkout 9))
    as (H1 & H2 & _ & H4 & _ & _).
  - vm_compute. lia.
  - reflexivity.
  - split; [exact H1 | split; [exact H2|]].
    destruct H4 as (_ & H & _); [vm_compute; lia|]. exact H.
Defined.

(** The single-key form and the empty cart, evaluated. *)
Example codec_round_trip_small :
  extractBookings (sample_checkout 2) = slots_json (slim (sample_cart 2))
  /\ metadata (sample_checkout 2) !! lit "bookings" = Some (bookings_blob (sample_cart 2))
  /\ extractBookings (sample_checkout 0) = JArr []
  /\ metadata (sample_checkout 0) !! lit "bookings" = Some (lit "[]").
Proof. by vm_compute. Qed.

End CodecRoundTrip.

(* --------------------------------------------------------------------- *)
(** ** The two decoders                                                    *)
(* --------------------------------------------------------------------- *)

Section Decoders.

Implicit Types (meta : gmap (list N) (list N)) (s : Session).

Lemma singular_text meta b :
  meta !! lit "bookings" = Some b -> b <> [] ->
  extract_text meta = Some b /\ verify_text meta = b.
Proof.
  intros H Hb. unfold extract_text, verify_text. rewrite H.
  destruct b as [|c t]; [done|]. by cbn.
Qed.

(** C9.  When [bookings] holds a non-empty string, both decoders parse that
    string alone: whatever the sentinel and the chunk keys hold, two
    metadata objects with the same [bookings] decode alike. *)
Theorem singular_key_precedence s b :
  metadata s !! lit "bookings" = Some b -> b <> [] ->
  extractBookings s = default (JArr []) (JSON_parse b)
  /\ verify_decode (metadata s) = JSON_parse b
  /\ forall s', metadata s' !! lit "bookings" = Some b ->
       extractBookings s' = extractBookings s
       /\ verify_decode (metadata s') = verify_decode (metadata s).
Proof.
  intros H Hb.
  assert (forall s0, metadata s0 !! lit "bookings" = Some b ->
            extractBookings s0 = default (JArr []) (JSON_parse b)
            /\ verify_decode (metadata s0) = JSON_parse b) as Hone.
  { intros s0 H0. destruct (singular_text _ _ H0 Hb) as [Hx Hv].
    unfold extractBookings, verify_decode. rewrite Hx, Hv.
    destruct b as [|c t]; [done|]. by destruct (JSON_parse (c :: t)). }
  destruct (Hone s H) as [H1 H2]. split; [done|]. split; [done|].
  intros s' H'. destruct (Hone s' H') as [H1' H2']. by rewrite H1, H2, H1', H2'.
Qed.


Lemma singular_key_precedence_witness :
  extractBookings (sample_session (lit "paid") both_forms PI_absent) = JArr []
  /\ verify_decode both_forms = Some (JArr []).
Proof.
  destruct (singular_key_precedence
              (sample_session (lit "paid") both_forms PI_absent) (lit "[]"))
    as (H1 & H2 & _).
  - reflexivity.
  - vm_compute. discriminate.
  - split; [exact H1 | exact H2].
Defined.

(** The decoders as run: no call, no error out of [extractBookings], and
    the pure decoders' values whenever the loop ends as [iterations] has
    it. *)
Lemma run_chunks_ends meta (chunks : option Z) :
  match chunks with Some z => (z <=? 2 ^ 53)%Z | None => true end = true ->
  run_chunks meta chunks = ret (read_chunks meta 0 (iterations chunks)).
Proof.
  unfold run_chunks. destruct chunks as [z|]; [|done].
  cbn [loop_count iterations]. by intros ->.
Qed.

Lemma run_chunks_zero meta :
  run_chunks meta (parseInt_opt (Some (lit "0"))) = ret [].
Proof. apply (run_chunks_ends meta (parseInt_opt (Some (lit "0")))). reflexivity. Qed.

Lemma run_chunks_pure meta chunks :
  run_chunks meta chunks = hang \/ exists text, run_chunks meta chunks = ret text.
Proof. unfold run_chunks. destruct (loop_count chunks); eauto. Qed.

Lemma parse_empty : parse_or_throw [] = throw SyntaxError.
Proof. reflexivity. Qed.

(** The text [extractBookings] parses is the text the verify-payment handler
    parses, an empty text apart. *)
Lemma decoders_same_text (text : list N) :
  try_catch
    (if truthy (Some text) then parse_or_throw (or_empty (Some text))
     else ret (JArr []))
    (fun _ => ret (JArr []))
  = try_catch (parse_or_throw text) (fun _ => ret (JArr [])).
Proof. by destruct text as [|c t]. Qed.

Lemma try_catch_bind_ret {A B} (x : A) (k : A -> Eff B) (h : exn -> Eff B) :
  try_catch (bind (ret x) k) h = try_catch (k x) h.
Proof. unfold bind, ret. destruct (k x) as [t o]. by cbn [app]. Qed.

Lemma run_decoders_agree s :
  extractBookings_run s
  = try_catch (verify_decode_run (metadata s)) (fun _ => ret (JArr [])).
Proof.
  unfold extractBookings_run, verify_decode_run.
  assert (forall chunks,
            try_catch
              (bind (bind (run_chunks (metadata s) chunks) (fun c => ret (Some c)))
                 (fun bookingsStr =>
                    if truthy bookingsStr then parse_or_throw (or_empty bookingsStr)
                    else ret (JArr [])))
              (fun _ => ret (JArr []))
            = try_catch (bind (run_chunks (metadata s) chunks) parse_or_throw)
                (fun _ => ret (JArr []))) as Hloop.
  { intros chunks.
    destruct (run_chunks_pure (metadata s) chunks) as [->|[text ->]]; [done|].
    change (bind (ret text) (fun c => ret (Some c))) with (ret (Some text) : Eff _).
    rewrite !try_catch_bind_ret. apply decoders_same_text. }
  assert (try_catch (bind (ret None)
                       (fun bookingsStr : option (list N) =>
                          if truthy bookingsStr then parse_or_throw (or_empty bookingsStr)
                          else ret (JArr [])))
            (fun _ => ret (JArr []))
          = try_catch (bind (run_chunks (metadata s) (parseInt_opt (Some (lit "0"))))
                         parse_or_throw)
              (fun _ => ret (JArr []))) as Hnone.
  { rewrite run_chunks_zero, !try_catch_bind_ret. by rewrite parse_empty. }
  destruct (metadata s !! lit "bookings") as [[|c b]|] eqn:Eb; cbn [truthy or_empty].
  - destruct (metadata s !! lit "bookings_chunks") as [[|c k]|] eqn:Ec;
      cbn [truthy or_else]; [exact Hnone|apply Hloop|exact Hnone].
  - rewrite !try_catch_bind_ret. cbn [truthy or_empty]. done.
  - destruct (metadata s !! lit "bookings_chunks") as [[|c k]|] eqn:Ec;
      cbn [truthy or_else]; [exact Hnone|apply Hloop|exact Hnone].
Qed.

Lemma verify_decode_run_ends meta :
  loop_ends meta = true ->
  verify_decode_run meta
  = match verify_decode meta with
    | Some v => ret v
    | None => throw SyntaxError
    end.
Proof.
  unfold loop_ends, verify_decode_run, verify_decode, verify_text.
  assert (forall text, bind (ret text) parse_or_throw
                       = match JSON_parse text with
                         | Some v => ret v
                         | None => throw SyntaxError
                         end) as Hp.
  { intros text. unfold bind, ret, parse_or_throw. by destruct (JSON_parse text). }
  destruct (truthy (meta !! lit "bookings")) eqn:Eb; cbn [orb].
  - intros _. apply Hp.
  - intros Hz. rewrite run_chunks_ends; [apply Hp|].
    destruct (meta !! lit "bookings_chunks") as [[|c k]|]; cbn [or_else truthy];
      [reflexivity|exact Hz|reflexivity].
Qed.

Lemma verify_decode_default meta :
  match extract_text meta with
  | Some (c :: t) => default (JArr []) (JSON_parse (c :: t))
  | _ => JArr []
  end = default (JArr []) (verify_decode meta).
Proof.
  unfold extract_text, verify_decode, verify_text.
  assert (forall text : list N,
            match text with
            | c :: t => default (JArr []) (JSON_parse (c :: t))
            | [] => JArr []
            end = default (JArr []) (JSON_parse text)) as Ht
    by (by intros [|c t]).
  destruct (meta !! lit "bookings") as [[|c b]|]; cbn [truthy or_empty].
  - destruct (meta !! lit "bookings_chunks") as [[|c k]|]; cbn [truthy or_else];
      [reflexivity|apply Ht|reflexivity].
  - done.
  - destruct (meta !! lit "bookings_chunks") as [[|c k]|]; cbn [truthy or_else];
      [reflexivity|apply Ht|reflexivity].
Qed.

Lemma extractBookings_default s :
  extractBookings s = default (JArr []) (verify_decode (metadata s)).
Proof.
  rewrite <- verify_decode_default. unfold extractBookings.
  by destruct (extract_text (metadata s)) as [[|c t]|].
Qed.

Lemma extractBookings_run_ends s :
  loop_ends (metadata s) = true -> extractBookings_run s = ret (extractBookings s).
Proof.
  intros H. rewrite run_decoders_agree, (verify_decode_run_ends _ H).
  rewrite extractBookings_default. by destruct (verify_decode (metadata s)).
Qed.

(** With no [bookings] and a sentinel above [2^53 + 1] neither decoder
    returns. *)
Lemma run_decoders_hang s (z : Z) :
  truthy (metadata s !! lit "bookings") = false ->
  parseInt_opt (metadata s !! lit "bookings_chunks") = Some z ->
  (2 ^ 53 + 1 < z)%Z ->
  extractBookings_run s = hang /\ verify_decode_run (metadata s) = hang.
Proof.
  intros Hb Hz Hbig.
  assert (verify_decode_run (metadata s) = hang) as Hv.
  { unfold verify_decode_run. rewrite Hb.
    destruct (metadata s !! lit "bookings_chunks") as [[|c k]|] eqn:Ec;
      [discriminate| |discriminate].
    cbn [or_else truthy]. rewrite Hz. unfold run_chunks. cbn [loop_count].
    assert ((z <=? 2 ^ 53)%Z = false) as -> by (apply Z.leb_gt; lia).
    assert ((z =? 2 ^ 53 + 1)%Z = false) as -> by (apply Z.eqb_neq; lia).
    reflexivity. }
  split; [|done]. by rewrite run_decoders_agree, Hv.
Qed.

Lemma forallb_Forall {A} (f : A -> bool) (l : list A) :
  forallb f l = true -> Forall (fun x => f x = true) l.
Proof.
  induction l as [|x l IH]; [constructor|]. cbn [forallb].
  intros [Hx Hl]%andb_true_iff. constructor; auto.
Qed.

Lemma extractBookings_run_pure s :
  extractBookings_run s = hang \/ exists v, extractBookings_run s = ret v.
Proof.
  rewrite run_decoders_agree. unfold verify_decode_run.
  destruct (truthy (metadata s !! lit "bookings")).
  - right. cbn [bind ret app]. unfold parse_or_throw.
    destruct (JSON_parse _); eauto.
  - destruct (run_chunks_pure (metadata s)
                (parseInt_opt (or_else (metadata s !! lit "bookings_chunks")
                                       (Some (lit "0"))))) as [->|[text ->]];
      [by left|right].
    cbn [bind ret app]. unfold parse_or_throw. destruct (JSON_parse _); eauto.
Qed.

(** X24.  [extractBookings] never raises and makes no call.  It gives the empty
    list when the payload is missing, neither [bookings] nor
    [bookings_chunks] being there, and, for a sentinel its loop counter
    reaches, when the text it reassembles does not parse. *)
Theorem extractBookings_defensive s :
  trace (extractBookings_run s) = []
  /\ (forall e, result (extractBookings_run s) <> Throws e)
  /\ (metadata s !! lit "bookings" = None ->
      metadata s !! lit "bookings_chunks" = None ->
      extractBookings_run s = ret (JArr []))
  /\ (loop_ends (metadata s) = true ->
      (forall t, extract_text (metadata s) = Some t -> JSON_parse t = None) ->
      extractBookings_run s = ret (JArr [])).
Proof.
  split; [|split; [|split]].
  - by destruct (extractBookings_run_pure s) as [->|[v ->]].
  - intros e. by destruct (extractBookings_run_pure s) as [->|[v ->]].
  - intros Hb Hc. rewrite extractBookings_run_ends.
    + unfold extractBookings, extract_text. by rewrite Hb, Hc.
    + unfold loop_ends. rewrite Hc. cbn [parseInt_opt]. apply orb_true_r.
  - intros He Hbad. rewrite extractBookings_run_ends by done.
    unfold extractBookings.
    destruct (extract_text (metadata s)) as [[|c t]|] eqn:E; [done| |done].
    by rewrite (Hbad (c :: t)).
Qed.

Lemma extractBookings_defensive_witness :
  extractBookings_run sample_bare = ret (JArr [])
  /\ extractBookings_run sample_malformed = ret (JArr []).
Proof.
  split.
  - destruct (extractBookings_defensive sample_bare) as (_ & _ & H & _).
    apply H; reflexivity.
  - destruct (extractBookings_defensive sample_malformed) as (_ & _ & _ & H).
    apply H; [reflexivity|]. intros t Ht.
    vm_compute in Ht. injection Ht as <-. reflexivity.
Defined.

(** C6.  The decode of the verify-payment handler does not degrade as its
    sibling [extractBookings] does.  For a paid session with no payload in
    its metadata, and for one whose payload is cut off, [extractBookings]
    returns the empty list, while the handler's own decode gives the text to
    [JSON.parse] with nothing to catch the error: the request is answered
    500. *)
Theorem verify_decode_missing_raises :
  metadata sample_bare !! lit "bookings" = None
  /\ metadata sample_bare !! lit "bookings_chunks" = None
  /\ extractBookings_run sample_bare = ret (JArr [])
  /\ verify_decode_run (metadata sample_bare) = throw SyntaxError
  /\ verify_payment (sample_env None sample_bare) (lit "cs_test_1")
     = ([SessionsRetrieve (lit "cs_test_1") false; ConsoleError],
        Returns (mkResponse 500 (ErrorOf SyntaxError)))
  /\ metadata sample_malformed !! lit "bookings" = Some (lit "[{")
  /\ extractBookings_run sample_malformed = ret (JArr [])
  /\ verify_payment (sample_env None sample_malformed) (lit "cs_test_1")
     = ([SessionsRetrieve (lit "cs_test_1") false; ConsoleError],
        Returns (mkResponse 500 (ErrorOf SyntaxError))).
Proof. by vm_compute. Qed.

End Decoders.

(* --------------------------------------------------------------------- *)
(** ** Checkout pricing                                                    *)
(* --------------------------------------------------------------------- *)

Section Pricing.

Lemma amount_charged_lineItems (c : list CartItem) :
  amount_charged (lineItems c) = (Z.of_nat (length c) * 3000)%Z.
Proof.
  induction c as [|item c IH]; [done|].
  cbn [lineItems map amount_charged foldr length] in *.
  unfold lineItems, amount_charged in IH. rewrite IH.
  cbn [lineItem unit_amount quantity]. lia.
Qed.

(** C8.  Each slot of the cart becomes one line item, in order, with a unit
    amount of 3000 and a quantity of 1, whatever its fields; the amount
    charged for the [N] line items is [N * 3000], and these are the line
    items the handler sends to the payment processor. *)
Theorem checkout_pricing (env : Env) (c : list CartItem)
    (email name comp prod ph : option (list N)) :
  length (lineItems c) = length c
  /\ (forall i, lineItems c !! i = lineItem <$> c !! i)
  /\ (forall item, unit_amount (lineItem item) = 3000%Z
                   /\ quantity (lineItem item) = 1%Z)
  /\ amount_charged (lineItems c) = (Z.of_nat (length c) * 3000)%Z
  /\ totalAmount c = (Z.of_nat (length c) * 3000)%Z
  /\ exists p rest,
       trace (create_checkout_session env
                (mkCheckoutBody (Some c) email name comp prod ph))
       = SessionsCreate p :: rest
       /\ line_items p = lineItems c.
Proof.
  split; [apply length_map|]. split; [intros i; apply list_lookup_fmap|].
  split; [done|]. split; [apply amount_charged_lineItems|].
  split; [unfold totalAmount; lia|].
  unfold create_checkout_session, defined, try_catch, bind, call, ret, trace.
  cbn [cart fst snd app].
  destruct (sessions_create env _) as [e|sess]; cbn; eauto.
Qed.

End Pricing.

(* --------------------------------------------------------------------- *)
(** ** Payment verification                                                *)
(* --------------------------------------------------------------------- *)

Section Verification.

(** C4.  When the retrieved session's [payment_status] is not the string
    [paid], the handler answers 400 with the error [Payment not completed];
    the only call it makes is the retrieval, so no e-mail is sent. *)
Theorem verify_unpaid_no_notification (env : Env) (sessionId : list N) (s : Session) :
  sessions_retrieve env sessionId false = inr s ->
  payment_status s <> lit "paid" ->
  result (verify_payment env sessionId)
  = Returns (mkResponse 400 (Error (lit "Payment not completed")))
  /\ trace (verify_payment env sessionId) = [SessionsRetrieve sessionId false]
  /\ forall e, EmailsSend e ∉ trace (verify_payment env sessionId).
Proof.
  intros Hs Hst.
  assert (verify_payment env sessionId
          = ([SessionsRetrieve sessionId false],
             Returns (mkResponse 400 (Error (lit "Payment not completed"))))) as E.
  { unfold verify_payment, call. rewrite Hs. cbn [bind].
    by rewrite bool_decide_eq_false_2 by done. }
  rewrite E. split; [done|]. split; [done|].
  intros e He. cbn [trace fst] in He. apply list_elem_of_singleton in He. discriminate.
Qed.

Lemma verify_unpaid_no_notification_witness :
  result (verify_payment (sample_env None sample_unpaid) (lit "cs_test_1"))
  = Returns (mkResponse 400 (Error (lit "Payment not completed")))
  /\ trace (verify_payment (sample_env None sample_unpaid) (lit "cs_test_1"))
     = [SessionsRetrieve (lit "cs_test_1") false].
Proof.
  destruct (verify_unpaid_no_notification (sample_env None sample_unpaid)
              (lit "cs_test_1") sample_unpaid) as (H1 & H2 & _).
  - reflexivity.
  - vm_compute. discriminate.
  - split; [exact H1 | exact H2].
Defined.

(** The same session once paid: the confirmation is sent. *)
Example verify_paid_sends :
  exists e,
    trace (verify_payment (sample_env None (sample_checkout 1)) (lit "cs_test_1"))
    = [SessionsRetrieve (lit "cs_test_1") false; EmailsSend e; ConsoleLog]
    /\ result (verify_payment (sample_env None (sample_checkout 1)) (lit "cs_test_1"))
       = Returns (mkResponse 200
                    (Verified (lit "WM-00000000") (slots_json (slim (sample_cart 1)))
                       (Some (lit "ada@example.com")))).
Proof. eexists. by vm_compute. Qed.

End Verification.

(* --------------------------------------------------------------------- *)
(** ** Admin authentication and refunds                                    *)
(* --------------------------------------------------------------------- *)

Section Admin.

(** [adminAuth] answers 500, answers 401, or hands over to the handler. *)
Lemma adminAuth_cases (env : Env) (req : AdminRequest) (next : Eff response) :
  (truthy (ADMIN_PASSWORD env) = false
   /\ adminAuth env req next
      = json_status 500 (Error (lit "ADMIN_PASSWORD not configured")))
  \/ (truthy (ADMIN_PASSWORD env) = true
      /\ or_else (header_password req) (query_password req) <> ADMIN_PASSWORD env
      /\ adminAuth env req next
         = json_status 401 (Error (lit "Invalid admin password")))
  \/ (truthy (ADMIN_PASSWORD env) = true
      /\ or_else (header_password req) (query_password req) = ADMIN_PASSWORD env
      /\ adminAuth env req next = next).
Proof.
  unfold adminAuth. destruct (truthy (ADMIN_PASSWORD env)); cbn [negb]; [|by left].
  right. case_bool_decide; cbn [negb]; [right|left]; done.
Qed.

(** With no secret configured, every route behind [adminAuth] answers 500
    and makes no call, whatever password comes with the request. *)
Lemma guarded_routes_unconfigured (env : Env) (route : AdminRoute) (req : AdminRequest) :
  truthy (ADMIN_PASSWORD env) = false -> route <> POST_auth ->
  admin_endpoint env route req
  = ([], Returns (mkResponse 500 (Error (lit "ADMIN_PASSWORD not configured"))))
  /\ ~ authenticated env route req.
Proof.
  intros Hs Hr. unfold authenticated, admin_gate, admin_endpoint, adminAuth.
  rewrite Hs. cbn [negb]. by destruct route.
Qed.

(** [POST /api/admin/auth] has no such guard: it never answers 500, and with
    no secret configured it accepts exactly the bodies without a
    [password]. *)
Lemma admin_auth_unguarded (env : Env) (req : AdminRequest) :
  (admin_endpoint env POST_auth req = ([], Returns (mkResponse 200 Success))
   \/ admin_endpoint env POST_auth req
      = ([], Returns (mkResponse 401 (Error (lit "Invalid password")))))
  /\ (ADMIN_PASSWORD env = None ->
      (authenticated env POST_auth req <-> body_password req = None)).
Proof.
  cbn [admin_endpoint]. unfold authenticated, admin_gate, admin_auth.
  split.
  - destruct (same_password _ _); [by left|by right].
  - intros ->. unfold same_password, json_ok, json_status, ret, result.
    destruct (body_password req) as [v|]; cbn [snd]; split; try done.
    all: destruct v; discriminate.
Qed.

(** C3 fails on [POST /api/admin/auth]: with no secret configured, a body
    without a [password] is answered with success, and a body with any
    password with 401, not 500. *)
Theorem admin_auth_unconfigured_accepts :
  ADMIN_PASSWORD (sample_env None sample_bare) = None
  /\ admin_endpoint (sample_env None sample_bare) POST_auth
       (mkAdminRequest None None None)
     = ([], Returns (mkResponse 200 Success))
  /\ authenticated (sample_env None sample_bare) POST_auth
       (mkAdminRequest None None None)
  /\ admin_endpoint (sample_env None sample_bare) POST_auth
       (mkAdminRequest None None (Some (JStr (lit "guess"))))
     = ([], Returns (mkResponse 401 (Error (lit "Invalid password")))).
Proof. by vm_compute. Qed.

(** C7.  When the first charge of the retrieved session is marked refunded,
    the refund handler answers 400 with the error that the booking has
    already been refunded, and its only call is the retrieval; whatever the
    request's password, the route makes no refund-create call. *)
Theorem refund_already_refunded (env : Env) (sessionId : list N) (s : Session)
    (c : Charge) :
  sessions_retrieve env sessionId true = inr s ->
  first_charge s = Some c -> refunded c = true ->
  admin_refund env sessionId
  = ([SessionsRetrieve sessionId true],
     Returns (mkResponse 400 (Error (lit "This booking has already been refunded"))))
  /\ forall req,
       (forall p, RefundsCreate p ∉ trace (admin_endpoint env (POST_refund sessionId) req))
       /\ (authenticated env (POST_refund sessionId) req ->
           admin_endpoint env (POST_refund sessionId) req
           = ([SessionsRetrieve sessionId true],
              Returns (mkResponse 400
                         (Error (lit "This booking has already been refunded"))))).
Proof.
  intros Hs Hc Hr.
  assert (admin_refund env sessionId
          = ([SessionsRetrieve sessionId true],
             Returns (mkResponse 400
                        (Error (lit "This booking has already been refunded"))))) as E.
  { unfold admin_refund, call. rewrite Hs. cbn [bind].
    assert (has_payment_intent s = true) as ->.
    { unfold has_payment_intent. unfold first_charge in Hc.
      by destruct (payment_intent s). }
    assert (is_refunded s = true) as -> by (unfold is_refunded; by rewrite Hc).
    done. }
  split; [done|]. intros req. cbn [admin_endpoint].
  destruct (adminAuth_cases env req (admin_refund env sessionId))
    as [[Hcfg ->] | [(Hcfg & Hpw & ->) | (Hcfg & Hpw & ->)]].
  - split; [intros p Hp; by apply elem_of_nil in Hp|].
    unfold authenticated, admin_gate, adminAuth. by rewrite Hcfg.
  - split; [intros p Hp; by apply elem_of_nil in Hp|].
    unfold authenticated, admin_gate, adminAuth. rewrite Hcfg. cbn [negb].
    by rewrite bool_decide_eq_false_2 by done.
  - rewrite E. split; [|done].
    intros p Hp. cbn [trace fst] in Hp. apply list_elem_of_singleton in Hp. discriminate.
Qed.

Lemma refund_already_refunded_witness :
  admin_endpoint (sample_env (Some (lit "s3cret")) (sample_charged true))
    (POST_refund (lit "cs_test_1")) (mkAdminRequest (Some (lit "s3cret")) None None)
  = ([SessionsRetrieve (lit "cs_test_1") true],
     Returns (mkResponse 400 (Error (lit "This booking has already been refunded")))).
Proof.
  destruct (refund_already_refunded (sample_env (Some (lit "s3cret")) (sample_charged true))
              (lit "cs_test_1") (sample_charged true) (mkCharge true 3000)) as [_ H].
  - reflexivity.
  - reflexivity.
  - reflexivity.
  - apply (H (mkAdminRequest (Some (lit "s3cret")) None None)). by vm_compute.
Defined.

(** The same session before its refund: the processor is asked once. *)
Example refund_first_time :
  exists e,
    admin_endpoint (sample_env (Some (lit "s3cret")) (sample_charged false))
      (POST_refund (lit "cs_test_1")) (mkAdminRequest (Some (lit "s3cret")) None None)
    = ([SessionsRetrieve (lit "cs_test_1") true; RefundsCreate (lit "pi_1"); EmailsSend e],
       Returns (mkResponse 200 (Refunded (lit "re_1") (lit "30.00")))).
Proof. eexists. by vm_compute. Qed.

End Admin.

(* --------------------------------------------------------------------- *)
(** ** Calendar export                                                     *)
(* --------------------------------------------------------------------- *)

Section Calendar.







(** The two slots on offer, the two turns of the clock, and a slot late in
    the evening. *)
Example ics_hours_examples :
  (hours24 (lit "11:00 AM"), startHour (lit "11:00 AM"), endHour (lit "11:00 AM"))
    = (Some 11%Z, lit "11", lit "14")
  /\ (hours24 (lit "3:00 PM"), startHour (lit "3:00 PM"), endHour (lit "3:00 PM"))
    = (Some 15%Z, lit "15", lit "18")
  /\ (hours24 (lit "12:00 AM"), startHour (lit "12:00 AM"), endHour (lit "12:00 AM"))
    = (Some 0%Z, lit "00", lit "03")
  /\ (hours24 (lit "12:00 PM"), startHour (lit "12:00 PM"), endHour (lit "12:00 PM"))
    = (Some 12%Z, lit "12", lit "15")
  /\ (hours24 (lit "9:00 PM"), startHour (lit "9:00 PM"), endHour (lit "9:00 PM"))
    = (Some 21%Z, lit "21", lit "24")
  /\ (hours24 (lit "11:00 PM"), startHour (lit "11:00 PM"), endHour (lit "11:00 PM"))
    = (Some 23%Z, lit "23", lit "26").
Proof. by vm_compute. Qed.

(** The document for one decoded slot at 9 PM carries the hour 24. *)
Example ics_document_example :
  exists pre post,
    result (generateICS (sample_env None sample_bare)
              (slots_json [mkSlot (Some (lit "2026-03-03")) (Some (lit "9:00 PM"))
                             (Some (lit "Kentfield")) None])
              (Some (lit "Oat Co")) (Some (lit "Oat milk")))
    = Returns (pre ++ lit "DTSTART:20260303T210000" ++ nl
                   ++ lit "DTEND:20260303T240000" ++ nl ++ post).
Proof.
  eexists (ics_header ++ lit "BEGIN:VEVENT" ++ nl), _. by vm_compute.
Qed.

End Calendar.

(* --------------------------------------------------------------------- *)
(** ** Analytics: refunded sessions                                        *)
(* --------------------------------------------------------------------- *)


Section Analytics.

Variable env : Env.




Lemma cust_get_set k k' r cs :
  cust_get k (cust_set k' r cs) = if decide (k' = k) then Some r else cust_get k cs.
Proof.
  induction cs as [|[k0 r0] cs IH]; cbn [cust_set cust_get].
  - done.
  - destruct (decide (k0 = k')) as [->|Hne]; cbn [cust_get].
    + by destruct (decide (k' = k)).
    + rewrite IH. destruct (decide (k0 = k)) as [->|]; [|done].
      by destruct (decide (k' = k)).
Qed.




Lemma bind_ret {A B} (x : A) (k : A -> Eff B) : bind (ret x) k = k x.
Proof. unfold bind, ret. by destruct (k x). Qed.


Lemma bind_throw {A B} (e : exn) (k : A -> Eff B) : bind (throw e) k = throw e.
Proof. reflexivity. Qed.


(** The sessions the aggregates fold over are the paid, named and not
    refunded ones. *)
Lemma revenue_bearing_paid (s : Session) :
  revenue_bearing s = is_paid s && negb (is_refunded s).
Proof. reflexivity. Qed.

Lemma notRefunded_revenue (l : list Session) :
  notRefunded l = filter revenue_bearing l.
Proof.
  unfold notRefunded, paid. induction l as [|x l IH]; [done|].
  pose proof (revenue_bearing_paid x) as Hx.
  destruct (is_paid x) eqn:Hp; destruct (is_refunded x) eqn:Hr; cbn in Hx.
  - rewrite (filter_cons_True _ x) by (by rewrite Hp).
    rewrite (filter_cons_False _ x) by (rewrite Hr; cbn; tauto).
    rewrite (filter_cons_False _ x) by (rewrite Hx; cbn; tauto). done.
  - rewrite (filter_cons_True _ x) by (by rewrite Hp).
    rewrite (filter_cons_True _ x) by (by rewrite Hr).
    rewrite (filter_cons_True _ x) by (by rewrite Hx). by rewrite IH.
  - rewrite (filter_cons_False _ x) by (rewrite Hp; cbn; tauto).
    rewrite (filter_cons_False _ x) by (rewrite Hx; cbn; tauto). done.
  - rewrite (filter_cons_False _ x) by (rewrite Hp; cbn; tauto).
    rewrite (filter_cons_False _ x) by (rewrite Hx; cbn; tauto). done.
Qed.










End Analytics.



(* --------------------------------------------------------------------- *)
(** ** The pagination loop                                                 *)
(* --------------------------------------------------------------------- *)

Section Pagination.

Variable env : Env.

Lemma fetch_loop_S fuel allSessions startingAfter :
  fetch_loop env (S fuel) allSessions startingAfter
  = if (length allSessions <? 300)%nat then
      let params :=
        mkListParams 100 true
          (if truthy startingAfter then startingAfter else None) None in
      bind (call (SessionsList params) (sessions_list env params))
        (fun batch =>
           match last (data batch) with
           | Some s =>
               if has_more batch
               then fetch_loop env fuel (allSessions ++ data batch) (Some (session_id s))
               else ret (allSessions ++ data batch)
           | None =>
               if has_more batch then hang else ret (allSessions ++ data batch)
           end)
    else ret allSessions.
Proof. reflexivity. Qed.

Lemma fetch_loop_step fuel allSessions startingAfter :
  (300 <= fuel + length allSessions)%nat ->
  fetch_loop env (S (S fuel)) allSessions startingAfter
  = fetch_loop env (S fuel) allSessions startingAfter.
Proof.
  revert allSessions startingAfter.
  induction fuel as [|f IH]; intros allSessions startingAfter Hf.
  - rewrite !fetch_loop_S. by destruct (Nat.ltb_spec (length allSessions) 300); [lia|].
  - rewrite (fetch_loop_S (S (S f))), (fetch_loop_S (S f)).
    destruct (Nat.ltb_spec (length allSessions) 300); [|done].
    cbv zeta. unfold call.
    destruct (sessions_list env _) as [e|batch]; [done|]. unfold bind.
    destruct (last (data batch)) as [s|] eqn:El; [|done].
    destruct (has_more batch); [|done].
    rewrite IH; [done|].
    rewrite length_app. destruct (data batch); [done|]. cbn [length]. lia.
Qed.

(** The fuel of [fetch_all] is never used up: more fuel gives the same
    run. *)
Lemma fetch_all_fuel k : fetch_loop env (301 + k) [] None = fetch_all env.
Proof.
  induction k as [|k IH]; [done|].
  replace (301 + S k)%nat with (S (S (300 + k))) by lia.
  rewrite fetch_loop_step by lia. by replace (S (300 + k)) with (301 + k)%nat by lia.
Qed.

End Pagination.

(* --------------------------------------------------------------------- *)
(** ** Further properties: checkout                                        *)
(* --------------------------------------------------------------------- *)

Section CheckoutHandler.

Variable env : Env.

(** X1.  The three ways the checkout handler ends.  Without a cart it answers 500
    before any call; when the payment processor rejects the creation it
    answers 500 with the processor's error after that one call; otherwise it
    answers with the identifier and the address of the one session it
    created. *)
Theorem checkout_outcomes (b : CheckoutBody) :
  (cart b = None ->
     create_checkout_session env b
     = ([ConsoleError], Returns (mkResponse 500 (ErrorTyped TypeError))))
  /\ (forall c e,
        cart b = Some c -> sessions_create env (create_params env b c) = inl e ->
        create_checkout_session env b
        = ([SessionsCreate (create_params env b c); ConsoleError],
           Returns (mkResponse 500 (ErrorTyped e))))
  /\ (forall c session,
        cart b = Some c -> sessions_create env (create_params env b c) = inr session ->
        create_checkout_session env b
        = ([SessionsCreate (create_params env b c)],
           Returns (mkResponse 200
                      (Checkout (session_id session) (session_url session))))).
Proof.
  unfold create_checkout_session. split; [|split].
  - by intros ->.
  - intros c e -> He. cbn [defined bind ret app]. unfold call. by rewrite He.
  - intros c session -> Hs. cbn [defined bind ret app]. unfold call. by rewrite Hs.
Qed.

(** X2.  The booking payload never overwrites the customer's details: whatever
    the cart, the metadata holds the four fields as they were given, a field
    that was not given being absent. *)
Theorem checkout_metadata_details (cn co p ph : option (list N)) (c : list CartItem) :
  checkout_metadata cn co p ph c !! lit "customerName" = cn
  /\ checkout_metadata cn co p ph c !! lit "company" = co
  /\ checkout_metadata cn co p ph c !! lit "product" = p
  /\ checkout_metadata cn co p ph c !! lit "phone" = ph.
Proof.
  assert (forall k v m, set_prop k v m !! k = v) as Hset.
  { intros k v m. unfold set_prop. destruct v.
    - apply lookup_insert_eq.
    - apply lookup_delete_eq. }
  assert (forall k meta, detail_key k ->
            store_bookings (bookings_blob c) meta !! k = meta !! k) as Hkeep.
  { intros k meta Hk. unfold store_bookings.
    destruct (length (bookings_blob c) <=? 500)%nat.
    - rewrite lookup_insert_ne; [done|].
      intros E. destruct Hk as [-> | [-> | [-> | ->]]]; discriminate.
    - rewrite lookup_insert_ne.
      + apply chunk_loop_other. intros j E. symmetry in E.
        by apply (chunk_key_not_detail j k).
      + intros E. destruct Hk as [-> | [-> | [-> | ->]]]; discriminate. }
  unfold checkout_metadata.
  rewrite !Hkeep by (unfold detail_key; tauto).
  repeat split.
  - by rewrite !set_prop_ne by done.
  - by rewrite !set_prop_ne by done.
  - by rewrite !set_prop_ne by done.
  - done.
Qed.

End CheckoutHandler.

Lemma checkout_outcomes_witness :
  create_checkout_session (sample_env_down None sample_outage) (sample_body 2)
  = ([SessionsCreate (create_params (sample_env_down None sample_outage)
                        (sample_body 2) (sample_cart 2));
      ConsoleError],
     Returns (mkResponse 500 (ErrorTyped sample_outage)))
  /\ create_checkout_session (sample_env None (sample_checkout 2)) (sample_body 2)
     = ([SessionsCreate (create_params (sample_env None (sample_checkout 2))
                           (sample_body 2) (sample_cart 2))],
        Returns (mkResponse 200 (Checkout (lit "cs_test_1") None))).
Proof.
  split.
  - destruct (checkout_outcomes (sample_env_down None sample_outage) (sample_body 2))
      as (_ & H & _).
    apply H; reflexivity.
  - destruct (checkout_outcomes (sample_env None (sample_checkout 2)) (sample_body 2))
      as (_ & _ & H).
    apply (H (sample_cart 2) (sample_checkout 2)); reflexivity.
Defined.

(* --------------------------------------------------------------------- *)
(** ** Further properties: the two decoders, the calendar, verification    *)
(* --------------------------------------------------------------------- *)

(* --------------------------------------------------------------------- *)
(** ** Further properties: the two decoders, the calendar, verification    *)
(* --------------------------------------------------------------------- *)

Section Confirmation.

Variable env : Env.

(** X3.  The decoder of the admin endpoints is the decode of the verify-payment
    handler inside a [try] whose [catch] returns the empty list: run on the
    same metadata the two return the same value, or never return together,
    and where the second throws the first returns [[]].  When the loop ends
    as [iterations] has it (it is not entered, or the sentinel is at most
    [2^53]), both return what the pure decoders give.  With no [bookings]
    and a sentinel above [2^53 + 1], neither returns. *)
Theorem extractBookings_verify_decode (s : Session) :
  extractBookings_run s
  = try_catch (verify_decode_run (metadata s)) (fun _ => ret (JArr []))
  /\ (loop_ends (metadata s) = true ->
      extractBookings_run s = ret (extractBookings s)
      /\ verify_decode_run (metadata s)
         = match verify_decode (metadata s) with
           | Some v => ret v
           | None => throw SyntaxError
           end
      /\ extractBookings s = default (JArr []) (verify_decode (metadata s)))
  /\ (forall z,
        truthy (metadata s !! lit "bookings") = false ->
        parseInt_opt (metadata s !! lit "bookings_chunks") = Some z ->
        (2 ^ 53 + 1 < z)%Z ->
        extractBookings_run s = hang /\ verify_decode_run (metadata s) = hang).
Proof.
  split; [apply run_decoders_agree|]. split.
  - intros H. split; [by apply extractBookings_run_ends|].
    split; [by apply verify_decode_run_ends|apply extractBookings_default].
  - intros z Hb Hz Hbig. by apply (run_decoders_hang s z).
Qed.

Lemma to_date_cases (d : option json) :
  to_date env d = if convertible d then ret (date_of_value env d) else throw TypeError.
Proof. reflexivity. Qed.

Lemma ics_item_outcome co p index item :
  exists text,
    ics_item env co p index item
    = if calendar_item item then ret text else throw TypeError.
Proof.
  unfold ics_item, calendar_item, has_time, member, prop, to_date, to_text.
  destruct item as [| | | | |o]; try (by exists []).
  rewrite bind_ret.
  destruct (convertible (obj_get (lit "date") o));
    [rewrite bind_ret|rewrite bind_throw, andb_false_r; by exists []].
  rewrite bind_ret.
  destruct (obj_get (lit "time") o) as [[| | |s| |]|]; try (by exists []).
  rewrite bind_ret. cbn [andb].
  destruct (convertible (obj_get (lit "location") o));
    [rewrite bind_ret|rewrite bind_throw; by exists []].
  eexists. reflexivity.
Qed.

Lemma ics_events_outcome co p index items :
  exists text,
    ics_events env co p index items
    = if forallb calendar_item items then ret text else throw TypeError.
Proof.
  revert index. induction items as [|item items IH]; intros index.
  - by exists [].
  - cbn [ics_events forallb].
    destruct (ics_item_outcome co p index item) as [t1 ->].
    destruct (calendar_item item); cbn [andb]; [|by exists []].
    rewrite bind_ret. destruct (IH (S index)) as [t2 ->].
    destruct (forallb calendar_item items); [|by exists []].
    rewrite bind_ret. eexists. reflexivity.
Qed.

Lemma generateICS_cases (bookings : json) (co p : option (list N)) :
  exists events,
    generateICS env bookings co p
    = if usable_bookings bookings
      then ret (ics_header ++ events ++ lit "END:VCALENDAR")
      else throw TypeError.
Proof.
  unfold generateICS, usable_bookings, array_items.
  destruct bookings as [| | | |items|]; try (by exists []).
  rewrite bind_ret. destruct (ics_events_outcome co p 0 items) as [t ->].
  destruct (forallb calendar_item items); [|by exists []].
  rewrite bind_ret. eexists. reflexivity.
Qed.

(** X4.  [generateICS] makes no call.  It returns a document, the header, the
    events and the closing line, exactly when the bookings are an array of
    objects whose [time] is a string and whose [date] and [location]
    convert to a primitive; for anything else (a value that is not an
    array, a [null] item, a missing or non-string [time], a [date] or
    [location] that is an object with a [toString] member of its own) it
    throws a [TypeError].  No bookings give the header and the closing
    line. *)
Theorem generateICS_outcome (bookings : json) (co p : option (list N)) :
  (exists events,
     generateICS env bookings co p
     = if usable_bookings bookings
       then ret (ics_header ++ events ++ lit "END:VCALENDAR")
       else throw TypeError)
  /\ generateICS env (JArr []) co p = ret (ics_header ++ lit "END:VCALENDAR").
Proof.
  split; [|done].
  unfold generateICS, usable_bookings, array_items.
  destruct bookings as [| | | |items|]; try (by exists []).
  rewrite bind_ret. destruct (ics_events_outcome co p 0 items) as [t ->].
  destruct (forallb calendar_item items); [|by exists []].
  rewrite bind_ret. eexists. reflexivity.
Qed.

Lemma email_row_outcome item :
  exists row,
    email_row env item = if row_item item then ret row else throw TypeError.
Proof.
  unfold email_row, row_item, member, prop, to_text.
  destruct item as [| | | | |o];
    try (rewrite !bind_ret; cbn [convertible andb]; rewrite !bind_ret;
         eexists; reflexivity).
  - by exists ([], [], []).
  - rewrite bind_ret.
    destruct (convertible (obj_get (lit "displayDate") o)); cbn [andb];
      [rewrite bind_ret|by exists ([], [], [])].
    rewrite bind_ret.
    destruct (convertible (obj_get (lit "time") o)); cbn [andb];
      [rewrite bind_ret|by exists ([], [], [])].
    rewrite bind_ret.
    destruct (convertible (obj_get (lit "location") o)); cbn [andb];
      [rewrite bind_ret|by exists ([], [], [])].
    eexists. reflexivity.
Qed.

Lemma email_rows_outcome items :
  exists rows,
    map_eff (email_row env) items
    = if forallb row_item items then ret rows else throw TypeError.
Proof.
  induction items as [|item items [rows IH]]; [by exists []|].
  cbn [map_eff forallb]. rewrite IH.
  destruct (email_row_outcome item) as [row ->].
  destruct (row_item item); cbn [andb]; [|by exists []].
  rewrite bind_ret.
  destruct (forallb row_item items); [exists (row :: rows)|exists []]; reflexivity.
Qed.

Lemma mail_item_parts item :
  mail_item item = row_item item && calendar_item item.
Proof.
  unfold mail_item, row_item, calendar_item, has_time, member.
  destruct item as [| | | | |o]; try done.
  destruct (obj_get (lit "time") o) as [[| | |s| |]|];
    cbn [convertible printable andb]; rewrite ?andb_false_r; try done.
  destruct (convertible (obj_get (lit "displayDate") o)),
    (convertible (obj_get (lit "date") o)),
    (convertible (obj_get (lit "location") o)); done.
Qed.

Lemma mail_bookings_parts items :
  forallb mail_item items = forallb row_item items && forallb calendar_item items.
Proof.
  induction items as [|item items IH]; [done|]. cbn [forallb].
  rewrite IH, mail_item_parts.
  destruct (row_item item), (calendar_item item), (forallb row_item items),
    (forallb calendar_item items); done.
Qed.

(** The confirmation e-mail is best effort: with usable bookings exactly one
    send is attempted, and a rejected send is logged and not thrown. *)
Lemma sendConfirmationEmail_usable (to_ co p : option (list N)) (bookings : json)
    (number total : list N) :
  mail_bookings bookings = true ->
  exists mail,
    to mail = to_
    /\ subject mail = lit "Demo Confirmed - " ++ number
    /\ sendConfirmationEmail env to_ co p bookings number total
       = ([EmailsSend mail;
           match emails_send env mail with inr _ => ConsoleLog | inl _ => ConsoleError end],
          Returns tt).
Proof.
  intros Hu. unfold sendConfirmationEmail.
  destruct (generateICS_cases bookings co p) as [events Hics]. rewrite Hics.
  destruct bookings as [| | | |items|]; try done.
  cbn [mail_bookings usable_bookings] in *.
  rewrite mail_bookings_parts in Hu. apply andb_true_iff in Hu as [Hrows Hcal].
  cbn [array_items]. rewrite bind_ret.
  destruct (email_rows_outcome items) as [rows ->].
  rewrite Hrows, Hcal, !bind_ret.
  exists (mkEmail to_ (lit "Demo Confirmed - " ++ number)
            [number; text co; text p; total] rows
            (Some (ics_header ++ events ++ lit "END:VCALENDAR"))).
  split; [done|]. split; [done|].
  unfold call, try_catch, log, bind, ret.
  destruct (emails_send env _) as [e|[]]; reflexivity.
Qed.

Lemma sendConfirmationEmail_unusable (to_ co p : option (list N)) (bookings : json)
    (number total : list N) :
  mail_bookings bookings = false ->
  sendConfirmationEmail env to_ co p bookings number total = throw TypeError.
Proof.
  intros Hu. unfold sendConfirmationEmail.
  destruct (generateICS_cases bookings co p) as [events Hics]. rewrite Hics.
  destruct bookings as [| | | |items|]; try done.
  cbn [mail_bookings usable_bookings] in *.
  rewrite mail_bookings_parts in Hu.
  cbn [array_items]. rewrite bind_ret.
  destruct (email_rows_outcome items) as [rows ->].
  destruct (forallb row_item items); [|done]. cbn [andb] in Hu.
  by rewrite Hu, bind_ret.
Qed.

(** X5.  A paid session whose decode ends with bookings the confirmation can be
    built from is verified whether or not the e-mail could be sent: the
    answer is 200 with the decoded bookings, after the retrieval and one
    attempted send to the customer's address. *)
Theorem verify_paid_best_effort (sessionId : list N) (s : Session) (bookings : json) :
  sessions_retrieve env sessionId false = inr s ->
  payment_status s = lit "paid" ->
  loop_ends (metadata s) = true ->
  verify_decode (metadata s) = Some bookings ->
  mail_bookings bookings = true ->
  exists mail,
    to mail = customer_email s
    /\ verify_payment env sessionId
       = ([SessionsRetrieve sessionId false; EmailsSend mail;
           match emails_send env mail with inr _ => ConsoleLog | inl _ => ConsoleError end],
          Returns (mkResponse 200
                     (Verified (confirmation_number env) bookings (customer_email s)))).
Proof.
  intros Hs Hp He Hd Hu. unfold verify_payment, call. rewrite Hs. cbn [bind].
  rewrite bool_decide_eq_true_2 by done.
  rewrite (verify_decode_run_ends _ He), Hd, bind_ret.
  destruct (sendConfirmationEmail_usable (customer_email s)
              (metadata s !! lit "company") (metadata s !! lit "product") bookings
              (confirmation_number env) (toFixed2 env [amount_total s]) Hu)
    as (mail & Hto & _ & ->).
  exists mail. split; [done|]. reflexivity.
Qed.

(** X6.  The ways verification fails, none of which sends an e-mail.  It answers
    500 when the retrieval is rejected, when the decode of a paid session
    ends with a text that does not parse, and when it ends with something
    the confirmation cannot be built from (not an array, a [null] item, a
    slot without a string [time], a field that does not convert).  It never
    answers when the session is paid, has no [bookings], and its sentinel is
    above [2^53 + 1]: the loop of the decode does not end. *)
Theorem verify_failures (sessionId : list N) :
  (forall e, sessions_retrieve env sessionId false = inl e ->
     verify_payment env sessionId
     = ([SessionsRetrieve sessionId false; ConsoleError],
        Returns (mkResponse 500 (ErrorOf e))))
  /\ (forall s, sessions_retrieve env sessionId false = inr s ->
        payment_status s = lit "paid" ->
        loop_ends (metadata s) = true ->
        verify_decode (metadata s) = None ->
        verify_payment env sessionId
        = ([SessionsRetrieve sessionId false; ConsoleError],
           Returns (mkResponse 500 (ErrorOf SyntaxError))))
  /\ (forall s bookings, sessions_retrieve env sessionId false = inr s ->
        payment_status s = lit "paid" ->
        loop_ends (metadata s) = true ->
        verify_decode (metadata s) = Some bookings ->
        mail_bookings bookings = false ->
        verify_payment env sessionId
        = ([SessionsRetrieve sessionId false; ConsoleError],
           Returns (mkResponse 500 (ErrorOf TypeError))))
  /\ (forall s z, sessions_retrieve env sessionId false = inr s ->
        payment_status s = lit "paid" ->
        truthy (metadata s !! lit "bookings") = false ->
        parseInt_opt (metadata s !! lit "bookings_chunks") = Some z ->
        (2 ^ 53 + 1 < z)%Z ->
        verify_payment env sessionId = ([SessionsRetrieve sessionId false], Hangs)).
Proof.
  unfold verify_payment, call. split; [|split; [|split]].
  - by intros e ->.
  - intros s -> Hp He Hd. cbn [bind]. rewrite bool_decide_eq_true_2 by done.
    by rewrite (verify_decode_run_ends _ He), Hd.
  - intros s bookings -> Hp He Hd Hu. cbn [bind].
    rewrite bool_decide_eq_true_2 by done.
    rewrite (verify_decode_run_ends _ He), Hd, bind_ret.
    by rewrite sendConfirmationEmail_unusable.
  - intros s z -> Hp Hb Hz Hbig. cbn [bind].
    rewrite bool_decide_eq_true_2 by done.
    destruct (run_decoders_hang s z Hb Hz Hbig) as [_ ->]. done.
Qed.

End Confirmation.

Lemma verify_paid_best_effort_witness :
  exists mail,
    to mail = Some (lit "ada@example.com")
    /\ verify_payment (sample_env_no_mail None (sample_checkout 1) sample_outage)
         (lit "cs_test_1")
       = ([SessionsRetrieve (lit "cs_test_1") false; EmailsSend mail; ConsoleError],
          Returns (mkResponse 200
                     (Verified (lit "WM-00000000") (slots_json (slim (sample_cart 1)))
                        (Some (lit "ada@example.com"))))).
Proof.
  destruct (verify_paid_best_effort
              (sample_env_no_mail None (sample_checkout 1) sample_outage)
              (lit "cs_test_1") (sample_checkout 1) (slots_json (slim (sample_cart 1))))
    as (mail & Hto & H).
  - reflexivity.
  - reflexivity.
  - reflexivity.
  - vm_compute. reflexivity.
  - vm_compute. reflexivity.
  - exists mail. split; [exact Hto | exact H].
Defined.

Lemma verify_failures_witness :
  verify_payment (sample_env_down None sample_outage) (lit "cs_test_1")
  = ([SessionsRetrieve (lit "cs_test_1") false; ConsoleError],
     Returns (mkResponse 500 (ErrorOf sample_outage)))
  /\ verify_payment (sample_env None sample_malformed) (lit "cs_test_1")
     = ([SessionsRetrieve (lit "cs_test_1") false; ConsoleError],
        Returns (mkResponse 500 (ErrorOf SyntaxError)))
  /\ verify_payment (sample_env None sample_no_time) (lit "cs_test_1")
     = ([SessionsRetrieve (lit "cs_test_1") false; ConsoleError],
        Returns (mkResponse 500 (ErrorOf TypeError)))
  /\ verify_payment (sample_env None sample_unbounded) (lit "cs_test_1")
     = ([SessionsRetrieve (lit "cs_test_1") false], Hangs).
Proof.
  split; [|split; [|split]].
  - destruct (verify_failures (sample_env_down None sample_outage) (lit "cs_test_1"))
      as (H & _).
    apply H. reflexivity.
  - destruct (verify_failures (sample_env None sample_malformed) (lit "cs_test_1"))
      as (_ & H & _).
    apply (H sample_malformed); reflexivity.
  - destruct (verify_failures (sample_env None sample_no_time) (lit "cs_test_1"))
      as (_ & _ & H & _).
    apply (H sample_no_time
             (JArr [JObj [(lit "date", JStr (lit "2026-03-03"));
                          (lit "location", JStr (lit "Kentfield"));
                          (lit "displayDate", JStr (lit "Tuesday, March 3"))]])).
    + reflexivity.
    + reflexivity.
    + reflexivity.
    + vm_compute. reflexivity.
    + vm_compute. reflexivity.
  - destruct (verify_failures (sample_env None sample_unbounded) (lit "cs_test_1"))
      as (_ & _ & _ & H).
    apply (H sample_unbounded 10000000000000000%Z).
    + reflexivity.
    + reflexivity.
    + reflexivity.
    + vm_compute. reflexivity.
    + vm_compute. reflexivity.
Defined.

Section TwelveHourClock.

(** X7.  The conversion of a twelve-hour label.  When the text before the colon
    reads as an hour from 1 to 12, the start hour is that hour, with 12
    counted as 0, plus 12 when the label contains [PM]; it lies between 0
    and 23. *)
Theorem hours24_twelve_hour (t : list N) (h : Z) :
  parseInt (before_colon t) = Some h -> (1 <= h <= 12)%Z ->
  hours24 t = Some (h mod 12 + (if includes (lit "PM") t then 12 else 0))%Z
  /\ (0 <= h mod 12 + (if includes (lit "PM") t then 12 else 0) <= 23)%Z.
Proof.
  intros Hp Hh. unfold hours24. rewrite Hp. cbn [num_is].
  destruct (includes (lit "PM") t); cbn [andb negb];
    destruct (Z.eqb_spec h 12) as [->|Hne]; cbn [negb num_plus num_is].
  - by vm_compute.
  - rewrite Z.mod_small by lia. split; [done|lia].
  - by vm_compute.
  - rewrite (proj2 (Z.eqb_neq h 12) Hne), Z.mod_small by lia.
    split; [by rewrite Z.add_0_r|lia].
Qed.

Lemma hours24_twelve_hour_witness :
  hours24 (lit "3:00 PM") = Some 15%Z /\ hours24 (lit "12:00 AM") = Some 0%Z.
Proof.
  split.
  - destruct (hours24_twelve_hour (lit "3:00 PM") 3) as [H _].
    + vm_compute. reflexivity.
    + lia.
    + exact H.
  - destruct (hours24_twelve_hour (lit "12:00 AM") 12) as [H _].
    + vm_compute. reflexivity.
    + lia.
    + exact H.
Defined.

End TwelveHourClock.

(* --------------------------------------------------------------------- *)
(** ** Further properties: the admin gate                                  *)
(* --------------------------------------------------------------------- *)

Section AdminGate.

Variable env : Env.

(** X8.  The gate of the routes behind [adminAuth].  A request is let through
    exactly when a non-empty secret is configured and the header's password,
    or the query's when the header has none, equals it.  A request that is
    not let through is answered 401 or 500 and causes no call.  A non-empty
    header decides alone: the query's password is then not looked at. *)
Theorem guarded_route_gate (route : AdminRoute) (req : AdminRequest) :
  route <> POST_auth ->
  (authenticated env route req <->
     truthy (ADMIN_PASSWORD env) = true
     /\ or_else (header_password req) (query_password req) = ADMIN_PASSWORD env)
  /\ (~ authenticated env route req ->
      exists r, admin_endpoint env route req = ([], Returns r)
                /\ (status r = 401 \/ status r = 500)%nat)
  /\ (forall req', truthy (header_password req) = true ->
        header_password req' = header_password req ->
        admin_endpoint env route req' = admin_endpoint env route req).
Proof.
  intros Hr.
  assert (forall next, admin_endpoint env route req = adminAuth env req next ->
            (authenticated env route req <->
               truthy (ADMIN_PASSWORD env) = true
               /\ or_else (header_password req) (query_password req)
                  = ADMIN_PASSWORD env)
            /\ (~ authenticated env route req ->
                exists r, admin_endpoint env route req = ([], Returns r)
                          /\ (status r = 401 \/ status r = 500)%nat)) as Hgate.
  { intros next ->.
    assert (authenticated env route req
            = (result (adminAuth env req (json_ok Success))
               = Returns (mkResponse 200 Success))) as -> by (by destruct route).
    destruct (adminAuth_cases env req (json_ok Success))
      as [[Hcfg Hok] | [(Hcfg & Hpw & Hok) | (Hcfg & Hpw & Hok)]];
      destruct (adminAuth_cases env req next)
        as [[Hcfg' ->] | [(Hcfg' & Hpw' & ->) | (Hcfg' & Hpw' & ->)]];
      try congruence; rewrite Hok; split.
    - split; [discriminate|]. intros [? _]. congruence.
    - intros _. eexists. split; [reflexivity|]. by right.
    - split; [discriminate|]. intros [_ ?]. congruence.
    - intros _. eexists. split; [reflexivity|]. by left.
    - done.
    - intros H. by destruct H. }
  split; [|split].
  - destruct route; try done; eapply Hgate; reflexivity.
  - destruct route; try done; eapply Hgate; reflexivity.
  - intros req' Ht Hh.
    assert (forall next, adminAuth env req' next = adminAuth env req next) as Hsame.
    { intros next. unfold adminAuth, or_else. rewrite Hh. by rewrite Ht. }
    destruct route; try done; cbn [admin_endpoint]; apply Hsame.
Qed.

(** X9.  [POST /api/admin/auth] with a secret configured: it answers with success
    exactly when the body's [password] is the string equal to the secret,
    and with 401 otherwise; it makes no call and does not look at the
    header or the query. *)
Theorem admin_auth_configured (req : AdminRequest) (secret : list N) :
  ADMIN_PASSWORD env = Some secret ->
  (authenticated env POST_auth req <-> body_password req = Some (JStr secret))
  /\ (body_password req = Some (JStr secret) ->
      admin_endpoint env POST_auth req = ([], Returns (mkResponse 200 Success)))
  /\ (body_password req <> Some (JStr secret) ->
      admin_endpoint env POST_auth req
      = ([], Returns (mkResponse 401 (Error (lit "Invalid password"))))).
Proof.
  intros Hs. cbn [admin_endpoint]. unfold authenticated, admin_gate, admin_auth.
  rewrite Hs. unfold same_password.
  destruct (body_password req) as [[| | |p| |]|];
    try (split; [split; [discriminate|discriminate]|split; [discriminate|done]]).
  case_bool_decide as Hp.
  - subst p. split; [done|]. split; [done|]. by intros [].
  - split; [|split]; [split; [discriminate|congruence]|congruence|done].
Qed.

End AdminGate.

Lemma guarded_route_gate_witness :
  authenticated (sample_env (Some (lit "s3cret")) sample_bare) GET_stats
    (mkAdminRequest (Some (lit "s3cret")) (Some (lit "wrong")) None)
  /\ ~ authenticated (sample_env (Some (lit "s3cret")) sample_bare) GET_stats
         (mkAdminRequest (Some (lit "wrong")) (Some (lit "s3cret")) None).
Proof.
  split.
  - destruct (guarded_route_gate (sample_env (Some (lit "s3cret")) sample_bare) GET_stats
                (mkAdminRequest (Some (lit "s3cret")) (Some (lit "wrong")) None))
      as (H & _).
    + vm_compute. discriminate.
    + apply H. split; reflexivity.
  - destruct (guarded_route_gate (sample_env (Some (lit "s3cret")) sample_bare) GET_stats
                (mkAdminRequest (Some (lit "wrong")) (Some (lit "s3cret")) None))
      as (H & _).
    + vm_compute. discriminate.
    + intros Ha. apply H in Ha as [_ Ha]. vm_compute in Ha. discriminate.
Defined.

Lemma admin_auth_configured_witness :
  admin_endpoint (sample_env (Some (lit "s3cret")) sample_bare) POST_auth
    (mkAdminRequest None None (Some (JStr (lit "s3cret"))))
  = ([], Returns (mkResponse 200 Success))
  /\ admin_endpoint (sample_env (Some (lit "s3cret")) sample_bare) POST_auth
       (mkAdminRequest (Some (lit "s3cret")) None None)
     = ([], Returns (mkResponse 401 (Error (lit "Invalid password")))).
Proof.
  split.
  - destruct (admin_auth_configured (sample_env (Some (lit "s3cret")) sample_bare)
                (mkAdminRequest None None (Some (JStr (lit "s3cret")))) (lit "s3cret"))
      as (_ & H & _); [reflexivity|].
    apply H. reflexivity.
  - destruct (admin_auth_configured (sample_env (Some (lit "s3cret")) sample_bare)
                (mkAdminRequest (Some (lit "s3cret")) None None) (lit "s3cret"))
      as (_ & _ & H); [reflexivity|].
    apply H. vm_compute. discriminate.
Defined.


(* --------------------------------------------------------------------- *)
(** ** Further properties: listing, stats and refunds                      *)
(* --------------------------------------------------------------------- *)

Section ListingAndStats.

Variable env : Env.

Lemma is_paid_fields (s : Session) :
  is_paid s = true ->
  payment_status s = lit "paid"
  /\ truthy (metadata s !! lit "customerName") = true.
Proof.
  unfold is_paid. intros [H1 H2]%andb_true_iff.
  by apply bool_decide_eq_true in H1.
Qed.

Lemma filter_is_paid (l : list Session) :
  Forall (fun s => is_paid s = true) (filter is_paid l).
Proof.
  apply Forall_forall. intros s Hs. apply list_elem_of_filter in Hs as [Hs _].
  by destruct (is_paid s).
Qed.

Lemma booking_record_pure (s : Session) :
  booking_record env s = hang \/ exists r, booking_record env s = ret r.
Proof.
  unfold booking_record.
  destruct (extractBookings_run_pure s) as [->|[v ->]]; [by left|right].
  rewrite bind_ret. eauto.
Qed.

Lemma map_eff_hangs {A B} (f : A -> Eff B) (l : list A) :
  (forall x, f x = hang \/ exists y, f x = ret y) ->
  Exists (fun x => f x = hang) l -> map_eff f l = hang.
Proof.
  intros Hf H. induction H as [x l Hx|x l Hl IH]; cbn [map_eff].
  - by rewrite Hx.
  - destruct (Hf x) as [->|[y ->]]; [done|]. by rewrite bind_ret, IH.
Qed.

Lemma map_eff_returns {A B} (f : A -> Eff B) (R : B -> A -> Prop) (l : list A) :
  Forall (fun x => exists y, f x = ret y /\ R y x) l ->
  exists ys, map_eff f l = ret ys /\ Forall2 R ys l.
Proof.
  induction 1 as [|x l (y & Hy & HR) Hl (ys & Hys & HRs)]; cbn [map_eff].
  - exists []. by split.
  - exists (y :: ys). rewrite Hy, bind_ret, Hys, bind_ret. split; [done|].
    by constructor.
Qed.

(** X10.  The listing is resilient to corrupt payloads, and to them only.
    Whenever the list call succeeds and the decode of every listed session
    ends, it answers 200 with one record for every session that is paid and
    carries a customer name, in the order of the sessions, whatever else
    their metadata holds; a record carries what [extractBookings] gives and
    is marked refunded exactly when the session's first charge is.  A
    rejected list call is answered 500 with the processor's error.  When the
    decode of one listed session never ends, the listing never answers. *)
Theorem admin_bookings_outcome :
  (forall e, sessions_list env (mkListParams 100 true None None) = inl e ->
     admin_bookings env
     = ([SessionsList (mkListParams 100 true None None); ConsoleError],
        Returns (mkResponse 500 (ErrorOf e))))
  /\ (forall batch, sessions_list env (mkListParams 100 true None None) = inr batch ->
        forallb decodes (filter is_paid (data batch)) = true ->
        exists l,
          admin_bookings env
          = ([SessionsList (mkListParams 100 true None None)],
             Returns (mkResponse 200 (Bookings l)))
          /\ Forall2 (fun r s =>
                        payment_status s = lit "paid"
                        /\ truthy (metadata s !! lit "customerName") = true
                        /\ br_id r = session_id s
                        /\ br_bookings r = extractBookings s
                        /\ (br_status r = lit "refunded" <-> is_refunded s = true)
                        /\ (br_status r = lit "confirmed" <-> is_refunded s = false))
                     l (filter is_paid (data batch)))
  /\ (forall batch, sessions_list env (mkListParams 100 true None None) = inr batch ->
        Exists (fun s => extractBookings_run s = hang) (filter is_paid (data batch)) ->
        admin_bookings env
        = ([SessionsList (mkListParams 100 true None None)], Hangs)).
Proof.
  unfold admin_bookings, call. split; [|split].
  - by intros e ->.
  - intros batch -> Hd. cbn [bind].
    destruct (map_eff_returns (booking_record env)
                (fun r s =>
                   payment_status s = lit "paid"
                   /\ truthy (metadata s !! lit "customerName") = true
                   /\ br_id r = session_id s
                   /\ br_bookings r = extractBookings s
                   /\ (br_status r = lit "refunded" <-> is_refunded s = true)
                   /\ (br_status r = lit "confirmed" <-> is_refunded s = false))
                (filter is_paid (data batch))) as (l & -> & Hl).
    { apply forallb_Forall in Hd. pose proof (filter_is_paid (data batch)) as Hp.
      induction Hp as [|s l Hs Hl IH]; [constructor|].
      apply Forall_cons in Hd as [Hds Hdl]. constructor; [|by apply IH].
      unfold booking_record. rewrite (extractBookings_run_ends s Hds), bind_ret.
      eexists. split; [reflexivity|]. cbn.
      destruct (is_paid_fields s Hs) as [H1 H2].
      repeat split; try done; destruct (is_refunded s); try done; discriminate. }
    exists l. by rewrite bind_ret.
  - intros batch -> Hh. cbn [bind].
    rewrite (map_eff_hangs (booking_record env)); [done|apply booking_record_pure|].
    eapply Exists_impl; [exact Hh|]. intros s Hs. unfold booking_record.
    by rewrite Hs.
Qed.

Lemma stats_step_outcome (acc : option Z * list Z) (s : Session) :
  decodes s = true ->
  stats_step acc s
  = match extractBookings s with
    | JNull => throw TypeError
    | JArr items =>
        ret (js_add acc.1 (Some (Z.of_nat (length items))), acc.2 ++ [amount_total s])
    | JStr t =>
        ret (js_add acc.1 (Some (Z.of_nat (length t))), acc.2 ++ [amount_total s])
    | _ => ret (None, acc.2 ++ [amount_total s])
    end.
Proof.
  intros Hd. unfold stats_step. rewrite (extractBookings_run_ends s Hd), bind_ret.
  unfold payload_length.
  destruct (extractBookings s); rewrite ?bind_ret, ?bind_throw; try done;
    by destruct acc.1.
Qed.

Lemma stats_loop_arrays (l : list Session) (d : Z) (amounts : list Z) :
  Forall has_array l ->
  for_each stats_step l (Some d, amounts)
  = ret (Some (d + total_slots l)%Z, amounts ++ map amount_total l).
Proof.
  intros H. revert d amounts.
  induction H as [|s l [Hd [items Hs]] Hl IH]; intros d amounts.
  - cbn. by rewrite Z.add_0_r, app_nil_r.
  - cbn [for_each]. rewrite (stats_step_outcome _ s Hd), Hs, bind_ret.
    cbn [fst snd js_add].
    rewrite IH. cbn [total_slots foldr map]. unfold slot_count at 1. rewrite Hs.
    change (foldr _ 0%Z l) with (total_slots l).
    rewrite <- app_assoc, Z.add_assoc. reflexivity.
Qed.

Lemma stats_loop_null (l : list Session) (acc : option Z * list Z) :
  Forall (fun s => decodes s = true) l ->
  Exists (fun s => extractBookings s = JNull) l ->
  for_each stats_step l acc = throw TypeError.
Proof.
  intros Hd H. revert acc. induction H as [s l Hs|s l Hl IH]; intros acc;
    apply Forall_cons in Hd as [Hds Hdl]; cbn [for_each];
    rewrite (stats_step_outcome _ s Hds).
  - by rewrite Hs.
  - destruct (extractBookings s); rewrite ?bind_ret, ?bind_throw; try done;
      by apply IH.
Qed.

(** X11.  The revenue split of the stats.  When the decode of every session of
    the month that is paid and named ends with an array, the handler
    answers with the total number [D] of slots, with [D * 20] and [D * 10]
    as the two shares, written with two decimals, and with the revenue
    summed over these sessions in order; the two shares add up to
    [D * 30]. *)
Theorem stats_revenue_split (batch : Batch) :
  sessions_list env (stats_params env) = inr batch ->
  Forall has_array (filter is_paid (data batch)) ->
  admin_stats env
  = ([SessionsList (stats_params env)],
     Returns (mkResponse 200 (Stats
       {| thisMonthDemos := Some (total_slots (filter is_paid (data batch)));
          totalRevenue := toFixed2 env (map amount_total (filter is_paid (data batch)));
          marketShare :=
            String_Z (total_slots (filter is_paid (data batch)) * 20) ++ lit ".00";
          grassrootsShare :=
            String_Z (total_slots (filter is_paid (data batch)) * 10) ++ lit ".00";
          demoFee := lit "30.00";
          marketPerDemo := lit "20.00";
          grassrootsPerDemo := lit "10.00" |})))
  /\ (total_slots (filter is_paid (data batch)) * 20
      + total_slots (filter is_paid (data batch)) * 10
      = total_slots (filter is_paid (data batch)) * 30)%Z.
Proof.
  intros Hl Ha. split; [|lia].
  unfold admin_stats. fold (stats_params env). unfold call. rewrite Hl.
  cbn [bind]. rewrite (stats_loop_arrays _ 0 [] Ha). by cbn.
Qed.

(** X12.  The stats are not resilient to a payload that is the JSON value [null].
    When the decode of every paid and named session of the month ends, with
    no payload that carries a [length] of its own, one session among them
    whose payload decodes to [null] makes the handler answer 500 with a
    [TypeError], reading [length] off it, after the one list call. *)
Theorem stats_null_payload (batch : Batch) :
  sessions_list env (stats_params env) = inr batch ->
  forallb (fun s => decodes s && plain_length s) (filter is_paid (data batch)) = true ->
  Exists (fun s => extractBookings s = JNull) (filter is_paid (data batch)) ->
  admin_stats env
  = ([SessionsList (stats_params env); ConsoleError],
     Returns (mkResponse 500 (ErrorOf TypeError))).
Proof.
  intros Hl Hc Hn. unfold admin_stats. fold (stats_params env). unfold call. rewrite Hl.
  assert (Forall (fun s => decodes s = true) (filter is_paid (data batch))) as Hd.
  { apply forallb_Forall in Hc. eapply Forall_impl; [exact Hc|].
    cbn. by intros s [H _]%andb_true_iff. }
  cbn [bind]. by rewrite (stats_loop_null _ _ Hd Hn).
Qed.

End ListingAndStats.

Lemma admin_bookings_outcome_witness :
  admin_bookings (sample_env_down None sample_outage)
  = ([SessionsList (mkListParams 100 true None None); ConsoleError],
     Returns (mkResponse 500 (ErrorOf sample_outage)))
  /\ (exists l,
        admin_bookings (sample_env None sample_null_payload)
        = ([SessionsList (mkListParams 100 true None None)],
           Returns (mkResponse 200 (Bookings l)))
        /\ length l = 1%nat)
  /\ admin_bookings (sample_env None sample_unbounded)
     = ([SessionsList (mkListParams 100 true None None)], Hangs).
Proof.
  split; [|split].
  - destruct (admin_bookings_outcome (sample_env_down None sample_outage)) as [H _].
    apply H. reflexivity.
  - destruct (admin_bookings_outcome (sample_env None sample_null_payload))
      as (_ & H & _).
    destruct (H (mkBatch [sample_null_payload] false)) as (l & Hl & Hf);
      [reflexivity|reflexivity|].
    exists l. split; [exact Hl|].
    apply Forall2_length in Hf. rewrite Hf. vm_compute. reflexivity.
  - destruct (admin_bookings_outcome (sample_env None sample_unbounded))
      as (_ & _ & H).
    apply (H (mkBatch [sample_unbounded] false)); [reflexivity|].
    change (Exists (fun s => extractBookings_run s = hang) [sample_unbounded]).
    apply Exists_cons_hd. vm_compute. reflexivity.
Defined.

Lemma stats_revenue_split_witness :
  exists r,
    admin_stats (sample_env None sample_refunded)
    = ([SessionsList (stats_params (sample_env None sample_refunded))],
       Returns (mkResponse 200 (Stats r)))
    /\ thisMonthDemos r = Some 2%Z
    /\ marketShare r = lit "40.00" /\ grassrootsShare r = lit "20.00".
Proof.
  destruct (stats_revenue_split (sample_env None sample_refunded)
              (mkBatch [sample_refunded] false)) as [H _].
  - reflexivity.
  - change (Forall has_array [sample_refunded]). constructor; [|constructor].
    split; [reflexivity|].
    exists (map slot_json (slim (sample_cart 2))). vm_compute. reflexivity.
  - eexists. split; [exact H|]. vm_compute. repeat split; reflexivity.
Defined.

Lemma stats_null_payload_witness :
  admin_stats (sample_env None sample_null_payload)
  = ([SessionsList (stats_params (sample_env None sample_null_payload)); ConsoleError],
     Returns (mkResponse 500 (ErrorOf TypeError))).
Proof.
  apply (stats_null_payload (sample_env None sample_null_payload)
           (mkBatch [sample_null_payload] false)).
  - reflexivity.
  - reflexivity.
  - apply Exists_cons_hd. vm_compute. reflexivity.
Defined.

Section RefundHandler.

Variable env : Env.

(** X13.  A refund goes through whether or not the cancellation e-mail could be
    sent, provided the decode of the session ends.  For a session with a
    payment intent whose first charge is not marked refunded, when the
    processor accepts the refund the handler then answers 200 with the
    refund's identifier and amount, after exactly one refund-create call
    for that payment intent and one attempted send to the customer; a
    rejected send is only logged.  When the session has no [bookings] and a
    sentinel above [2^53 + 1], the refund is created and the handler never
    answers: [extractBookings] is called before the send and does not
    return. *)
Theorem refund_best_effort (sessionId : list N) (s : Session) (r : Refund) :
  sessions_retrieve env sessionId true = inr s ->
  has_payment_intent s = true -> is_refunded s = false ->
  refunds_create env (default [] (payment_intent_ref s)) = inr r ->
  (loop_ends (metadata s) = true ->
   admin_refund env sessionId
   = ([SessionsRetrieve sessionId true;
       RefundsCreate (default [] (payment_intent_ref s));
       EmailsSend (cancellation_email env s r)]
      ++ match emails_send env (cancellation_email env s r) with
         | inl _ => [ConsoleError]
         | inr _ => []
         end,
      Returns (mkResponse 200
                 (Refunded (refund_id r) (toFixed2 env [refund_amount r])))))
  /\ (forall z,
        truthy (metadata s !! lit "bookings") = false ->
        parseInt_opt (metadata s !! lit "bookings_chunks") = Some z ->
        (2 ^ 53 + 1 < z)%Z ->
        admin_refund env sessionId
        = ([SessionsRetrieve sessionId true;
            RefundsCreate (default [] (payment_intent_ref s))], Hangs)).
Proof.
  intros Hs Hpi Hnr Hr. unfold admin_refund, call. rewrite Hs. cbn [bind].
  rewrite Hpi, Hnr. cbn [negb]. rewrite Hr. cbn [bind]. split.
  - intros He. rewrite (extractBookings_run_ends s He), bind_ret.
    unfold try_catch, log, json_ok, ret.
    by destruct (emails_send env (cancellation_email env s r)).
  - intros z Hb Hz Hbig. destruct (run_decoders_hang s z Hb Hz Hbig) as [-> _].
    done.
Qed.

(** X14.  The ways a refund request fails before any money moves back, none of
    which sends an e-mail: the retrieval is rejected (500); the session has
    no payment intent (400, and no refund-create call); the processor
    rejects the refund (500 with its error). *)
Theorem refund_failures (sessionId : list N) :
  (forall e, sessions_retrieve env sessionId true = inl e ->
     admin_refund env sessionId
     = ([SessionsRetrieve sessionId true; ConsoleError],
        Returns (mkResponse 500 (ErrorOf e))))
  /\ (forall s, sessions_retrieve env sessionId true = inr s ->
        has_payment_intent s = false ->
        admin_refund env sessionId
        = ([SessionsRetrieve sessionId true],
           Returns (mkResponse 400
                      (Error (lit "No payment intent found for this session")))))
  /\ (forall s e, sessions_retrieve env sessionId true = inr s ->
        has_payment_intent s = true -> is_refunded s = false ->
        refunds_create env (default [] (payment_intent_ref s)) = inl e ->
        admin_refund env sessionId
        = ([SessionsRetrieve sessionId true;
            RefundsCreate (default [] (payment_intent_ref s)); ConsoleError],
           Returns (mkResponse 500 (ErrorOf e)))).
Proof.
  unfold admin_refund, call. split; [|split].
  - by intros e ->.
  - intros s -> Hpi. cbn [bind]. by rewrite Hpi.
  - intros s e -> Hpi Hnr He. cbn [bind]. rewrite Hpi, Hnr. cbn [negb].
    by rewrite He.
Qed.

End RefundHandler.

Lemma refund_best_effort_witness :
  admin_refund (sample_env_no_mail None (sample_charged false) sample_outage)
    (lit "cs_test_1")
  = ([SessionsRetrieve (lit "cs_test_1") true; RefundsCreate (lit "pi_1");
      EmailsSend (cancellation_email
                    (sample_env_no_mail None (sample_charged false) sample_outage)
                    (sample_charged false) (mkRefund (lit "re_1") 3000));
      ConsoleError],
     Returns (mkResponse 200 (Refunded (lit "re_1") (lit "30.00"))))
  /\ admin_refund (sample_env None sample_unbounded) (lit "cs_test_1")
     = ([SessionsRetrieve (lit "cs_test_1") true; RefundsCreate (lit "pi_4")], Hangs).
Proof.
  split.
  - destruct (refund_best_effort
                (sample_env_no_mail None (sample_charged false) sample_outage)
                (lit "cs_test_1") (sample_charged false) (mkRefund (lit "re_1") 3000))
      as [H _]; [reflexivity|reflexivity|reflexivity|reflexivity|].
    apply H. reflexivity.
  - destruct (refund_best_effort (sample_env None sample_unbounded)
                (lit "cs_test_1") sample_unbounded (mkRefund (lit "re_1") 3000))
      as [_ H]; [reflexivity|reflexivity|reflexivity|reflexivity|].
    apply (H 10000000000000000%Z); [reflexivity|reflexivity|].
    vm_compute. reflexivity.
Defined.

Lemma refund_failures_witness :
  admin_refund (sample_env None sample_bare) (lit "cs_test_1")
  = ([SessionsRetrieve (lit "cs_test_1") true],
     Returns (mkResponse 400
                (Error (lit "No payment intent found for this session"))))
  /\ admin_refund (sample_env_down None sample_outage) (lit "cs_test_1")
     = ([SessionsRetrieve (lit "cs_test_1") true; ConsoleError],
        Returns (mkResponse 500 (ErrorOf sample_outage))).
Proof.
  split.
  - destruct (refund_failures (sample_env None sample_bare) (lit "cs_test_1"))
      as (_ & H & _).
    apply (H sample_bare); reflexivity.
  - destruct (refund_failures (sample_env_down None sample_outage) (lit "cs_test_1"))
      as (H & _).
    apply H. reflexivity.
Defined.

(* --------------------------------------------------------------------- *)
(** ** Analytics: the aggregates                                           *)
(* --------------------------------------------------------------------- *)

Section Aggregates.

Variable env : Env.

Lemma steps_to_ret {S} (P : S -> Prop) (s : S) : P s -> steps_to P (ret s).
Proof. intros H. by exists (Returns s). Qed.

Lemma steps_to_throw {S} (P : S -> Prop) : steps_to P (throw TypeError).
Proof. by exists (Throws TypeError). Qed.

Lemma steps_to_bind {A B} (P : A -> Prop) (Q : B -> Prop) (m : Eff A)
    (k : A -> Eff B) :
  steps_to P m -> (forall a, P a -> steps_to Q (k a)) -> steps_to Q (bind m k).
Proof.
  intros (o & -> & Ho) Hk. destruct o as [a|e|]; [|by exists (Throws e)|done].
  destruct (Hk a Ho) as (o' & E & Ho'). exists o'. unfold bind. by rewrite E.
Qed.

Lemma steps_to_weaken {S} (P Q : S -> Prop) (m : Eff S) :
  (forall s, P s -> Q s) -> steps_to P m -> steps_to Q m.
Proof.
  intros HPQ (o & -> & Ho). exists o. split; [done|]. destruct o; auto.
Qed.

(** A loop whose body keeps an invariant of the items already seen, over
    items that satisfy [Q]. *)
Lemma steps_to_for_each {A S} (f : S -> A -> Eff S) (P : list A -> S -> Prop)
    (Q : A -> Prop) (xs : list A) :
  (forall seen s x, Q x -> P seen s -> steps_to (P (seen ++ [x])) (f s x)) ->
  Forall Q xs ->
  forall seen s, P seen s -> steps_to (P (seen ++ xs)) (for_each f xs s).
Proof.
  intros Hf HQ. induction HQ as [|x xs Hx HQ IH]; intros seen s Hs;
    cbn [for_each].
  - rewrite app_nil_r. by apply steps_to_ret.
  - apply (steps_to_bind (P (seen ++ [x]))); [by apply Hf|].
    intros s' Hs'. specialize (IH _ _ Hs'). by rewrite <- app_assoc in IH.
Qed.

Lemma total_slots_snoc l s : total_slots (l ++ [s]) = (total_slots l + slot_count s)%Z.
Proof.
  induction l as [|x l IH]; cbn [app total_slots foldr] in *; [lia|].
  unfold total_slots in IH. rewrite IH. lia.
Qed.

Lemma to_text_steps (v : option json) : steps_to (fun _ => True) (to_text env v).
Proof.
  unfold to_text. destruct (convertible v);
    [by apply steps_to_ret|apply steps_to_throw].
Qed.

Lemma to_date_steps (v : option json) : steps_to (fun _ => True) (to_date env v).
Proof.
  unfold to_date. destruct (convertible v);
    [by apply steps_to_ret|apply steps_to_throw].
Qed.

Lemma prop_steps (b : json) (k : list N) : steps_to (fun _ => True) (prop b k).
Proof. destruct b; try apply steps_to_throw; by apply steps_to_ret. Qed.

Lemma payload_length_steps (v : json) : steps_to (fun _ => True) (payload_length v).
Proof. destruct v; try apply steps_to_throw; by apply steps_to_ret. Qed.

(** The slots of a session whose decode ends are folded over one by one: a
    step that takes the invariant from [n] to [n + 1] takes it, over the
    session, from [n] to [n] plus the number of its slots. *)
Lemma steps_to_per_booking {S} (step : S -> json -> Eff S) (P : Z -> S -> Prop)
    (acc : S) (s : Session) (n : Z) :
  (forall n a b, P n a -> steps_to (P (n + 1)%Z) (step a b)) ->
  decodes s = true ->
  P n acc -> steps_to (P (n + slot_count s)%Z) (per_booking step acc s).
Proof.
  intros Hstep Hd Hacc. unfold per_booking.
  rewrite (extractBookings_run_ends s Hd), bind_ret.
  unfold array_items, slot_count.
  destruct (extractBookings s) as [| | | |items|]; try apply steps_to_throw.
  rewrite bind_ret.
  assert (forall seen a b, True ->
            P (n + Z.of_nat (length seen))%Z a ->
            steps_to (P (n + Z.of_nat (length (seen ++ [b])))%Z) (step a b)) as Hb.
  { intros seen a b _ Ha. rewrite length_app. cbn [length].
    replace (n + Z.of_nat (length seen + 1))%Z
      with (n + Z.of_nat (length seen) + 1)%Z by lia.
    by apply Hstep. }
  apply (steps_to_for_each step
           (fun seen a => P (n + Z.of_nat (length seen))%Z a) (fun _ => True)
           items Hb (Forall_true _ _ (fun _ => I)) [] acc).
  cbn [length]. by rewrite Z.add_0_r.
Qed.

Lemma steps_to_all_bookings {S} (step : S -> json -> Eff S) (P : Z -> S -> Prop)
    (acc : S) (l : list Session) :
  (forall n a b, P n a -> steps_to (P (n + 1)%Z) (step a b)) ->
  Forall (fun s => decodes s = true) l ->
  P 0%Z acc -> steps_to (P (total_slots l)) (for_each (per_booking step) l acc).
Proof.
  intros Hstep Hd Hacc.
  assert (forall seen a s, decodes s = true ->
            P (total_slots seen) a ->
            steps_to (P (total_slots (seen ++ [s]))) (per_booking step a s)) as Hb.
  { intros seen a s Hs Ha. rewrite total_slots_snoc. by apply steps_to_per_booking. }
  by apply (steps_to_for_each (per_booking step)
              (fun seen a => P (total_slots seen) a)
              (fun s => decodes s = true) l Hb Hd [] acc).
Qed.

(** The sessions on which a hypothesis of the theorems below bears are those
    the aggregates keep. *)
Lemma covered_decodes (q : Session -> bool) (l : list Session) :
  forallb (fun s => decodes s && q s) l = true ->
  Forall (fun s => decodes s = true) l.
Proof.
  intros H. apply forallb_Forall in H. eapply Forall_impl; [exact H|].
  cbn. by intros s [Hd _]%andb_true_iff.
Qed.

Lemma map_total_insert {A} (w : A -> Z) (k : list N) (x : A) (m : gmap (list N) A) :
  map_fold (fun _ a acc => (w a + acc)%Z) 0%Z (<[k := x]> m)
  = (map_fold (fun _ a acc => (w a + acc)%Z) 0%Z m + w x
     - from_option w 0%Z (m !! k))%Z.
Proof.
  assert (forall (m' : gmap (list N) A) y, m' !! k = None ->
            map_fold (fun _ a acc => (w a + acc)%Z) 0%Z (<[k := y]> m')
            = (w y + map_fold (fun _ a acc => (w a + acc)%Z) 0%Z m')%Z) as Hnew.
  { intros m' y Hk. apply (map_fold_insert_L (fun _ a acc => (w a + acc)%Z));
      [intros; lia|done]. }
  destruct (m !! k) as [x0|] eqn:E; cbn [from_option].
  - rewrite <- (insert_delete_eq m k x).
    rewrite <- (insert_delete_id m k x0 E) at 2.
    rewrite !Hnew by apply lookup_delete_eq. lia.
  - rewrite Hnew by done. lia.
Qed.

Lemma total_count_insert (k : list N) (c : Z) (m : gmap (list N) Z) :
  total_count (<[k := c]> m) = (total_count m + c - default 0%Z (m !! k))%Z.
Proof.
  unfold total_count. rewrite (map_total_insert (fun n => n)).
  by destruct (m !! k).
Qed.

Lemma total_demos_insert (k : list N) (r : LocationRow) (m : gmap (list N) LocationRow) :
  total_demos (<[k := r]> m)
  = (total_demos m + loc_demos r - from_option loc_demos 0%Z (m !! k))%Z.
Proof. apply (map_total_insert loc_demos). Qed.

(** *** Locations *)

Lemma location_step_inv n m b :
  location_inv n m -> steps_to (location_inv (n + 1)%Z) (location_step env m b).
Proof.
  intros [Hrows Htot]. unfold location_step.
  apply (steps_to_bind (fun _ => True)); [apply prop_steps|]. intros loc _.
  apply (steps_to_bind (fun _ => True)).
  { destruct (value_truthy env loc); [apply to_text_steps|by apply steps_to_ret]. }
  intros k _. apply (steps_to_ret (location_inv (n + 1)%Z)). split.
  - intros k' row. rewrite lookup_insert_Some.
    intros [[_ <-]|[_ Hk']]; [|by apply (Hrows k')]. cbn [loc_demos loc_revenue].
    destruct (m !! k) as [r|] eqn:E; cbn [default from_option id loc_demos loc_revenue].
    + destruct (Hrows k r E). lia.
    + lia.
  - rewrite total_demos_insert, Htot. cbn [loc_demos].
    destruct (m !! k) as [r|]; cbn [default from_option id loc_demos]; lia.
Qed.

Lemma location_seed_inv : location_inv 0 ∅.
Proof.
  split; [by intros k row; rewrite lookup_empty|].
  unfold total_demos. apply map_fold_empty.
Qed.

(** X15.  The location breakdown, over sessions it keeps (paid, named, not
    refunded) whose decode ends and whose slots have locations that name no
    property of [Object.prototype].  It is computed without a call; when it
    does not stop on a payload that is not a list of items that convert,
    every location listed has at least one demo and a revenue of 30 times
    its demos, whatever was charged, and the demos of all locations add up
    to the number of slots of the sessions it keeps. *)
Theorem locationData_outcome (allSessions : list Session) :
  forallb (fun s => decodes s && plain_locations env s)
          (filter revenue_bearing allSessions) = true ->
  exists o,
    locationData env allSessions = ([], o)
    /\ match o with
       | Returns m =>
           (forall k row, m !! k = Some row ->
              loc_revenue row = (30 * loc_demos row)%Z /\ (1 <= loc_demos row)%Z)
           /\ total_demos m = total_slots (filter revenue_bearing allSessions)
       | Throws e => e = TypeError
       | Hangs => False
       end.
Proof.
  intros Hc. unfold locationData. rewrite notRefunded_revenue.
  apply (steps_to_all_bookings (location_step env) location_inv).
  - apply location_step_inv.
  - by apply (covered_decodes (plain_locations env)).
  - apply location_seed_inv.
Qed.

(** *** Time slots and days of the week *)

Lemma time_step_inv n m b :
  time_inv n m -> steps_to (time_inv (n + 1)%Z) (time_step env m b).
Proof.
  intros (Hpos & Htot & H11 & H3). unfold time_step.
  apply (steps_to_bind (fun _ => True)); [apply prop_steps|]. intros t _.
  apply (steps_to_bind (fun _ => True)); [apply to_text_steps|]. intros k _.
  assert (time_inv (n + 1)%Z
            match m !! k with
            | Some c => <[k := (c + 1)%Z]> m
            | None => <[k := 1%Z]> m
            end) as H.
  { destruct (m !! k) as [c|] eqn:E.
    - split; [|split; [|split]].
      + intros k' c'. rewrite lookup_insert_Some.
        intros [[_ <-]|[_ Hk']]; [|by eapply Hpos]. specialize (Hpos k c E). lia.
      + rewrite total_count_insert, E, Htot. cbn [default from_option id]. lia.
      + apply lookup_insert_is_Some'. by right.
      + apply lookup_insert_is_Some'. by right.
    - split; [|split; [|split]].
      + intros k' c'. rewrite lookup_insert_Some.
        intros [[_ <-]|[_ Hk']]; [lia|by eapply Hpos].
      + rewrite total_count_insert, E, Htot. cbn [default from_option id]. lia.
      + apply lookup_insert_is_Some'. by right.
      + apply lookup_insert_is_Some'. by right. }
  destruct (m !! k); apply (steps_to_ret (time_inv (n + 1)%Z)), H.
Qed.

Lemma time_seed_inv : time_inv 0 timeData_seed.
Proof.
  split; [|split; [|split]].
  - intros k c. unfold timeData_seed. rewrite !lookup_insert_Some, lookup_empty.
    intros [[_ <-]|[_ [[_ <-]|[_ ?]]]]; done.
  - unfold timeData_seed. rewrite !total_count_insert.
    rewrite lookup_insert_ne by done. rewrite !lookup_empty.
    unfold total_count. by rewrite map_fold_empty.
  - unfold timeData_seed. rewrite !lookup_insert_is_Some'. by right; left.
  - unfold timeData_seed. rewrite !lookup_insert_is_Some'. by left.
Qed.


Lemma day_inv_later n m : day_inv n m -> day_inv (n + 1)%Z m.
Proof. intros (Hpos & Htot & Hk). split; [done|]. split; [lia|done]. Qed.

Lemma day_step_inv n m b :
  day_inv n m -> steps_to (day_inv (n + 1)%Z) (day_step env m b).
Proof.
  intros Hm. pose proof (day_inv_later n m Hm) as Hm'.
  destruct Hm as (Hpos & Htot & Hk). unfold day_step.
  apply (steps_to_bind (fun _ => True)); [apply prop_steps|].
  intros d _.
  destruct (value_truthy env d); [|by apply steps_to_ret].
  apply (steps_to_bind (fun _ => True)); [apply to_date_steps|]. intros date _.
  destruct date as [parts|]; [|by apply steps_to_ret].
  destruct (dayNames !! Z.to_nat parts.2) as [dayName|]; [|by apply steps_to_ret].
  destruct (m !! dayName) as [c|] eqn:E; [|by apply steps_to_ret].
  apply (steps_to_ret (day_inv (n + 1)%Z)). split; [|split].
  - intros k c'. rewrite lookup_insert_Some.
    intros [[_ <-]|[_ Hk']]; [|by eapply Hpos]. specialize (Hpos _ _ E). lia.
  - rewrite total_count_insert, E. cbn [default from_option id]. lia.
  - intros k. rewrite lookup_insert_is_Some', <- Hk. split; [|by right].
    intros [<-|H]; [by rewrite E|done].
Qed.

Lemma day_seed_inv : day_inv 0 dayData_seed.
Proof.
  split; [|split].
  - intros k c. unfold dayData_seed. cbn [foldl].
    rewrite !lookup_insert_Some, lookup_empty.
    intros H. repeat (destruct H as [[_ <-]|[_ H]]; [done|]). done.
  - unfold dayData_seed. cbn [foldl]. rewrite !total_count_insert.
    repeat (rewrite lookup_insert_ne by done). rewrite !lookup_empty.
    unfold total_count. by rewrite map_fold_empty.
  - intros k. unfold dayData_seed, dayNames. cbn [foldl].
    rewrite !lookup_insert_is_Some', lookup_empty, !elem_of_cons, elem_of_nil.
    split; intros H.
    + repeat (destruct H as [<-|H]; [auto 10|]). by destruct H.
    + repeat (destruct H as [->|H]; [auto 10|]). done.
Qed.

(** X17.  The day-of-week counters, over sessions they keep (paid, named, not
    refunded) whose decode ends.  They are computed without a call; when
    they do not stop on a payload that is not a list of items whose dates
    convert, exactly the seven days are reported, no counter is negative,
    and together they count at most the slots of the sessions they keep: a
    slot without a usable [date] is left out. *)
Theorem dayData_outcome (allSessions : list Session) :
  forallb decodes (filter revenue_bearing allSessions) = true ->
  exists o,
    dayData env allSessions = ([], o)
    /\ match o with
       | Returns m =>
           (forall k c, m !! k = Some c -> (0 <= c)%Z)
           /\ (total_count m <= total_slots (filter revenue_bearing allSessions))%Z
           /\ forall k, is_Some (m !! k) <-> k ∈ dayNames
       | Throws e => e = TypeError
       | Hangs => False
       end.
Proof.
  intros Hc. unfold dayData. rewrite notRefunded_revenue.
  apply (steps_to_all_bookings (day_step env) day_inv).
  - apply day_step_inv.
  - by apply forallb_Forall.
  - apply day_seed_inv.
Qed.

(** *** Months *)

Lemma monthly_step_inv m s :
  decodes s = true ->
  monthly_inv env m -> steps_to (monthly_inv env) (monthly_step env m s).
Proof.
  intros Hd [Hk Hrows]. unfold monthly_step.
  destruct (m !! created_key env s) as [row|] eqn:E; [|by apply steps_to_ret].
  rewrite (extractBookings_run_ends s Hd), bind_ret.
  apply (steps_to_bind (fun _ => True)); [apply payload_length_steps|].
  intros numDemos _. apply (steps_to_ret (monthly_inv env)). split.
  - intros k. rewrite lookup_insert_is_Some', <- Hk. split; [|by right].
    intros [<-|H]; [by rewrite E|done].
  - intros k row'. rewrite lookup_insert_Some.
    intros [[_ <-]|[_ Hk']]; [|by apply (Hrows k)].
    cbn [market grassroots demos]. destruct (Hrows _ _ E) as [-> ->].
    destruct (demos row), numDemos; cbn; split; f_equal; lia.
Qed.

Lemma monthly_seed_inv : monthly_inv env (monthly_seed env).
Proof.
  split.
  - intros k. unfold monthly_seed, report_months. cbn [foldl map].
    rewrite !lookup_insert_is_Some', lookup_empty, !elem_of_cons, elem_of_nil.
    split; intros H.
    + repeat (destruct H as [<-|H]; [auto 10|]). by destruct H.
    + repeat (destruct H as [->|H]; [auto 10|]). done.
  - intros k row. unfold monthly_seed. cbn [foldl].
    rewrite !lookup_insert_Some, lookup_empty.
    intros H. repeat (destruct H as [[_ <-]|[_ H]]; [done|]). done.
Qed.

Lemma monthlyData_steps (l : list Session) :
  Forall (fun s => decodes s = true) l ->
  steps_to (monthly_inv env) (for_each (monthly_step env) l (monthly_seed env)).
Proof.
  intros Hd.
  apply (steps_to_for_each (monthly_step env) (fun _ m => monthly_inv env m)
           (fun s => decodes s = true) l
           (fun seen m s Hs => monthly_step_inv m s Hs) Hd [] (monthly_seed env)).
  apply monthly_seed_inv.
Qed.

(** X18.  The monthly report, over sessions it keeps (paid, named, not refunded)
    whose decode ends and whose payload has no [length] member of its own.
    It is computed without a call; when it does not stop on a payload that
    is the JSON value [null], its months are exactly the current month and
    the five before it, whatever sessions there are, and in every month the
    market's share is 20 times and the agency's share 10 times the number
    of demos. *)
Theorem monthlyData_outcome (allSessions : list Session) :
  forallb (fun s => decodes s && plain_length s)
          (filter revenue_bearing allSessions) = true ->
  exists o,
    monthlyData env allSessions = ([], o)
    /\ match o with
       | Returns m =>
           (forall k, is_Some (m !! k) <-> k ∈ report_months env)
           /\ forall k row, m !! k = Some row ->
                market row = (fun d => d * 20)%Z <$> demos row
                /\ grassroots row = (fun d => d * 10)%Z <$> demos row
       | Throws e => e = TypeError
       | Hangs => False
       end.
Proof.
  intros Hc. unfold monthlyData. rewrite notRefunded_revenue.
  apply monthlyData_steps. by apply (covered_decodes plain_length).
Qed.

End Aggregates.

Lemma locationData_outcome_witness :
  exists m,
    locationData (sample_env None sample_kept) [sample_kept; sample_refunded]
    = ret m
    /\ total_demos m = 1%Z.
Proof.
  destruct (locationData_outcome (sample_env None sample_kept)
              [sample_kept; sample_refunded]) as (o & E & Ho); [reflexivity|].
  destruct o as [m|e|]; [|exfalso; vm_compute in E; discriminate|done].
  exists m. split; [exact E|]. destruct Ho as [_ ->]. reflexivity.
Defined.


Lemma dayData_outcome_witness :
  exists m,
    dayData (sample_env None sample_kept) [sample_kept; sample_refunded]
    = ret m
    /\ (total_count m <= 1)%Z
    /\ is_Some (m !! lit "Sat").
Proof.
  destruct (dayData_outcome (sample_env None sample_kept)
              [sample_kept; sample_refunded]) as (o & E & Ho); [reflexivity|].
  destruct o as [m|e|]; [|exfalso; vm_compute in E; discriminate|done].
  exists m. split; [exact E|]. destruct Ho as (_ & Hle & Hk).
  split; [exact Hle|]. apply Hk. repeat constructor.
Defined.

Lemma monthlyData_outcome_witness :
  exists m,
    monthlyData (sample_env None sample_kept) [sample_kept; sample_refunded]
    = ret m
    /\ forall k row, m !! k = Some row ->
         market row = (fun d => d * 20)%Z <$> demos row
         /\ grassroots row = (fun d => d * 10)%Z <$> demos row.
Proof.
  destruct (monthlyData_outcome (sample_env None sample_kept)
              [sample_kept; sample_refunded]) as (o & E & Ho); [reflexivity|].
  destruct o as [m|e|]; [|exfalso; vm_compute in E; discriminate|done].
  exists m. split; [exact E|]. by destruct Ho as [_ H].
Defined.

(* --------------------------------------------------------------------- *)
(** ** Analytics: customer insights                                        *)
(* --------------------------------------------------------------------- *)

Section Customers.

Lemma cust_set_keys (k : list N) (r : CustomerRow) (cs : list (list N * CustomerRow)) :
  (cust_set k r cs).*1 = if decide (k ∈ cs.*1) then cs.*1 else cs.*1 ++ [k].
Proof.
  induction cs as [|[k0 r0] cs IH]; cbn [cust_set fmap list_fmap fst].
  - rewrite decide_False; [done|]. apply not_elem_of_nil.
  - destruct (decide (k0 = k)) as [->|Hne]; cbn [fmap list_fmap fst].
    + rewrite decide_True; [done|]. apply elem_of_cons. by left.
    + change (list_fmap _ _ fst (cust_set k r cs)) with ((cust_set k r cs).*1).
      change (list_fmap _ _ fst cs) with (cs.*1).
      rewrite IH. destruct (decide (k ∈ cs.*1)) as [Hin|Hout].
      * rewrite decide_True; [done|]. apply elem_of_cons. by right.
      * rewrite decide_False; [done|]. rewrite elem_of_cons. intros [->|?]; done.
Qed.

Lemma cust_get_keys (k : list N) (cs : list (list N * CustomerRow)) :
  is_Some (cust_get k cs) <-> k ∈ cs.*1.
Proof.
  induction cs as [|[k0 r0] cs IH]; cbn [cust_get fmap list_fmap fst].
  - split; [by intros [? ?]|]. by intros ?%elem_of_nil.
  - change (list_fmap _ _ fst cs) with (cs.*1). rewrite elem_of_cons.
    destruct (decide (k0 = k)) as [->|Hne].
    + split; [by left|by eexists].
    + rewrite IH. split; [by right|]. intros [->|?]; done.
Qed.

Lemma elem_of_map_2 {A B} (f : A -> B) (l : list A) (x : A) :
  x ∈ l -> f x ∈ map f l.
Proof. induction 1; cbn [map]; by constructor. Qed.

Lemma customer_step_inv (seen : list Session) (cs : list (list N * CustomerRow))
    (s : Session) :
  decodes s = true ->
  customers_inv seen cs -> steps_to (customers_inv (seen ++ [s])) (customer_step cs s).
Proof.
  intros Hd (Hnd & Hkeys & Hwin & Hlast). unfold customer_step.
  rewrite (extractBookings_run_ends s Hd), bind_ret.
  apply (steps_to_bind (fun _ => True)); [apply payload_length_steps|].
  intros n _. apply (steps_to_ret (customers_inv (seen ++ [s]))).
  set (e := email_key s).
  split; [|split; [|split]].
  - rewrite cust_set_keys. destruct (decide (e ∈ cs.*1)) as [Hin|Hout]; [done|].
    apply NoDup_app. split; [done|]. split; [|apply NoDup_singleton].
    intros k Hk ->%list_elem_of_singleton. done.
  - intros k. rewrite cust_set_keys, map_app, elem_of_app. cbn [map].
    rewrite list_elem_of_singleton. fold e.
    destruct (decide (e ∈ cs.*1)) as [Hin|Hout].
    + rewrite Hkeys. split; [by left|]. intros [?| ->]; [done|by apply Hkeys].
    + by rewrite elem_of_app, list_elem_of_singleton, Hkeys.
  - intros s' r Hs' Hr. rewrite cust_get_set in Hr.
    apply elem_of_app in Hs' as [Hs'|Hs'].
    + destruct (decide (e = email_key s')) as [He|Hne]; [|by apply Hwin].
      injection Hr as <-. cbn [cust_firstBooking cust_lastBooking].
      assert (is_Some (cust_get e cs)) as [r0 Hr0].
      { apply cust_get_keys, Hkeys. rewrite He. by apply elem_of_map_2. }
      rewrite Hr0. rewrite He in Hr0. specialize (Hwin s' r0 Hs' Hr0).
      rewrite Z.gtb_ltb.
      destruct (Z.ltb_spec (created s) (cust_firstBooking r0));
        destruct (Z.ltb_spec (cust_lastBooking r0) (created s)); lia.
    + apply list_elem_of_singleton in Hs' as ->. fold e in Hr.
      rewrite decide_True in Hr by done. injection Hr as <-.
      cbn [cust_firstBooking cust_lastBooking]. rewrite Z.gtb_ltb.
      destruct (cust_get e cs) as [r0|];
        cbn [cust_firstBooking cust_lastBooking].
      * destruct (Z.ltb_spec (created s) (cust_firstBooking r0));
          destruct (Z.ltb_spec (cust_lastBooking r0) (created s)); lia.
      * rewrite Z.ltb_irrefl. lia.
  - intros l1 s0 l2 Hsplit Hl2. rewrite cust_get_set. unfold e. clear e.
    induction l2 as [|x l2 _] using rev_ind.
    + apply app_inj_tail in Hsplit as [_ <-].
      rewrite decide_True by done. eexists. split; [done|]. done.
    + rewrite app_comm_cons, app_assoc in Hsplit.
      apply app_inj_tail in Hsplit as [Hseen <-].
      apply Forall_app in Hl2 as [Hl2 Hx]. apply List.Forall_inv in Hx.
      rewrite decide_False by done.
      by apply (Hlast l1 s0 l2).
Qed.

Lemma customerData_inv (allSessions : list Session) :
  Forall (fun s => decodes s = true) (paid allSessions) ->
  steps_to (customers_inv (paid allSessions)) (customerData allSessions).
Proof.
  intros Hd.
  apply (steps_to_for_each customer_step customers_inv
           (fun s => decodes s = true) (paid allSessions)
           (fun seen cs s Hs => customer_step_inv seen cs s Hs) Hd [] []).
  split; [apply NoDup_nil_2|]. split; [done|]. split.
  - by intros s r ?%elem_of_nil.
  - intros l1 s l2 H. by destruct l1.
Qed.

Lemma covered_decode (l : list Session) :
  forallb customer_covered l = true -> Forall (fun s => decodes s = true) l.
Proof.
  intros H. apply forallb_Forall in H. eapply Forall_impl; [exact H|].
  cbn. unfold customer_covered. by intros s [[Hd _]%andb_true_iff _]%andb_true_iff.
Qed.

(** X19.  The customer insights, over paid and named sessions whose decode
    ends, whose payload has no [length] member of its own and whose e-mail
    key names no property of [Object.prototype].  They are computed without
    a call; when they do not stop on a payload that is the JSON value
    [null], there is exactly one entry for every e-mail key among the paid
    and named sessions, refunded or not, and no other entry. *)
Theorem customerData_one_per_email (allSessions : list Session) :
  forallb customer_covered (paid allSessions) = true ->
  exists o,
    customerData allSessions = ([], o)
    /\ match o with
       | Returns cs =>
           NoDup cs.*1
           /\ forall k, k ∈ cs.*1 <-> k ∈ map email_key (paid allSessions)
       | Throws e => e = TypeError
       | Hangs => False
       end.
Proof.
  intros Hc. eapply steps_to_weaken; [|by apply customerData_inv, covered_decode].
  intros cs (Hnd & Hkeys & _). done.
Qed.

(** X20.  In the customer insights, over sessions as for the entries, every
    paid and named session of a customer lies between the customer's first
    and last booking, and the name and the company shown are those of the
    customer's last such session in the order the sessions were fetched,
    which is the latest by time only when the sessions come oldest first. *)
Theorem customerData_rows (allSessions : list Session) :
  forallb customer_covered (paid allSessions) = true ->
  exists o,
    customerData allSessions = ([], o)
    /\ match o with
       | Returns cs =>
           (forall s r, s ∈ paid allSessions ->
              cust_get (email_key s) cs = Some r ->
              (cust_firstBooking r <= created s <= cust_lastBooking r)%Z)
           /\ (forall l1 s l2, paid allSessions = l1 ++ s :: l2 ->
                 Forall (fun s' => email_key s' <> email_key s) l2 ->
                 exists r, cust_get (email_key s) cs = Some r
                           /\ cust_name r = metadata s !! lit "customerName"
                           /\ cust_company r = metadata s !! lit "company")
       | Throws e => e = TypeError
       | Hangs => False
       end.
Proof.
  intros Hc. eapply steps_to_weaken; [|by apply customerData_inv, covered_decode].
  intros cs (_ & _ & Hwin & Hlast). done.
Qed.

End Customers.

Lemma customerData_one_per_email_witness :
  exists cs,
    customerData [sample_kept; sample_unpaid; sample_refunded] = ret cs
    /\ cs.*1 = [lit "ada@example.com"].
Proof.
  destruct (customerData_one_per_email [sample_kept; sample_unpaid; sample_refunded])
    as (o & E & Ho); [reflexivity|].
  destruct o as [cs|e|]; [|exfalso; vm_compute in E; discriminate|done].
  exists cs. split; [exact E|]. destruct Ho as [Hnd Hk].
  vm_compute in E. injection E as <-. reflexivity.
Defined.

(** The sessions come newest first: the name shown is that of the older
    session, the last in the order fetched. *)
Lemma customerData_rows_witness :
  exists cs r,
    customerData [sample_named (lit "New") 200; sample_named (lit "Old") 100]
    = ret cs
    /\ cust_get (lit "ada@example.com") cs = Some r
    /\ cust_name r = Some (lit "Old")
    /\ (cust_firstBooking r <= 200 <= cust_lastBooking r)%Z.
Proof.
  destruct (customerData_rows
              [sample_named (lit "New") 200; sample_named (lit "Old") 100])
    as (o & E & Ho); [reflexivity|].
  destruct o as [cs|e|]; [|exfalso; vm_compute in E; discriminate|done].
  destruct Ho as [Hwin Hlast].
  destruct (Hlast [sample_named (lit "New") 200] (sample_named (lit "Old") 100) [])
    as (r & Hr & Hn & _); [reflexivity|constructor|].
  exists cs, r. split; [exact E|]. split; [exact Hr|].
  split; [rewrite Hn; reflexivity|].
  apply (Hwin (sample_named (lit "New") 200) r); [|exact Hr].
  change (sample_named (lit "New") 200
          ∈ [sample_named (lit "New") 200; sample_named (lit "Old") 100]).
  constructor.
Defined.


(* --------------------------------------------------------------------- *)
(** ** Analytics: the order of the customer list                           *)
(* --------------------------------------------------------------------- *)

Section CustomerOrder.

Lemma goes_before_count (a b : CustomerOut) :
  has_count a -> has_count b -> goes_before a b = (count_of b <? count_of a)%Z.
Proof.
  intros [x Hx] [y Hy]. unfold goes_before, count_of. by rewrite Hx, Hy.
Qed.

Lemma insert_sorted_perm (x : CustomerOut) (l : list CustomerOut) :
  insert_sorted x l ≡ₚ x :: l.
Proof.
  induction l as [|y r IH]; cbn [insert_sorted]; [done|].
  destruct (goes_before x y); [done|]. rewrite IH. apply Permutation_swap.
Qed.

Lemma insert_sorted_sorted (x : CustomerOut) (l : list CustomerOut) :
  has_count x -> Forall has_count l ->
  descending l -> descending (insert_sorted x l).
Proof.
  intros Hx Hl. induction l as [|y r IH]; intros Hs; cbn [insert_sorted].
  - by split.
  - apply Forall_cons in Hl as [Hcy Hr]. destruct Hs as [Hy Hs].
    rewrite (goes_before_count x y Hx Hcy).
    destruct (Z.ltb_spec (count_of y) (count_of x)) as [Hlt|Hge].
    + split; [|by split]. constructor; [lia|].
      eapply Forall_impl; [exact Hy|]. cbn. intros b Hb. lia.
    + split; [|by apply IH].
      rewrite insert_sorted_perm. by constructor.
Qed.

Lemma filter_count_nil (n : Z) (l : list CustomerOut) :
  Forall (fun b => (count_of b < n)%Z) l ->
  filter (fun c => count_of c = n) l = [].
Proof.
  induction 1 as [|b l Hb Hl IH]; [done|].
  rewrite filter_cons_False by lia. done.
Qed.

Lemma insert_sorted_filter (n : Z) (x : CustomerOut) (l : list CustomerOut) :
  has_count x -> Forall has_count l -> descending l ->
  filter (fun c => count_of c = n) (insert_sorted x l)
  = filter (fun c => count_of c = n) l
    ++ (if decide (count_of x = n) then [x] else []).
Proof.
  intros Hx Hl. induction l as [|y r IH]; intros Hs; cbn [insert_sorted].
  - destruct (decide (count_of x = n)) as [E|E].
    + by rewrite filter_cons_True.
    + by rewrite filter_cons_False.
  - apply Forall_cons in Hl as [Hcy Hr]. destruct Hs as [Hy Hs].
    rewrite (goes_before_count x y Hx Hcy).
    destruct (Z.ltb_spec (count_of y) (count_of x)) as [Hlt|Hge].
    + destruct (decide (count_of x = n)) as [E|E].
      * rewrite filter_cons_True by done.
        rewrite (filter_count_nil n (y :: r)); [done|].
        constructor; [lia|]. eapply Forall_impl; [exact Hy|]. cbn. intros b Hb. lia.
      * rewrite filter_cons_False by done. by rewrite app_nil_r.
    + destruct (decide (count_of y = n)) as [Ey|Ey].
      * rewrite !(filter_cons_True _ y) by done. by rewrite IH.
      * rewrite !(filter_cons_False _ y) by done. by rewrite IH.
Qed.

Lemma sort_by_bookings_snoc (l : list CustomerOut) (x : CustomerOut) :
  sort_by_bookings (l ++ [x]) = insert_sorted x (sort_by_bookings l).
Proof. unfold sort_by_bookings. by rewrite foldl_snoc. Qed.

(** X21.  The customer list is sorted as a stable sort by descending bookings
    does it.  When every booking count is a number, the sorted list has the
    same entries, no entry is followed by one with more bookings, and
    entries with equal bookings keep the order they had. *)
Theorem sort_by_bookings_stable (l : list CustomerOut) :
  Forall has_count l ->
  sort_by_bookings l ≡ₚ l
  /\ descending (sort_by_bookings l)
  /\ forall n, filter (fun c => count_of c = n) (sort_by_bookings l)
               = filter (fun c => count_of c = n) l.
Proof.
  induction l as [|x l IH] using rev_ind; intros Hl.
  - split; [done|]. split; done.
  - apply Forall_app in Hl as [Hl Hx]. apply List.Forall_inv in Hx.
    destruct (IH Hl) as (Hp & Hs & Hf).
    assert (Forall has_count (sort_by_bookings l)) as Hc by by rewrite Hp.
    rewrite sort_by_bookings_snoc. split; [|split].
    + rewrite insert_sorted_perm, Hp. apply Permutation_cons_append.
    + by apply insert_sorted_sorted.
    + intros n. rewrite insert_sorted_filter by done.
      rewrite filter_app, Hf. reflexivity.
Qed.

End CustomerOrder.

Lemma sort_by_bookings_stable_witness :
  sort_by_bookings [sample_out (lit "a") 1; sample_out (lit "b") 3;
                    sample_out (lit "c") 1; sample_out (lit "d") 2]
  ≡ₚ [sample_out (lit "a") 1; sample_out (lit "b") 3;
      sample_out (lit "c") 1; sample_out (lit "d") 2]
  /\ filter (fun c => count_of c = 1%Z)
       (sort_by_bookings [sample_out (lit "a") 1; sample_out (lit "b") 3;
                          sample_out (lit "c") 1; sample_out (lit "d") 2])
     = [sample_out (lit "a") 1; sample_out (lit "c") 1].
Proof.
  destruct (sort_by_bookings_stable
              [sample_out (lit "a") 1; sample_out (lit "b") 3;
               sample_out (lit "c") 1; sample_out (lit "d") 2])
    as (Hp & _ & Hf).
  - repeat constructor; by eexists.
  - split; [exact Hp|]. rewrite Hf. vm_compute. reflexivity.
Defined.

(* --------------------------------------------------------------------- *)
(** ** Analytics: pagination and the handler                               *)
(* --------------------------------------------------------------------- *)

Section AnalyticsHandler.

Variable env : Env.

(** The loop over a processor whose pages make progress: every page but the
    last makes the list longer, so the loop ends, after at most as many
    calls as sessions are missing to 300. *)
Lemma fetch_loop_outcome (fuel : nat) (allSessions : list Session)
    (startingAfter : option (list N)) :
  pages_progress env ->
  (300 <= fuel + length allSessions)%nat ->
  result (fetch_loop env (S fuel) allSessions startingAfter) <> Hangs
  /\ Forall is_list_call (trace (fetch_loop env (S fuel) allSessions startingAfter))
  /\ (length (trace (fetch_loop env (S fuel) allSessions startingAfter))
      <= 300 - length allSessions)%nat
  /\ (pages_within_limit env ->
      forall l, result (fetch_loop env (S fuel) allSessions startingAfter) = Returns l ->
                (length l <= Nat.max (length allSessions) 399)%nat).
Proof.
  intros Hprog. revert allSessions startingAfter.
  induction fuel as [|f IH]; intros allSessions startingAfter Hf;
    rewrite fetch_loop_S.
  - destruct (Nat.ltb_spec (length allSessions) 300) as [Hlt|Hge]; [lia|].
    unfold trace, result, ret. cbn [fst snd length].
    split; [done|]. split; [constructor|]. split; [lia|].
    intros _ l [= <-]. lia.
  - destruct (Nat.ltb_spec (length allSessions) 300) as [Hlt|Hge].
    2:{ unfold trace, result, ret. cbn [fst snd length].
        split; [done|]. split; [constructor|]. split; [lia|].
        intros _ l [= <-]. lia. }
    cbv zeta.
    set (after := if truthy startingAfter then startingAfter else None).
    change (mkListParams 100 true after None) with (page_params after).
    assert (is_list_call (SessionsList (page_params after))) as Hcall
      by by exists after.
    unfold call.
    destruct (sessions_list env (page_params after)) as [e|batch] eqn:Epage.
    { unfold trace, result, bind. cbn [fst snd length].
      split; [done|]. split; [by constructor|]. split; [lia|]. by intros _ l. }
    unfold bind.
    destruct (last (data batch)) as [s|] eqn:El.
    + assert (data batch <> []) as Hne by (intros E; by rewrite E in El).
      assert (1 <= length (data batch))%nat as Hlen
        by (destruct (data batch); [done|cbn [length]; lia]).
      destruct (has_more batch) eqn:Hm.
      * specialize (IH (allSessions ++ data batch) (Some (session_id s))).
        rewrite length_app in IH.
        destruct IH as (Hp & Ht & Hn & Hw); [lia|].
        destruct (fetch_loop env (S f) (allSessions ++ data batch)
                    (Some (session_id s))) as [t o].
        unfold trace, result in *. cbn [fst snd length app] in *.
        split; [done|]. split; [by constructor|]. split; [lia|].
        intros Hlim l Hl. specialize (Hw Hlim l Hl).
        specialize (Hlim after batch Epage). lia.
      * unfold trace, result, ret. cbn [fst snd length app].
        split; [done|]. split; [by constructor|]. split; [lia|].
        intros Hlim l [= <-]. rewrite length_app.
        specialize (Hlim after batch Epage). lia.
    + apply last_None in El.
      destruct (has_more batch) eqn:Hm; [by destruct (Hprog after batch Epage Hm)|].
      unfold trace, result, ret. cbn [fst snd length app].
      split; [done|]. split; [by constructor|]. split; [lia|].
      intros Hlim l [= <-]. rewrite length_app.
      specialize (Hlim after batch Epage). lia.
Qed.

(** What holds of the sessions of every page holds of the sessions
    gathered. *)
Lemma fetch_loop_sessions (P : Session -> Prop) (fuel : nat)
    (allSessions : list Session) (startingAfter : option (list N)) :
  (forall after b, sessions_list env (page_params after) = inr b ->
                   Forall P (data b)) ->
  Forall P allSessions ->
  forall l, result (fetch_loop env fuel allSessions startingAfter) = Returns l ->
            Forall P l.
Proof.
  intros Hpages. revert allSessions startingAfter.
  induction fuel as [|f IH]; intros allSessions startingAfter Hall l;
    [done|].
  rewrite fetch_loop_S.
  destruct (length allSessions <? 300)%nat; [|by intros [= <-]].
  cbv zeta.
  set (after := if truthy startingAfter then startingAfter else None).
  change (mkListParams 100 true after None) with (page_params after).
  unfold call.
  destruct (sessions_list env (page_params after)) as [e|batch] eqn:Epage;
    [done|].
  assert (Forall P (allSessions ++ data batch)) as Hnext.
  { apply Forall_app. split; [done|]. by apply (Hpages after). }
  unfold bind.
  destruct (last (data batch)) as [s|]; destruct (has_more batch).
  - specialize (IH (allSessions ++ data batch) (Some (session_id s)) Hnext l).
    destruct (fetch_loop env f (allSessions ++ data batch) (Some (session_id s)))
      as [t o].
    unfold result in *. cbn [fst snd] in *. exact IH.
  - unfold result, ret. cbn [fst snd]. by intros [= <-].
  - done.
  - unfold result, ret. cbn [fst snd]. by intros [= <-].
Qed.

(** X22.  The pagination of the analytics, over a processor whose pages make
    progress: every page that says there is more carries a session.  It
    then comes to an end, having made only list calls, each for a page of
    100 with the payment intents expanded, and at most 300 of them; and it
    gathers at most 399 sessions when no page is longer than the limit
    asked for.  When the first page is empty and says there is more, the
    same call is made again and again, and the handler never answers. *)
Theorem fetch_all_outcome :
  (pages_progress env ->
   result (fetch_all env) <> Hangs
   /\ Forall is_list_call (trace (fetch_all env))
   /\ (length (trace (fetch_all env)) <= 300)%nat
   /\ (pages_within_limit env ->
       forall l, result (fetch_all env) = Returns l -> (length l <= 399)%nat))
  /\ (forall b, sessions_list env (page_params None) = inr b ->
                data b = [] -> has_more b = true ->
                result (fetch_all env) = Hangs
                /\ result (admin_analytics env) = Hangs).
Proof.
  split.
  - intros Hprog.
    destruct (fetch_loop_outcome 300 [] None Hprog) as (Hp & Ht & Hn & Hw);
      [cbn [length]; lia|].
    change (fetch_loop env 301 [] None) with (fetch_all env) in *.
    cbn [length] in *. split; [exact Hp|]. split; [exact Ht|]. split; [lia|].
    intros Hlim l Hl. specialize (Hw Hlim l Hl). lia.
  - intros b Hb Hd Hm.
    assert (fetch_all env = ([SessionsList (page_params None)], Hangs)) as E.
    { unfold fetch_all. rewrite fetch_loop_S. cbn [length Nat.ltb Nat.leb truthy].
      cbv zeta. change (mkListParams 100 true None None) with (page_params None).
      unfold call, bind. rewrite Hb, Hd, Hm. reflexivity. }
    split; [by rewrite E|].
    unfold admin_analytics, try_catch, bind. by rewrite E.
Qed.

Lemma Forall_filter_bool (P : Session -> Prop) (q : Session -> bool)
    (l : list Session) :
  Forall P l -> Forall P (filter q l).
Proof.
  rewrite !Forall_forall. intros H x [_ Hx]%list_elem_of_filter. by apply H.
Qed.

Lemma analytics_of_steps (allSessions : list Session) :
  Forall (fun s => decodes s = true) allSessions ->
  steps_to (fun _ => True) (analytics_of env allSessions).
Proof.
  intros Hd.
  assert (Forall (fun s => decodes s = true) (paid allSessions)) as Hpaid
    by by apply Forall_filter_bool.
  assert (Forall (fun s => decodes s = true) (notRefunded allSessions)) as Hkept
    by by apply Forall_filter_bool.
  unfold analytics_of.
  apply (steps_to_bind (monthly_inv env)); [by apply monthlyData_steps|].
  intros m _.
  apply (steps_to_bind (location_inv (total_slots (notRefunded allSessions)))).
  { apply (steps_to_all_bookings (location_step env) location_inv);
      [apply location_step_inv|done|apply location_seed_inv]. }
  intros l _.
  apply (steps_to_bind (time_inv (total_slots (notRefunded allSessions)))).
  { apply (steps_to_all_bookings (time_step env) time_inv);
      [apply time_step_inv|done|apply time_seed_inv]. }
  intros t _.
  apply (steps_to_bind (day_inv (total_slots (notRefunded allSessions)))).
  { apply (steps_to_all_bookings (day_step env) day_inv);
      [apply day_step_inv|done|apply day_seed_inv]. }
  intros d _.
  apply (steps_to_bind (customers_inv (paid allSessions)));
    [by apply customerData_inv|].
  intros cs _. by apply steps_to_ret.
Qed.

(** Whatever the aggregates do, they make no call and write no log. *)
Lemma analytics_of_silent (allSessions : list Session) :
  trace (analytics_of env allSessions) = [].
Proof.
  assert (forall {A B} (m : Eff A) (k : A -> Eff B),
            trace m = [] -> (forall a, trace (k a) = []) ->
            trace (bind m k) = []) as Hbind.
  { intros A B [t o] k Ht Hk. unfold trace, bind in *. cbn [fst] in *. subst t.
    destruct o as [a| |]; [|done..]. specialize (Hk a).
    destruct (k a) as [t' o']. cbn [fst] in *. by subst t'. }
  assert (forall {A S} (f : S -> A -> Eff S) (xs : list A),
            (forall s x, trace (f s x) = []) ->
            forall s, trace (for_each f xs s) = []) as Hloop.
  { intros A S f xs Hf. induction xs as [|x xs IH]; intros s; cbn [for_each];
      [done|]. apply Hbind; [apply Hf|apply IH]. }
  assert (forall s, trace (extractBookings_run s) = []) as Hrun.
  { intros s. by destruct (extractBookings_run_pure s) as [->|[v ->]]. }
  assert (forall v, trace (payload_length v) = []) as Hlen by by intros [].
  assert (forall b k, trace (prop b k) = []) as Hprop by by intros [].
  assert (forall v, trace (to_text env v) = []) as Htext
    by (intros v; unfold to_text; by destruct (convertible v)).
  assert (forall v, trace (to_date env v) = []) as Hdate
    by (intros v; unfold to_date; by destruct (convertible v)).
  assert (forall {S} (step : S -> json -> Eff S),
            (forall a b, trace (step a b) = []) ->
            forall a s, trace (per_booking step a s) = []) as Hper.
  { intros S step Hstep a s. unfold per_booking. apply Hbind; [apply Hrun|].
    intros v. apply Hbind; [by destruct v|]. intros items. by apply Hloop. }
  unfold analytics_of.
  apply Hbind.
  { apply Hloop. intros m s. unfold monthly_step.
    destruct (m !! created_key env s); [|done].
    apply Hbind; [apply Hrun|]. intros v. apply Hbind; [apply Hlen|]. done. }
  intros m. apply Hbind.
  { apply Hloop, Hper. intros a b. unfold location_step.
    apply Hbind; [apply Hprop|]. intros loc. apply Hbind; [|done].
    destruct (value_truthy env loc); [apply Htext|done]. }
  intros l. apply Hbind.
  { apply Hloop, Hper. intros a b. unfold time_step.
    apply Hbind; [apply Hprop|]. intros t. apply Hbind; [apply Htext|].
    intros k. by destruct (a !! k). }
  intros t. apply Hbind.
  { apply Hloop, Hper. intros a b. unfold day_step.
    apply Hbind; [apply Hprop|]. intros d.
    destruct (value_truthy env d); [|done].
    apply Hbind; [apply Hdate|]. intros [parts|]; [|done].
    destruct (dayNames !! Z.to_nat parts.2) as [dayName|]; [|done].
    by destruct (a !! dayName). }
  intros d. apply Hbind; [|done].
  apply Hloop. intros cs s. unfold customer_step.
  apply Hbind; [apply Hrun|]. intros v. apply Hbind; [apply Hlen|]. done.
Qed.

(** X23.  The analytics handler only reads: every call it makes is a list call of
    its pagination, followed at most by a line on the error log; it creates
    no refund and sends no e-mail, and no error escapes it.  When the pages
    make progress and the decode of every session listed ends, it answers:
    200 with the aggregates, or 500 with the error. *)
Theorem admin_analytics_read_only :
  Forall (fun ev => is_list_call ev \/ ev = ConsoleError)
         (trace (admin_analytics env))
  /\ (forall e, result (admin_analytics env) <> Throws e)
  /\ (pages_progress env -> pages_decode env ->
      exists r, result (admin_analytics env) = Returns r
                /\ ((status r = 200%nat /\ exists a, payload r = AnalyticsOf a)
                    \/ (status r = 500%nat /\ exists e, payload r = ErrorOf e))).
Proof.
  assert (Forall is_list_call (trace (fetch_all env))) as Ht.
  { unfold fetch_all. generalize 301%nat (@nil Session) (@None (list N)).
    intros fuel. induction fuel as [|f IH]; intros allSessions startingAfter;
      [constructor|].
    rewrite fetch_loop_S. destruct (length allSessions <? 300)%nat; [|constructor].
    cbv zeta.
    set (after := if truthy startingAfter then startingAfter else None).
    change (mkListParams 100 true after None) with (page_params after).
    assert (is_list_call (SessionsList (page_params after))) as Hcall
      by by exists after.
    unfold call.
    destruct (sessions_list env (page_params after)) as [e|batch];
      [by repeat constructor|].
    unfold bind.
    destruct (last (data batch)) as [s|]; destruct (has_more batch);
      try by repeat constructor.
    specialize (IH (allSessions ++ data batch) (Some (session_id s))).
    destruct (fetch_loop env f (allSessions ++ data batch) (Some (session_id s)))
      as [t o].
    unfold trace in *. cbn [fst app] in *. by constructor. }
  pose proof (fetch_loop_sessions (fun s => decodes s = true) 301 [] None) as Hs.
  pose proof (fetch_loop_outcome 300 [] None) as Hp.
  change (fetch_loop env 301 [] None) with (fetch_all env) in *.
  destruct (fetch_all env) as [t o] eqn:Ef. unfold trace, result in Ht, Hp, Hs.
  cbn [fst snd] in Ht, Hp, Hs.
  assert (Forall (fun ev => is_list_call ev \/ ev = ConsoleError) t) as Ht'
    by (eapply Forall_impl; [exact Ht|]; by left).
  assert (Forall (fun ev => is_list_call ev \/ ev = ConsoleError)
                 (t ++ [ConsoleError])) as Ht''.
  { apply Forall_app. split; [done|]. constructor; [by right|constructor]. }
  destruct o as [l|e|].
  - pose proof (analytics_of_silent l) as Hsil.
    pose proof (analytics_of_steps l) as Hsteps.
    destruct (analytics_of env l) as [t' o'] eqn:E.
    unfold trace in Hsil. cbn [fst] in Hsil. subst t'.
    destruct o' as [a|e|].
    + assert (admin_analytics env
              = (t, Returns (mkResponse 200 (AnalyticsOf a)))) as ->.
      { unfold admin_analytics, bind. rewrite Ef, E. cbn. by rewrite !app_nil_r. }
      unfold trace, result. cbn [fst snd].
      split; [done|]. split; [done|].
      intros _ _. eexists. split; [done|]. left. split; [done|]. by eexists.
    + assert (admin_analytics env
              = (t ++ [ConsoleError], Returns (mkResponse 500 (ErrorOf e)))) as ->.
      { unfold admin_analytics, bind. rewrite Ef, E. cbn. by rewrite !app_nil_r. }
      unfold trace, result. cbn [fst snd].
      split; [done|]. split; [done|].
      intros _ _. eexists. split; [done|]. right. split; [done|]. by eexists.
    + assert (admin_analytics env = (t, Hangs)) as ->.
      { unfold admin_analytics, bind. rewrite Ef, E. cbn. by rewrite !app_nil_r. }
      unfold trace, result. cbn [fst snd].
      split; [done|]. split; [done|].
      intros _ Hdec. exfalso.
      destruct Hsteps as (o & Eo & Ho).
      { apply (Hs (fun after b Hb => forallb_Forall _ _ (Hdec after b Hb))
                  (Forall_nil_2 _) l eq_refl). }
      by injection Eo as <-.
  - assert (admin_analytics env
            = (t ++ [ConsoleError], Returns (mkResponse 500 (ErrorOf e)))) as ->.
    { unfold admin_analytics, bind. rewrite Ef. by cbn. }
    unfold trace, result. cbn [fst snd].
    split; [done|]. split; [done|].
    intros _ _. eexists. split; [done|]. right. split; [done|]. by eexists.
  - assert (admin_analytics env = (t, Hangs)) as ->.
    { unfold admin_analytics, bind. rewrite Ef. by cbn. }
    unfold trace, result. cbn [fst snd].
    split; [done|]. split; [done|]. intros Hprog _.
    destruct (Hp Hprog) as [Hne _]; [cbn [length]; lia|]. done.
Qed.

End AnalyticsHandler.

(** Two pages of one session each, and a first page that is empty and says
    there is more. *)
Lemma fetch_all_outcome_witness :
  fetch_all (sample_env_pages [sample_kept] [sample_refunded])
  = ([SessionsList (page_params None);
      SessionsList (page_params (Some (lit "cs_test_1")))],
     Returns [sample_kept; sample_refunded])
  /\ (length (trace (fetch_all (sample_env_pages [sample_kept] [sample_refunded])))
      <= 300)%nat
  /\ result (admin_analytics (sample_env_pages [] [])) = Hangs.
Proof.
  destruct (fetch_all_outcome (sample_env_pages [sample_kept] [sample_refunded]))
    as [H _].
  destruct (fetch_all_outcome (sample_env_pages [] [])) as [_ H'].
  split; [vm_compute; reflexivity|]. split.
  - apply H. intros after b Hb Hm.
    destruct after; cbn in Hb; injection Hb as <-; cbn in *; done.
  - by apply (H' (mkBatch [] true)).
Defined.

Lemma admin_analytics_read_only_witness :
  exists r,
    result (admin_analytics (sample_env_pages [sample_kept] [sample_refunded]))
    = Returns r
    /\ ((status r = 200%nat /\ exists a, payload r = AnalyticsOf a)
        \/ (status r = 500%nat /\ exists e, payload r = ErrorOf e)).
Proof.
  destruct (admin_analytics_read_only
              (sample_env_pages [sample_kept] [sample_refunded])) as (_ & _ & H).
  apply H.
  - intros after b Hb Hm.
    destruct after; cbn in Hb; injection Hb as <-; cbn in *; done.
  - intros after b Hb.
    destruct after; cbn in Hb; injection Hb as <-; reflexivity.
Defined.
